(** * LLM response normalization and repair pipeline

    A shallow embedding of the validation / repair / orchestration core of
    the company lookup tool:

    - [data-tools/sharedUtils/dataProcessing.ts]: [validate.analysisData],
      [repairAnalysisData], [getDetailProperty], [extractCompetitors];
    - [src/lib/schemas/research/*.schema.ts]: the Zod schemas the validator
      is assembled from;
    - [data-tools/openai.ts]: [processCompanyAnalysis] and its helpers.

    Modelling choices:
    - JavaScript values are a first-order datatype ([JS.value]): the JSON
      values, [undefined], and arrays with named properties; an object is
      the list of its own properties, strings are byte strings;
    - exceptions are an error monad ([JS.result]); [try]/[catch] is
      [try_catch];
    - the date read from the clock ([today]) and the settled outcome of the
      one outbound LLM call of a request ([LLMOutcome]) are explicit inputs;
    - console output is not modelled, so the [debug] flags (and the [DEBUG]
      environment variable behind them) do not influence any result;
    - the Zod library is modelled by the parsers the schemas use; its string
      formats and message texts are parameters ([ZodLib]). *)

From Stdlib Require Import List String Ascii Bool Arith ZArith QArith Lia DecimalString.
Import ListNotations.
Close Scope Q_scope.
Set Warnings "-register-all".
Open Scope list_scope.
Open Scope string_scope.

(* ================================================================== *)
(** * JavaScript values *)
(* ================================================================== *)

Module JS.

(** A JavaScript number.  The pipeline never computes with numbers; it only
    classifies them ([typeof], truthiness, Zod's [number]/[int]/[positive])
    and passes them through, so a number is NaN, an infinity or a rational
    (both zeros are [Fin 0]). *)
Inductive number : Type :=
| NaN
| Infinity (negative : bool)
| Fin (q : Q).

Definition num (z : Z) : number := Fin (inject_Z z).

Definition num_truthy (n : number) : bool :=
  match n with
  | NaN => false
  | Infinity _ => true
  | Fin q => negb (Qeq_bool q (inject_Z 0))
  end.

Definition num_isNaN (n : number) : bool :=
  match n with NaN => true | _ => false end.

(** [Number.isInteger]. *)
Definition num_isInteger (n : number) : bool :=
  match n with
  | Fin q => Z.eqb (Z.modulo (Qnum q) (Zpos (Qden q))) 0
  | _ => false
  end.

(** [n > 0]. *)
Definition num_positive (n : number) : bool :=
  match n with
  | NaN => false
  | Infinity negative => negb negative
  | Fin q => Z.ltb 0 (Qnum q)
  end.

(** Values: the JSON values, [undefined], and arrays that may carry named
    (expando) properties next to their elements, as happens when the
    orchestrator assigns [_meta] on whatever the LLM returned.  An object is
    the list of its own properties; a lookup takes the first binding of a
    key. *)
Inductive value : Type :=
| JUndefined
| JNull
| JBool (b : bool)
| JNum (n : number)
| JStr (s : string)
| JArr (elems : list value) (props : list (string * value))
| JObj (props : list (string * value)).

Definition props := list (string * value).

(** Exceptions: the engine's [TypeError] and any other thrown [Error]
    (transport failures of the LLM client, among others). *)
Inductive exn : Type :=
| TypeError (msg : string)
| Error (msg : string).

Inductive result (A : Type) : Type :=
| Ok (a : A)
| Throw (e : exn).
Arguments Ok {A} a.
Arguments Throw {A} e.

Definition bind {A B : Type} (m : result A) (k : A -> result B) : result B :=
  match m with
  | Ok a => k a
  | Throw e => Throw e
  end.

(** [try { body } catch (e) { handler e }]. *)
Definition try_catch {A : Type} (body : result A) (handler : exn -> result A) : result A :=
  match body with
  | Ok a => Ok a
  | Throw e => handler e
  end.

Fixpoint mapM {A B : Type} (f : A -> result B) (l : list A) : result (list B) :=
  match l with
  | [] => Ok []
  | x :: xs =>
      bind (f x) (fun y => bind (mapM f xs) (fun ys => Ok (y :: ys)))
  end.

(** [Array.prototype.map] with the callback's [index] argument. *)
Fixpoint mapiM {A B : Type} (f : A -> nat -> result B) (i : nat) (l : list A) : result (list B) :=
  match l with
  | [] => Ok []
  | x :: xs =>
      bind (f x i) (fun y => bind (mapiM f (S i) xs) (fun ys => Ok (y :: ys)))
  end.

Fixpoint assoc (k : string) (ps : props) : option value :=
  match ps with
  | [] => None
  | (k', v) :: rest => if k' =? k then Some v else assoc k rest
  end.

(** [o[k]] on the own-property list of an object. *)
Definition own (k : string) (ps : props) : value :=
  match assoc k ps with
  | Some v => v
  | None => JUndefined
  end.

Definition has_key (k : string) (ps : props) : bool :=
  match assoc k ps with
  | Some _ => true
  | None => false
  end.

(** [o[k] = v]: overwrite the binding in place, or append a new one. *)
Fixpoint set_key (k : string) (v : value) (ps : props) : props :=
  match ps with
  | [] => [(k, v)]
  | (k', v') :: rest =>
      if k' =? k then (k, v) :: rest else (k', v') :: set_key k v rest
  end.

(** [v.k] for a named key [k] (none of the keys read by the pipeline is an
    array index, [length] or a prototype member).  Reading a property of
    [null] or [undefined] throws; a primitive has no own named property. *)
Definition get (v : value) (k : string) : result value :=
  match v with
  | JUndefined => Throw (TypeError "Cannot read properties of undefined")
  | JNull => Throw (TypeError "Cannot read properties of null")
  | JObj ps => Ok (own k ps)
  | JArr _ ps => Ok (own k ps)
  | _ => Ok JUndefined
  end.

(** [k in v]: throws unless [v] is an object. *)
Definition has_in (k : string) (v : value) : result bool :=
  match v with
  | JObj ps => Ok (has_key k ps)
  | JArr _ ps => Ok (has_key k ps)
  | _ => Throw (TypeError "Cannot use 'in' operator")
  end.

(** [v.k = x] in strict mode (every file of the repository is an ES
    module). *)
Definition put (v : value) (k : string) (x : value) : result value :=
  match v with
  | JObj ps => Ok (JObj (set_key k x ps))
  | JArr xs ps => Ok (JArr xs (set_key k x ps))
  | JUndefined => Throw (TypeError "Cannot set properties of undefined")
  | JNull => Throw (TypeError "Cannot set properties of null")
  | _ => Throw (TypeError "Cannot create property")
  end.

Definition typeof (v : value) : string :=
  match v with
  | JUndefined => "undefined"
  | JNull => "object"
  | JBool _ => "boolean"
  | JNum _ => "number"
  | JStr _ => "string"
  | JArr _ _ => "object"
  | JObj _ => "object"
  end.

Definition truthy (v : value) : bool :=
  match v with
  | JUndefined => false
  | JNull => false
  | JBool b => b
  | JNum n => num_truthy n
  | JStr s => negb (s =? "")
  | JArr _ _ => true
  | JObj _ => true
  end.

Definition isArray (v : value) : bool :=
  match v with
  | JArr _ _ => true
  | _ => false
  end.

Definition is_undefined (v : value) : bool :=
  match v with
  | JUndefined => true
  | _ => false
  end.

(** [a || b], the right operand evaluated only when needed. *)
Definition or_else (a : result value) (b : result value) : result value :=
  bind a (fun x => if truthy x then Ok x else b).

(** [`${n}`] for a natural number. *)
Definition string_of_nat (n : nat) : string :=
  NilEmpty.string_of_uint (Nat.to_uint n).

(** The own enumerable properties copied by an object spread [{...v}]. *)
Fixpoint index_props (i : nat) (xs : list value) : props :=
  match xs with
  | [] => []
  | x :: rest => (string_of_nat i, x) :: index_props (S i) rest
  end.

Fixpoint chars (s : string) : list value :=
  match s with
  | EmptyString => []
  | String c rest => JStr (String c EmptyString) :: chars rest
  end.

Definition spread (v : value) : props :=
  match v with
  | JObj ps => ps
  | JArr xs ps => (index_props 0 xs ++ ps)%list
  | JStr s => index_props 0 (chars s)
  | _ => []
  end.

End JS.
Export JS.

Declare Scope js_scope.
Notation "x <- m ;; k" := (bind m (fun x => k))
  (at level 61, m at next level, right associativity) : js_scope.
Notation "a ||| b" := (or_else a b) (at level 50, left associativity) : js_scope.
Open Scope js_scope.

(* ================================================================== *)
(** * The Repair Engine ([repairAnalysisData]) *)
(* ================================================================== *)

Definition zero : number := num 0.

Definition defaultMeta : value :=
  JObj [("cost", JObj [("totalTokens", JNum zero); ("costUSD", JNum zero)])].

(** [defaultData], built afresh by every call. *)
Definition defaultData : value :=
  JObj [("entity", JObj [("id", JNull);
                         ("name_brand", JStr "Unknown Company");
                         ("details", JArr [] []);
                         ("products", JArr [] [])]);
        ("_meta", defaultMeta)].

(** The inline ternary
    [typeof d.snake === ty ? d.snake : typeof d.camel === ty ? d.camel : dflt]. *)
Definition typed_field (d : value) (ty snake camel : string) (dflt : value) : result value :=
  a <- get d snake ;;
  if typeof a =? ty then Ok a
  else
    b <- get d camel ;;
    if typeof b =? ty then Ok b else Ok dflt.

(** [Array.isArray(a) ? a.map(f) : []]. *)
Definition map_if_array (a : value) (f : value -> result value) : result value :=
  match a with
  | JArr xs _ => l <- mapM f xs ;; Ok (JArr l [])
  | _ => Ok (JArr [] [])
  end.

Definition mapi_if_array (a : value) (f : value -> nat -> result value) : result value :=
  match a with
  | JArr xs _ => l <- mapiM f 0 xs ;; Ok (JArr l [])
  | _ => Ok (JArr [] [])
  end.

(** [getDetailProperty]. *)
Definition getDetailProperty (obj : value) (snakeCaseKey camelCaseKey : string)
  (defaultValue : value) : result value :=
  inSnake <- has_in snakeCaseKey obj ;;
  useSnake <- (if inSnake : bool
               then x <- get obj snakeCaseKey ;; Ok (negb (is_undefined x))
               else Ok false) ;;
  if useSnake : bool then get obj snakeCaseKey
  else
    inCamel <- has_in camelCaseKey obj ;;
    useCamel <- (if inCamel : bool
                 then x <- get obj camelCaseKey ;; Ok (negb (is_undefined x))
                 else Ok false) ;;
    if useCamel : bool then get obj camelCaseKey
    else Ok defaultValue.

(** The callback of [entityData.details.map] (root entity, Case 1): the
    [||] chains.  [today] is [new Date().toISOString().split('T')[0]]. *)
Definition entityDetail (today : string) (detail : value) : result value :=
  let d := detail in
  type_research_detail <-
    get d "type_research_detail" ||| get d "typeResearchDetail"
      ||| Ok (JStr "market_share_estimate") ;;
  data_confidence <-
    get d "data_confidence" ||| get d "dataConfidence" ||| Ok (JStr "medium") ;;
  source_type <-
    get d "source_type" ||| get d "sourceType" ||| Ok (JStr "analyst_estimate") ;;
  as_of_date <-
    get d "as_of_date" ||| get d "asOfDate" ||| Ok (JStr today) ;;
  discrete_value <- typed_field d "number" "discrete_value" "discreteValue" JUndefined ;;
  text_value <- typed_field d "string" "text_value" "textValue" JUndefined ;;
  Ok (JObj [("type_research_detail", type_research_detail);
            ("data_confidence", data_confidence);
            ("source_type", source_type);
            ("as_of_date", as_of_date);
            ("discrete_value", discrete_value);
            ("text_value", text_value)]).

(** The callback of [productData.details.map] and of [compData.details.map]
    (the same text twice in the source): [getDetailProperty] for the four
    defaulted fields. *)
Definition nestedDetail (today : string) (d : value) : result value :=
  type_research_detail <-
    getDetailProperty d "type_research_detail" "typeResearchDetail"
      (JStr "market_share_estimate") ;;
  data_confidence <-
    getDetailProperty d "data_confidence" "dataConfidence" (JStr "medium") ;;
  source_type <-
    getDetailProperty d "source_type" "sourceType" (JStr "analyst_estimate") ;;
  as_of_date <- getDetailProperty d "as_of_date" "asOfDate" (JStr today) ;;
  discrete_value <- typed_field d "number" "discrete_value" "discreteValue" JUndefined ;;
  text_value <- typed_field d "string" "text_value" "textValue" JUndefined ;;
  Ok (JObj [("type_research_detail", type_research_detail);
            ("data_confidence", data_confidence);
            ("source_type", source_type);
            ("as_of_date", as_of_date);
            ("discrete_value", discrete_value);
            ("text_value", text_value)]).

(** [!x || typeof x !== 'object']. *)
Definition not_an_object (x : value) : bool :=
  negb (truthy x) || negb (typeof x =? "object").

(** Case 1, the callback of [productData.competitors.map]. *)
Definition modernCompetitor (today : string) (comp : value) : result value :=
  if not_an_object comp then
    Ok (JObj [("id", JNull); ("name_brand", JStr "Unknown Competitor");
              ("details", JArr [] [])])
  else
    let compData := comp in
    name_brand <- typed_field compData "string" "name_brand" "nameBrand"
                    (JStr "Unknown Competitor") ;;
    ds <- get compData "details" ;;
    details <- map_if_array ds (nestedDetail today) ;;
    Ok (JObj [("id", JNull); ("name_brand", name_brand); ("details", details)]).

(** Case 1, the callback of [entityData.products.map]. *)
Definition modernProduct (today : string) (product : value) : result value :=
  if not_an_object product then
    Ok (JObj [("id", JNull); ("name_brand", JStr "Unknown Product");
              ("details", JArr [] [])])
  else
    let productData := product in
    name_brand <- typed_field productData "string" "name_brand" "nameBrand"
                    (JStr "Unknown Product") ;;
    ds <- get productData "details" ;;
    details <- map_if_array ds (nestedDetail today) ;;
    cs <- get productData "competitors" ;;
    competitors <- map_if_array cs (modernCompetitor today) ;;
    Ok (JObj [("id", JNull); ("name_brand", name_brand); ("details", details);
              ("competitors", competitors)]).

(** [typeof x === 'string' ? x : dflt]. *)
Definition string_or (x : value) (dflt : string) : value :=
  if typeof x =? "string" then x else JStr dflt.

(** Case 2, the callback of [productData.competitors.map]. *)
Definition legacyCompetitor (comp : value) (compIndex : nat) : result value :=
  let fallback := "Competitor " ++ string_of_nat (compIndex + 1) in
  if not_an_object comp then
    Ok (JObj [("id", JNull); ("name_brand", JStr fallback); ("details", JArr [] [])])
  else
    let compData := comp in
    compName <-
      get compData "name" ||| get compData "competitor_name"
        ||| get compData "name_brand" ||| get compData "nameBrand"
        ||| Ok (JStr fallback) ;;
    Ok (JObj [("id", JNull); ("name_brand", string_or compName fallback);
              ("details", JArr [] [])]).

(** Case 2, the callback of [rawData.products.map]. *)
Definition legacyProduct (product : value) (index : nat) : result value :=
  let fallback := "Product " ++ string_of_nat (index + 1) in
  if not_an_object product then
    Ok (JObj [("id", JNull); ("name_brand", JStr fallback); ("details", JArr [] [])])
  else
    let productData := product in
    productName <-
      get productData "name" ||| get productData "product_name"
        ||| get productData "name_brand" ||| get productData "nameBrand"
        ||| Ok (JStr fallback) ;;
    cs <- get productData "competitors" ;;
    competitors <- mapi_if_array cs legacyCompetitor ;;
    Ok (JObj [("id", JNull); ("name_brand", string_or productName fallback);
              ("details", JArr [] []); ("competitors", competitors)]).

(** Case 1: [rawData.entity] is an object. *)
Definition repairModern (today : string) (rawData entityData : value) : result value :=
  name_brand <- typed_field entityData "string" "name_brand" "nameBrand"
                  (JStr "Unknown Company") ;;
  ds <- get entityData "details" ;;
  details <- match ds with
             | JArr xs _ => l <- mapM (entityDetail today) xs ;; Ok (JArr l [])
             | _ => Ok (JArr [] [])
             end ;;
  ps <- get entityData "products" ;;
  products <- match ps with
              | JArr xs _ => l <- mapM (modernProduct today) xs ;; Ok (JArr l [])
              | _ => Ok (JArr [] [])
              end ;;
  meta <- get rawData "_meta" ;;
  let _meta := if truthy meta && (typeof meta =? "object") then meta else defaultMeta in
  Ok (JObj [("entity", JObj [("id", JNull); ("name_brand", name_brand);
                             ("details", details); ("products", products)]);
            ("_meta", _meta)]).

(** Case 2: the legacy flat shape. *)
Definition repairLegacy (rawData products : value) : result value :=
  company <- get rawData "company" ;;
  companyName <-
    (if (typeof company =? "object") && truthy company
     then get company "name" ||| get company "company_name" ||| get company "trade_name"
     else Ok JNull)
      ||| get rawData "company_name" ||| get rawData "name"
      ||| get rawData "trade_name" ||| Ok (JStr "Unknown Company") ;;
  products' <- match products with
               | JArr xs _ => l <- mapiM legacyProduct 0 xs ;; Ok (JArr l [])
               | _ => Ok (JArr [] [])
               end ;;
  Ok (JObj [("entity", JObj [("id", JNull);
                             ("name_brand", string_or companyName "Unknown Company");
                             ("details", JArr [] []);
                             ("products", products')]);
            ("_meta", defaultMeta)]).

(** The body of the [try] block of [repairAnalysisData]. *)
Definition repairBody (today : string) (rawData : value) : result value :=
  entity <- get rawData "entity" ;;
  if truthy entity && (typeof entity =? "object") then
    repairModern today rawData entity
  else
    legacyName <- get rawData "company" ||| get rawData "company_name"
                    ||| get rawData "name" ;;
    products <- get rawData "products" ;;
    if truthy legacyName && isArray products then
      repairLegacy rawData products
    else Ok defaultData.

(** [repairAnalysisData(data, debug)].  Console output is not modelled, so
    [debug] has no effect on the result. *)
Definition repairAnalysisData (today : string) (data : value) (debug : bool) : result value :=
  if not_an_object data then Ok defaultData
  else
    let rawData := data in
    try_catch (repairBody today rawData) (fun _ => Ok defaultData).

(* ================================================================== *)
(** * Zod *)
(* ================================================================== *)

(** What the schemas use of the Zod library: a parser is a predicate on
    values ([safeParse(...).success]).  The string formats ([uuid],
    [datetime], [url]) and the rendering of issues into messages belong to
    the library, not to the repository, and are parameters. *)
Record ZodLib : Type := {
  is_uuid : string -> bool;
  is_datetime : string -> bool;
  is_url : string -> bool;
  issues : value -> list string
}.

Module z.

Definition schema := value -> bool.

Definition any : schema := fun _ => true.

Definition string : schema :=
  fun v => match v with JStr _ => true | _ => false end.

(** [z.string().uuid()], [.datetime()], [.url()], [.length(n)]: a string
    passing one more check. *)
Definition string_with (check : String.string -> bool) : schema :=
  fun v => match v with JStr s => check s | _ => false end.

Definition number : schema :=
  fun v => match v with JNum n => negb (num_isNaN n) | _ => false end.

Definition number_int : schema :=
  fun v => match v with JNum n => negb (num_isNaN n) && num_isInteger n | _ => false end.

Definition number_int_positive : schema :=
  fun v => match v with
           | JNum n => negb (num_isNaN n) && num_isInteger n && num_positive n
           | _ => false
           end.

Definition boolean : schema :=
  fun v => match v with JBool _ => true | _ => false end.

Definition enum (values : list String.string) : schema :=
  fun v => match v with
           | JStr s => existsb (String.eqb s) values
           | _ => false
           end.

(** [s.length], which [z.string().length(n)] compares: the number of UTF-16
    code units of a string held here as UTF-8 bytes.  A continuation byte
    counts for nothing, the lead byte of a four-byte sequence for the two
    units of a surrogate pair, every other byte for one. *)
Fixpoint utf16_length (s : String.string) : nat :=
  match s with
  | EmptyString => 0
  | String c rest =>
      let b := nat_of_ascii c in
      (if Nat.ltb b 128 then 1
       else if Nat.ltb b 192 then 0
       else if Nat.ltb b 240 then 1
       else 2) + utf16_length rest
  end.

Definition optional (s : schema) : schema :=
  fun v => match v with JUndefined => true | _ => s v end.

Definition nullable (s : schema) : schema :=
  fun v => match v with JNull => true | _ => s v end.

(** [s.default(d)]: [undefined] is replaced by the default before parsing;
    every default in the schemas satisfies its schema. *)
Definition default (s : schema) : schema :=
  fun v => match v with JUndefined => true | _ => s v end.

Definition array (s : schema) : schema :=
  fun v => match v with JArr xs _ => forallb s xs | _ => false end.

Definition shape := list (String.string * schema).

(** [z.object(shape)]: a non-null, non-array object each of whose shape
    keys parses; unknown keys are stripped, not rejected. *)
Definition object (sh : shape) : schema :=
  fun v => match v with
           | JObj ps => forallb (fun ks => snd ks (own (fst ks) ps)) sh
           | _ => false
           end.

End z.

(* ================================================================== *)
(** * The Schema Model *)
(* ================================================================== *)

(** [detail_enums.schema.ts] *)
Definition dataConfidence : list string :=
  ["verified"; "high"; "medium"; "low"; "speculative"].

Definition researchDetailTypes : list string :=
  ["market_share_min"; "market_share_max"; "market_share_exact";
   "market_share_estimate";
   "employee_count_exact"; "employee_count_estimate"; "employee_count_min";
   "employee_count_max";
   "churn_rate_estimate"; "customer_count_estimate"; "active_users_estimate";
   "arpu_estimate"; "cac_estimate"; "ltv_estimate"; "runway_months_estimate";
   "market_size_usd"; "market_growth_rate"].

Definition sourceTypes : list string :=
  ["industry_report"; "company_filing"; "news_article"; "analyst_estimate";
   "company_website"; "press_release"; "unknown"].

Definition dataConfidenceEnum : z.schema := z.enum dataConfidence.
Definition typeResearchDetailEnum : z.schema := z.enum researchDetailTypes.
Definition sourceTypeEnum : z.schema := z.enum sourceTypes.

(** [entity.schema.ts] *)
Definition statusOperating : list string :=
  ["Active"; "Operating"; "Closed"; "Inactive"; "Acquired"; "Liquidated";
   "Bankruptcy / Reorganization"; "Unknown"].

Definition statusOperatingEnum : z.schema := z.enum statusOperating.

Section Schemas.
Variable zod : ZodLib.

Definition datetime : z.schema := z.string_with (is_datetime zod).

(** [id.schema.ts] *)
Definition uuidSchema : z.schema := z.string_with (is_uuid zod).
Definition nullableUuidSchema : z.schema := z.nullable uuidSchema.

(** [detail.schema.ts] *)
Definition entityDetailShape : z.shape :=
  [("id", z.optional z.number_int_positive);
   ("entity_id", z.optional uuidSchema);
   ("type_research_detail", typeResearchDetailEnum);
   ("data_confidence", dataConfidenceEnum);
   ("source_type", sourceTypeEnum);
   ("as_of_date", z.optional datetime);
   ("discrete_value", z.optional z.number);
   ("text_value", z.optional z.string);
   ("created_at", z.optional datetime);
   ("updated_at", z.optional datetime);
   ("source", z.optional z.string);
   ("source_url", z.optional (z.string_with (is_url zod)));
   ("source_date", z.optional datetime);
   ("notes", z.optional z.string)].

Definition entityDetailSchema : z.schema := z.object entityDetailShape.

(** [entity.schema.ts] *)
Definition baseEntityShape : z.shape :=
  [("id", nullableUuidSchema);
   ("name_brand", z.string);
   ("name_legal", z.optional z.string);
   ("date_year_established", z.optional z.number_int);
   ("file_logo_square", z.optional z.string);
   ("file_logo_favicon_square", z.optional z.string);
   ("status_featured", z.optional (z.default z.boolean));
   ("status_hide_page", z.optional (z.default z.boolean));
   ("status_sitemap_show", z.optional (z.default z.boolean));
   ("status_verified", z.optional (z.default z.boolean));
   ("functional_currency",
     z.optional (z.string_with (fun s => Nat.eqb (z.utf16_length s) 3)));
   ("type_record", z.optional z.string);
   ("slug", z.optional z.string);
   ("source_id", z.optional z.string);
   ("updated_at", z.optional datetime);
   ("created_at", z.optional datetime);
   ("updated_at_unified", z.optional datetime)].

Definition baseEntitySchema : z.schema := z.object baseEntityShape.

(** [entityUrlSchema] and [entityIdentifierSchema] are [z.lazy(() => z.any())]. *)
Definition companyEntityShape : z.shape :=
  (baseEntityShape ++
   [("status_operating", z.optional statusOperatingEnum);
    ("urls", z.optional (z.array z.any));
    ("identifiers", z.optional (z.array z.any));
    ("details", z.optional (z.array entityDetailSchema))])%list.

Definition companyEntitySchema : z.schema := z.object companyEntityShape.

Definition productEntityShape : z.shape :=
  (baseEntityShape ++
   [("details", z.optional (z.array entityDetailSchema));
    ("company", z.optional companyEntitySchema)])%list.

Definition productEntitySchema : z.schema := z.object productEntityShape.

(** [recursiveProductEntitySchema]:
    [z.lazy(() => productEntitySchema.extend({ competitors:
    z.array(recursiveProductEntitySchema).optional() }))].  The recursion
    follows the value: the [competitors] property is located, and its
    elements parsed, by local fixpoints. *)
Fixpoint recursiveProductEntitySchema (v : value) {struct v} : bool :=
  productEntitySchema v &&
  match v with
  | JObj ps =>
      (fix field (ps : props) : bool :=
         match ps with
         | [] => true
         | (k, x) :: rest =>
             if k =? "competitors" then
               match x with
               | JUndefined => true
               | JArr xs _ =>
                   (fix each (xs : list value) : bool :=
                      match xs with
                      | [] => true
                      | y :: ys => recursiveProductEntitySchema y && each ys
                      end) xs
               | _ => false
               end
             else field rest
         end) ps
  | _ => false
  end.

(* ================================================================== *)
(** * The Structural Validator ([validate.analysisData]) *)
(* ================================================================== *)

Definition analysisDataSchema : z.schema :=
  z.object
    [("entity",
       z.object
         [("id", z.nullable z.string);
          ("name_brand", z.string);
          ("details", z.optional (z.array entityDetailSchema));
          ("products", z.optional (z.array recursiveProductEntitySchema))]);
     ("_meta",
       z.optional
         (z.object
            [("cost",
               z.optional
                 (z.object [("totalTokens", z.number); ("costUSD", z.number)]));
             ("validation", z.optional z.string)]))].

End Schemas.

(** [{ isValid: boolean; errors?: string[] }] *)
Record ValidationOutcome : Type := {
  isValid : bool;
  errors : option (list string)
}.

Module validate.

(** [validate.analysisData]: [parse] either succeeds or throws a
    [ZodError], whose issues become the error strings. *)
Definition analysisData (zod : ZodLib) (data : value) : ValidationOutcome :=
  if analysisDataSchema zod data
  then {| isValid := true; errors := None |}
  else {| isValid := false; errors := Some (issues zod data) |}.

End validate.

(* ================================================================== *)
(** * The Pipeline Orchestrator ([openai.ts]) *)
(* ================================================================== *)

Inductive Strategy : Type := single | multi.

(** [CompanyAnalysisOptions]; [apiKey], [model] and [provider] only reach
    the outbound request. *)
Record CompanyAnalysisOptions : Type := {
  debug : option bool;
  skipValidation : option bool;
  sourceType : option string;
  strategy : option Strategy
}.

Record Cost : Type := { totalTokens : number; costUSD : number }.

Definition cost_object (c : Cost) : value :=
  JObj [("totalTokens", JNum (totalTokens c)); ("costUSD", JNum (costUSD c))].

(** The settled promise of [callOpenAIWithSchema]: [{ data, cost }], or the
    exception it rethrows.  Each request makes one such call. *)
Definition LLMOutcome : Type := result (value * Cost).

Record BasicInfo : Type := {
  company_name : value;
  main_products : list value;
  main_competitors : list value;
  cost : Cost
}.

Definition flag (o : option bool) : bool :=
  match o with Some b => b | None => false end.

Definition elements (v : value) : list value :=
  match v with JArr xs _ => xs | _ => [] end.

(** [getBasicCompanyInfo] *)
Definition getBasicCompanyInfo (companyName : string) (options : CompanyAnalysisOptions)
  (llm : LLMOutcome) : result BasicInfo :=
  try_catch
    (r <- llm ;;
     let data := fst r in
     name <- get data "company_name" ||| Ok (JStr companyName) ;;
     products <- get data "main_products" ;;
     competitors <- get data "main_competitors" ;;
     Ok {| company_name := name;
           main_products := if isArray products then elements products else [];
           main_competitors := if isArray competitors then elements competitors else [];
           cost := snd r |})
    (fun _ =>
       Ok {| company_name := JStr companyName;
             main_products := [];
             main_competitors := [];
             cost := {| totalTokens := zero; costUSD := zero |} |}).

(** [`${v}`], for its completion only.  The string conversion of an object
    calls its [toString]: an own property of that name shadows the method
    (no data value is callable), [valueOf] then returns the object itself
    and the conversion raises.  That of an array joins the conversions of
    its elements, [null] and [undefined] counting as empty; an own [join]
    makes it fall back to [Object.prototype.toString]. *)
Fixpoint ToString (v : value) : result unit :=
  match v with
  | JObj ps =>
      if has_key "toString" ps
      then Throw (TypeError "Cannot convert object to primitive value")
      else Ok tt
  | JArr xs ps =>
      if has_key "toString" ps
      then Throw (TypeError "Cannot convert object to primitive value")
      else if has_key "join" ps then Ok tt
      else
        (fix each (xs : list value) : result unit :=
           match xs with
           | [] => Ok tt
           | x :: rest =>
               match x with
               | JUndefined | JNull => each rest
               | _ => bind (ToString x) (fun _ => each rest)
               end
           end) xs
  | _ => Ok tt
  end.

(** The body of the [try] in the loop of [processMultiStepAnalysis]: the
    message of [debugLog] is built from the product name, then the object
    is pushed. *)
Definition productSkeleton (today companyName : string) (basicInfo : BasicInfo)
  (productName : value) : result value :=
  _ <- ToString productName ;;
  Ok (JObj
        [("id", JNull);
         ("name_brand", productName);
         ("details",
           JArr [JObj [("type_research_detail", JStr "market_share_estimate");
                       ("data_confidence", JStr "high");
                       ("source_type", JStr "analyst_estimate");
                       ("as_of_date", JStr today);
                       ("text_value", JStr ("Product offered by " ++ companyName))]] []);
         ("competitors",
           JArr (map (fun competitor =>
                        JObj [("id", JNull); ("name_brand", competitor);
                              ("details", JArr [] [])])
                     (main_competitors basicInfo)) [])]).

(** One turn of the [for ... of] loop on the products pushed so far: the
    [catch] builds the message of its [debugLog] from the product name
    again, outside any [try]. *)
Definition addProductSkeleton (today companyName : string) (basicInfo : BasicInfo)
  (pushed : result (list value)) (productName : value) : result (list value) :=
  pushed <- pushed ;;
  match productSkeleton today companyName basicInfo productName with
  | Ok p => Ok (pushed ++ [p])%list
  | Throw error =>
      _ <- ToString productName ;;
      Ok pushed
  end.

(** [processMultiStepAnalysis] *)
Definition processMultiStepAnalysis (today companyName : string)
  (options : CompanyAnalysisOptions) (llm : LLMOutcome) : result value :=
  basicInfo <- getBasicCompanyInfo companyName options llm ;;
  products <-
    (if Nat.ltb 0 (List.length (main_products basicInfo)) then
       fold_left (addProductSkeleton today companyName basicInfo)
         (main_products basicInfo) (Ok [])
     else Ok []) ;;
  Ok (JObj [("entity", JObj [("id", JNull);
                             ("name_brand", company_name basicInfo);
                             ("products", JArr products []);
                             ("details", JArr [] [])]);
            ("_meta", JObj [("cost", cost_object (cost basicInfo))])]).

(** [processSingleStepAnalysis]: the parsed payload is returned after
    [_meta.cost] has been assigned on it. *)
Definition processSingleStepAnalysis (companyName : string)
  (options : CompanyAnalysisOptions) (llm : LLMOutcome) : result value :=
  try_catch
    (r <- llm ;;
     let parsedData := fst r in
     m <- get parsedData "_meta" ;;
     parsedData <- (if negb (truthy m) then put parsedData "_meta" (JObj [])
                    else Ok parsedData) ;;
     m <- get parsedData "_meta" ;;
     m <- put m "cost" (cost_object (snd r)) ;;
     put parsedData "_meta" m)
    (fun error => Throw error).

(** [finalizeAnalysisData] *)
Definition finalizeAnalysisData (today : string) (analysisData : value)
  (options : CompanyAnalysisOptions) : result value :=
  if negb (flag (skipValidation options)) then
    repairedData <- repairAnalysisData today analysisData (flag (debug options)) ;;
    m <- get repairedData "_meta" ;;
    if truthy m then
      m <- put m "validation" (JStr "repaired") ;;
      put repairedData "_meta" m
    else Ok repairedData
  else Ok analysisData.

Definition string_array (l : list string) : value := JArr (map JStr l) [].

(** [case 'validatedOpenAI'] *)
Definition validatedOpenAI (zod : ZodLib) (analysisData : value) : result value :=
  let validationResult := validate.analysisData zod analysisData in
  m <- get analysisData "_meta" ;;
  Ok (JObj
        (set_key "_meta"
           (JObj
              (set_key "validationErrors"
                 (if isValid validationResult then JArr [] []
                  else match errors validationResult with
                       | Some es => string_array es
                       | None => JUndefined
                       end)
                 (set_key "validation"
                    (JStr (if isValid validationResult then "passed" else "failed"))
                    (spread m))))
           (spread analysisData))).

(** [case 'repairedOpenAI'] *)
Definition repairedOpenAI (zod : ZodLib) (today : string) (analysisData : value)
  (debug : bool) : result value :=
  let validationResult := validate.analysisData zod analysisData in
  m <- get analysisData "_meta" ;;
  let metadata :=
    JObj (set_key "validation"
            (JStr (if isValid validationResult then "valid_at_source" else "repaired"))
            (spread m)) in
  if isValid validationResult then
    Ok (JObj (set_key "_meta" metadata (spread analysisData)))
  else
    repaired <- repairAnalysisData today analysisData debug ;;
    Ok (JObj (set_key "_meta" metadata (spread repaired))).

(** [processCompanyAnalysis] *)
Definition processCompanyAnalysis (zod : ZodLib) (today companyName : string)
  (options : CompanyAnalysisOptions) (llm : LLMOutcome) : result value :=
  let debug := flag (debug options) in
  let sourceType :=
    match sourceType options with
    | Some s => if s =? "" then "transformedOpenAI" else s
    | None => "transformedOpenAI"
    end in
  let strategy :=
    match strategy options with
    | Some s => s
    | None => single
    end in
  try_catch
    (analysisData <-
       match strategy with
       | multi => processMultiStepAnalysis today companyName options llm
       | single => processSingleStepAnalysis companyName options llm
       end ;;
     if sourceType =? "rawOpenAI" then Ok analysisData
     else if sourceType =? "validatedOpenAI" then validatedOpenAI zod analysisData
     else if sourceType =? "repairedOpenAI" then
       repairedOpenAI zod today analysisData debug
     else finalizeAnalysisData today analysisData options)
    (fun error => Throw error).

(* ================================================================== *)
(** * The Enrichment step: [extractCompetitors] *)
(* ================================================================== *)

(** [transformToEnhancedCompanyData] hands [extractCompetitors] a typed
    [RecursiveProductEntity[]]; the records keep the fields it reads, each
    optional one an [option]. *)
Module Transform.

Record EntityDetail : Type := {
  type_research_detail : option string;
  discrete_value : option number;
  text_value : option string
}.

Inductive RecursiveProductEntity : Type :=
  mkEntity {
    name_brand : string;
    details : option (list EntityDetail);
    competitors : option (list RecursiveProductEntity)
  }.

(** The UI type [Competitor]. *)
Record Competitor : Type := {
  name : string;
  marketShare : number;
  primaryCompetition : string
}.

(** [String.prototype.includes] *)
Fixpoint includes (s sub : string) : bool :=
  prefix sub s ||
  match s with
  | EmptyString => false
  | String _ rest => includes rest sub
  end.

(** [s || dflt] on strings. *)
Definition or_string (s dflt : string) : string :=
  if s =? "" then dflt else s.

(** A [Map<string, Competitor>], in insertion order. *)
Definition CompetitorMap : Type := list (string * Competitor).

Definition map_has (k : string) (m : CompetitorMap) : bool :=
  existsb (fun kv => fst kv =? k) m.

Fixpoint map_set (k : string) (c : Competitor) (m : CompetitorMap) : CompetitorMap :=
  match m with
  | [] => [(k, c)]
  | (k', c') :: rest =>
      if k' =? k then (k, c) :: rest else (k', c') :: map_set k c rest
  end.

Definition map_values (m : CompetitorMap) : list Competitor := map snd m.

(** [utils.isValidArray] *)
Definition isValidArray {A : Type} (array : list A) : bool :=
  Nat.ltb 0 (List.length array).

(** The predicate handed to [competitor.details.find]. *)
Definition isMarketShareDetail (detail : EntityDetail) : bool :=
  match type_research_detail detail with
  | Some t => includes t "market_share"
  | None => false
  end &&
  match discrete_value detail with
  | Some _ => true
  | None => false
  end.

Definition marketShareOf (competitor : RecursiveProductEntity) : number :=
  match details competitor with
  | Some ds =>
      match find isMarketShareDetail ds with
      | Some marketShareDetail =>
          match discrete_value marketShareDetail with
          | Some x => x
          | None => num 5
          end
      | None => num 5
      end
  | None => num 5
  end.

(** The body of the inner [for (const competitor of product.competitors)]. *)
Definition addCompetitor (product : RecursiveProductEntity) (competitorMap : CompetitorMap)
  (competitor : RecursiveProductEntity) : CompetitorMap :=
  let name := or_string (name_brand competitor) "Unknown Competitor" in
  if map_has name competitorMap then competitorMap
  else
    map_set name
      {| name := name;
         marketShare := marketShareOf competitor;
         primaryCompetition :=
           "Competitor for " ++ or_string (name_brand product) "this product" |}
      competitorMap.

(** The body of the outer [for (const product of products)]. *)
Definition addProduct (competitorMap : CompetitorMap) (product : RecursiveProductEntity)
  : CompetitorMap :=
  match competitors product with
  | None => competitorMap
  | Some cs =>
      if Nat.eqb (List.length cs) 0 then competitorMap
      else fold_left (addCompetitor product) cs competitorMap
  end.

Definition extractCompetitors (products : list RecursiveProductEntity) : list Competitor :=
  if negb (isValidArray products) then []
  else map_values (fold_left addProduct products []).

End Transform.

(* ================================================================== *)
(** * Shapes and statements used by the properties *)
(* ================================================================== *)

(** ** The shape of repaired values, and totality (C1) *)

(** The entity skeletons the Repair Engine assembles. *)
Definition competitorShaped (c : value) : Prop :=
  exists n ds,
    c = JObj [("id", JNull); ("name_brand", JStr n); ("details", JArr ds [])].

Definition productShaped (p : value) : Prop :=
  (exists n,
      p = JObj [("id", JNull); ("name_brand", JStr n); ("details", JArr [] [])]) \/
  (exists n ds cs,
      p = JObj [("id", JNull); ("name_brand", JStr n); ("details", JArr ds []);
                ("competitors", JArr cs [])] /\
      Forall competitorShaped cs).

Definition repairShaped (r : value) : Prop :=
  exists n ds ps m,
    r = JObj [("entity", JObj [("id", JNull); ("name_brand", JStr n);
                               ("details", JArr ds []); ("products", JArr ps [])]);
              ("_meta", m)] /\
    Forall productShaped ps /\
    truthy m && (typeof m =? "object") = true.

(** [v.a.b] *)
Definition get2 (v : value) (a b : string) : result value :=
  x <- get v a ;; get x b.

(** The inputs on which Case 1 copies an empty name: [data.entity] is an
    object whose [name_brand] is the empty string, or whose [name_brand] is
    not a string and whose [nameBrand] is the empty string. *)
Definition empty_entity_name (data : value) : bool :=
  match data with
  | JObj ps | JArr _ ps =>
      match own "entity" ps with
      | JObj es | JArr _ es =>
          match own "name_brand" es with
          | JStr s => s =? ""
          | _ => match own "nameBrand" es with
                 | JStr s => s =? ""
                 | _ => false
                 end
          end
      | _ => false
      end
  | _ => false
  end.

(** Totality of repair, as the specification words it. *)
Definition repair_total_nonempty_name : Prop :=
  forall (today : string) (v : value) (debug : bool),
  exists r name products ps,
    repairAnalysisData today v debug = Ok r /\
    get2 r "entity" "name_brand" = Ok (JStr name) /\
    name <> "" /\
    get2 r "entity" "products" = Ok (JArr products ps).


(** ** Transport errors (C3) *)

(** Transport errors are never swallowed, as the specification words it:
    whenever the outbound LLM call raises, [processCompanyAnalysis] raises. *)
Definition transport_errors_propagate : Prop :=
  forall (zod : ZodLib) (today companyName : string)
         (options : CompanyAnalysisOptions) (e : exn),
  exists e', processCompanyAnalysis zod today companyName options (Throw e) = Throw e'.

(** ** Competitor occurrences (C10) and product skeletons (C9) *)

(** The competitor occurrences of a product list, in the order in which the
    two nested loops of [extractCompetitors] visit them. *)
Definition occurrences (products : list Transform.RecursiveProductEntity)
  : list (Transform.RecursiveProductEntity * Transform.RecursiveProductEntity) :=
  flat_map
    (fun product =>
       match Transform.competitors product with
       | Some cs => map (pair product) cs
       | None => []
       end)
    products.

(** The name under which an occurrence is filed. *)
Definition competitorName (c : Transform.RecursiveProductEntity) : string :=
  Transform.or_string (Transform.name_brand c) "Unknown Competitor".

Definition sameName (n : string)
  (pc : Transform.RecursiveProductEntity * Transform.RecursiveProductEntity) : bool :=
  competitorName (snd pc) =? n.

(** "The first [market_share] detail with a defined [discrete_value], else
    the default 5". *)
Definition firstMarketShare (c : Transform.RecursiveProductEntity) : number :=
  let ds := match Transform.details c with Some ds => ds | None => [] end in
  match
    find (fun d =>
            match Transform.type_research_detail d, Transform.discrete_value d with
            | Some t, Some _ => Transform.includes t "market_share"
            | _, _ => false
            end) ds
  with
  | Some d => match Transform.discrete_value d with Some x => x | None => num 5 end
  | None => num 5
  end.

(** The product skeleton, as a value. *)
Definition skeletonOf (today companyName : string) (info : BasicInfo) (productName : value) : value :=
  match productSkeleton today companyName info productName with
  | Ok p => p
  | Throw _ => JUndefined
  end.

(** The values a template literal can hold. *)
Definition convertible (v : value) : bool :=
  match ToString v with
  | Ok _ => true
  | Throw _ => false
  end.

(** The [Competitor] record [extractCompetitors] files for an occurrence. *)
Definition entryOf
  (pc : Transform.RecursiveProductEntity * Transform.RecursiveProductEntity)
  : Transform.Competitor :=
  {| Transform.name := competitorName (snd pc);
     Transform.marketShare := Transform.marketShareOf (snd pc);
     Transform.primaryCompetition :=
       "Competitor for " ++
       Transform.or_string (Transform.name_brand (fst pc)) "this product" |}.

(** The loop invariant of [extractCompetitors]: the map built after the
    occurrences [seen] have been visited. *)
Definition competitorMapInv (m : Transform.CompetitorMap)
  (seen : list (Transform.RecursiveProductEntity * Transform.RecursiveProductEntity))
  : Prop :=
  NoDup (map fst m) /\
  (forall k e, In (k, e) m ->
     exists pc, find (sameName k) seen = Some pc /\ e = entryOf pc /\
                k = competitorName (snd pc)) /\
  (forall pc, In pc seen -> Transform.map_has (competitorName (snd pc)) m = true).

(** ** Null ids (C8) *)

(** [v.k], read as [undefined] where the access would throw. *)
Definition field (v : value) (k : string) : value :=
  match get v k with
  | Ok x => x
  | Throw _ => JUndefined
  end.

Definition id_is_null (e : value) : bool :=
  match field e "id" with
  | JNull => true
  | _ => false
  end.

(** The [id] of the root entity, of each product and of each competitor is
    [null]. *)
Definition ids_null (r : value) : bool :=
  let e := field r "entity" in
  id_is_null e &&
  forallb (fun p => id_is_null p &&
                    forallb id_is_null (elements (field p "competitors")))
          (elements (field e "products")).

(** [options.sourceType || 'transformedOpenAI'] *)
Definition level_of (options : CompanyAnalysisOptions) : string :=
  match sourceType options with
  | Some s => if s =? "" then "transformedOpenAI" else s
  | None => "transformedOpenAI"
  end.

(** The raw result of the generation strategy
    ([if (strategy === 'multi') ... else ...]). *)
Definition generate (today companyName : string) (options : CompanyAnalysisOptions)
  (llm : LLMOutcome) : result value :=
  match strategy options with
  | Some multi => processMultiStepAnalysis today companyName options llm
  | _ => processSingleStepAnalysis companyName options llm
  end.

(** The default branch of the switch is taken and it repairs. *)
Definition repairs_unconditionally (options : CompanyAnalysisOptions) : bool :=
  negb (level_of options =? "rawOpenAI") &&
  negb (level_of options =? "validatedOpenAI") &&
  negb (level_of options =? "repairedOpenAI") &&
  negb (flag (skipValidation options)).

(** The null id invariant, as the specification words it. *)
Definition null_id_invariant : Prop :=
  forall (zod : ZodLib) (today companyName : string)
         (options : CompanyAnalysisOptions) (llm : LLMOutcome) (r : value),
    processCompanyAnalysis zod today companyName options llm = Ok r ->
    ids_null r = true.

(** ** Sample inputs *)

(** Sample inputs for the worked instances; [sampleZod] stands in for the
    library's checks. *)
Definition sampleZod : ZodLib :=
  {| is_uuid := fun s => Nat.eqb (String.length s) 36;
     is_datetime := fun s => Nat.eqb (String.length s) 20;
     is_url := fun s => prefix "http" s;
     issues := fun _ => ["entity: Required"] |}.

Definition sampleCost : Cost := {| totalTokens := num 10; costUSD := num 1 |}.

Definition sampleBasicInfo : LLMOutcome :=
  Ok (JObj [("company_name", JStr "Acme Inc");
            ("main_products", JArr [JStr "Anvil"] []);
            ("main_competitors", JArr [JStr "Bolt"] [])],
      sampleCost).

Definition optionsFor (level : string) (s : Strategy) : CompanyAnalysisOptions :=
  {| debug := None; skipValidation := None; sourceType := Some level;
     strategy := Some s |}.

(** ** The [repairedOpenAI] level (C7) *)

(** "[r] is [x] with only [_meta.validation] changed (set to [tag]) and
    every other field unchanged". *)
Definition tagged (x : value) (tag : string) (r : value) : Prop :=
  (forall k, k <> "_meta" -> field r k = field x k) /\
  (forall k, k <> "validation" ->
     field (field r "_meta") k = field (field x "_meta") k) /\
  field (field r "_meta") "validation" = JStr tag.

(** The semantics of the [repairedOpenAI] level, as the specification words
    it. *)
Definition repairedOpenAI_semantics : Prop :=
  forall (zod : ZodLib) (today companyName : string)
         (options : CompanyAnalysisOptions) (llm : LLMOutcome) (a r : value),
    level_of options = "repairedOpenAI" ->
    generate today companyName options llm = Ok a ->
    processCompanyAnalysis zod today companyName options llm = Ok r ->
    if isValid (validate.analysisData zod a)
    then tagged a "valid_at_source" r
    else exists rep,
           repairAnalysisData today a (flag (debug options)) = Ok rep /\
           tagged rep "repaired" r.

(** ** Field extraction (C5) *)

(** The extraction rule in the specification's words: "for each candidate
    key in [snake, camel]: if present and accepted, use it; else continue;
    else use default", [accepts] being the test a candidate must pass. *)
Definition extract (accepts : value -> bool) (snake camel : string) (dflt : value)
  (o : props) : value :=
  if accepts (own snake o) then own snake o
  else if accepts (own camel o) then own camel o
  else dflt.

Definition is_defined (v : value) : bool := negb (is_undefined v).

Definition has_type (ty : string) (v : value) : bool := typeof v =? ty.

Definition own_props (v : value) : props :=
  match v with
  | JObj ps => ps
  | JArr _ ps => ps
  | _ => []
  end.

(** The field-extraction fallback rule, as the specification words it: a
    candidate counts only when it has the type of the field (the type of its
    default), and no extraction raises. *)
Definition extraction_rule_as_specified : Prop :=
  forall (obj : value) (snake camel : string) (dflt : value),
    getDetailProperty obj snake camel dflt =
    Ok (extract (has_type (typeof dflt)) snake camel dflt (own_props obj)).

(** The Detail built by [entityDetail], resp. [nestedDetail], from the own
    properties of a detail object. *)
Definition entityDetailOf (today : string) (ps : props) : value :=
  JObj
    [("type_research_detail",
       extract truthy "type_research_detail" "typeResearchDetail"
         (JStr "market_share_estimate") ps);
     ("data_confidence",
       extract truthy "data_confidence" "dataConfidence" (JStr "medium") ps);
     ("source_type",
       extract truthy "source_type" "sourceType" (JStr "analyst_estimate") ps);
     ("as_of_date", extract truthy "as_of_date" "asOfDate" (JStr today) ps);
     ("discrete_value",
       extract (has_type "number") "discrete_value" "discreteValue" JUndefined ps);
     ("text_value",
       extract (has_type "string") "text_value" "textValue" JUndefined ps)].

Definition nestedDetailOf (today : string) (ps : props) : value :=
  JObj
    [("type_research_detail",
       extract is_defined "type_research_detail" "typeResearchDetail"
         (JStr "market_share_estimate") ps);
     ("data_confidence",
       extract is_defined "data_confidence" "dataConfidence" (JStr "medium") ps);
     ("source_type",
       extract is_defined "source_type" "sourceType" (JStr "analyst_estimate") ps);
     ("as_of_date", extract is_defined "as_of_date" "asOfDate" (JStr today) ps);
     ("discrete_value",
       extract (has_type "number") "discrete_value" "discreteValue" JUndefined ps);
     ("text_value",
       extract (has_type "string") "text_value" "textValue" JUndefined ps)].

(** ** Enum membership (C6) *)

(** The three enum-typed fields of a Detail hold members of their enums. *)
Definition detail_enums_ok (d : value) : bool :=
  typeResearchDetailEnum (field d "type_research_detail") &&
  dataConfidenceEnum (field d "data_confidence") &&
  sourceTypeEnum (field d "source_type").

Definition details_in (e : value) : list value := elements (field e "details").

(** The Details of a document: those of the root entity, of its products and
    of their competitors. *)
Definition all_details (v : value) : list value :=
  let e := field v "entity" in
  (details_in e ++
   flat_map (fun p => details_in p ++
                      flat_map details_in (elements (field p "competitors")))
            (elements (field e "products")))%list.

(** A document whose root entity carries the given details. *)
Definition document (name : string) (ds : list value) : value :=
  JObj [("entity", JObj [("id", JNull); ("name_brand", JStr name);
                         ("details", JArr ds [])])].

Definition enum_keys : list string :=
  ["type_research_detail"; "data_confidence"; "source_type"].

(** Validator enum leniency, as the specification words it: putting any
    string into an enum-typed field of a Detail does not make a valid
    document invalid. *)
Definition enum_leniency : Prop :=
  forall (zod : ZodLib) (name : string) (d : props) (ds : list value) (k s : string),
    In k enum_keys ->
    isValid (validate.analysisData zod (document name (JObj d :: ds))) = true ->
    isValid (validate.analysisData zod
               (document name (JObj (set_key k (JStr s) d) :: ds))) = true.

(** ** Validity of repaired values (C2) *)

(** The [_meta] part of [analysisDataSchema]. *)
Definition metaSchema : z.schema :=
  z.optional
    (z.object
       [("cost",
          z.optional (z.object [("totalTokens", z.number); ("costUSD", z.number)]));
        ("validation", z.optional z.string)]).

(** Case 1 of [repairAnalysisData] is entered: [data] is an object whose
    [entity] is an object. *)
Definition takes_case1 (v : value) : bool :=
  negb (not_an_object v) &&
  (truthy (field v "entity") && (typeof (field v "entity") =? "object")).

(** Repair output conforms to the schema, as the specification words it. *)
Definition repair_output_valid : Prop :=
  forall (zod : ZodLib) (today : string) (v : value) (debug : bool),
  exists r,
    repairAnalysisData today v debug = Ok r /\
    isValid (validate.analysisData zod r) = true.

(** ** Idempotence (C4) *)

(** "[r] is [v] with defaults filled into absent fields": every field
    present in [v] is present in [r] with a value related in the same way,
    arrays element by element, scalars equal. *)
Fixpoint fills (v r : value) {struct v} : Prop :=
  match v with
  | JObj ps =>
      match r with
      | JObj rs =>
          (fix each (ps : props) : Prop :=
             match ps with
             | [] => True
             | (k, x) :: rest => fills x (own k rs) /\ each rest
             end) ps
      | _ => False
      end
  | JArr xs _ =>
      match r with
      | JArr ys _ =>
          (fix each (xs ys : list value) : Prop :=
             match xs, ys with
             | [], [] => True
             | x :: xs', y :: ys' => fills x y /\ each xs' ys'
             | _, _ => False
             end) xs ys
      | _ => False
      end
  | _ => v = r
  end.

(** Idempotence of repair on canonical input, as the specification words
    it. *)
Definition repair_fills_and_is_idempotent : Prop :=
  forall (zod : ZodLib) (today : string) (v : value) (debug : bool),
    isValid (validate.analysisData zod v) = true ->
    exists r,
      repairAnalysisData today v debug = Ok r /\
      fills v r /\
      repairAnalysisData today r debug = Ok r.

(** Repaired entities, with the provenance of their details. *)
Definition competitorRepaired (today : string) (c : value) : Prop :=
  exists n pss,
    c = JObj [("id", JNull); ("name_brand", JStr n);
              ("details", JArr (map (nestedDetailOf today) pss) [])].

Definition productRepaired (today : string) (p : value) : Prop :=
  exists n pss cs,
    p = JObj [("id", JNull); ("name_brand", JStr n);
              ("details", JArr (map (nestedDetailOf today) pss) []);
              ("competitors", JArr cs [])] /\
    Forall (competitorRepaired today) cs.

(** What Case 1 makes of a document: the document rebuilt from the fields
    repair reads.  A Detail is rebuilt from its six fields, an entity from
    its [name_brand] and its Details, a product also from its competitors
    (whose own competitors are not read); every [id] is [null], and [_meta]
    is kept when it is an object. *)
Definition rebuiltDetails (detailOf : string -> props -> value) (today : string)
  (e : value) : list value :=
  map (fun d => detailOf today (own_props d)) (details_in e).

Definition rebuiltCompetitor (today : string) (c : value) : value :=
  JObj [("id", JNull); ("name_brand", field c "name_brand");
        ("details", JArr (rebuiltDetails nestedDetailOf today c) [])].

Definition rebuiltProduct (today : string) (p : value) : value :=
  JObj [("id", JNull); ("name_brand", field p "name_brand");
        ("details", JArr (rebuiltDetails nestedDetailOf today p) []);
        ("competitors",
          JArr (map (rebuiltCompetitor today) (elements (field p "competitors"))) [])].

Definition rebuilt (today : string) (v : value) : value :=
  let e := field v "entity" in
  let m := field v "_meta" in
  JObj [("entity",
          JObj [("id", JNull); ("name_brand", field e "name_brand");
                ("details", JArr (rebuiltDetails entityDetailOf today e) []);
                ("products",
                  JArr (map (rebuiltProduct today) (elements (field e "products"))) [])]);
        ("_meta", if truthy m && (typeof m =? "object") then m else defaultMeta)].

(** [d'] keeps what the Detail [d] held: the three enum fields, and each of
    [discrete_value], [text_value] and [as_of_date] that [d] has (a truthy
    [as_of_date]). *)
Definition keeps (d d' : value) : Prop :=
  field d' "type_research_detail" = field d "type_research_detail" /\
  field d' "data_confidence" = field d "data_confidence" /\
  field d' "source_type" = field d "source_type" /\
  (field d "discrete_value" <> JUndefined ->
   field d' "discrete_value" = field d "discrete_value") /\
  (field d "text_value" <> JUndefined ->
   field d' "text_value" = field d "text_value") /\
  (truthy (field d "as_of_date") = true ->
   field d' "as_of_date" = field d "as_of_date").

(** A canonical document: one product with one detail and one competitor. *)
Definition sampleDocument : value :=
  JObj
    [("entity",
       JObj
         [("id", JNull);
          ("name_brand", JStr "Acme");
          ("products",
            JArr
              [JObj
                 [("id", JNull);
                  ("name_brand", JStr "Widget");
                  ("details",
                    JArr
                      [JObj [("type_research_detail", JStr "market_share_estimate");
                             ("data_confidence", JStr "high");
                             ("source_type", JStr "analyst_estimate");
                             ("discrete_value", JNum (num 42))]] []);
                  ("competitors",
                    JArr [JObj [("id", JNull); ("name_brand", JStr "Bolt");
                                ("details", JArr [] [])]] [])]] [])])].

(* ================================================================== *)
(** * Further functions of [dataProcessing.ts] *)
(* ================================================================== *)

Module utils.

(** [utils.mapToEnum]: [zodEnum.parse(value)], or the default when the
    parse throws. *)
Definition mapToEnum (val : value) (zodEnum : list string) (defaultValue : string) : value :=
  match (if z.enum zodEnum val then Ok val else Throw (Error "ZodError")) with
  | Ok parsed => parsed
  | Throw _ => JStr defaultValue
  end.

End utils.

Module mappers.

Definition confidence (level : value) : value :=
  utils.mapToEnum level dataConfidence "medium".

Definition sourceType (source : value) : value :=
  utils.mapToEnum source sourceTypes "analyst_estimate".

Definition detailType (type : value) : value :=
  utils.mapToEnum type researchDetailTypes "market_share_estimate".

End mappers.

(** The minimal schema of [validate.basicStructure], [z.unknown()]
    accepting every element. *)
Definition basicStructureSchema : z.schema :=
  z.object
    [("entity",
       z.object
         [("name_brand", z.optional z.string);
          ("details", z.optional (z.array z.any));
          ("products", z.optional (z.array z.any))])].

(** [validate.basicStructure]; [messages] renders the issues of the
    [ZodError] this schema raises, as [issues] does for the full schema. *)
Definition basicStructure (messages : value -> list string) (response : value)
  : ValidationOutcome :=
  if basicStructureSchema response
  then {| isValid := true; errors := None |}
  else {| isValid := false; errors := Some (messages response) |}.

(** [a.map(f)] and [a.forEach(f)] on a value that passed a truthiness test:
    only an array has the method. *)
Definition array_elements (a : value) : result (list value) :=
  match a with
  | JArr xs _ => Ok xs
  | _ => Throw (TypeError "is not a function")
  end.

(** [createRecord], the helper of [mapAnalysisToEntityDetails]. *)
Definition createRecord (today entityId : string) (detail : value) : result value :=
  t <- get detail "type_research_detail" ||| Ok (JStr "") ;;
  c <- get detail "data_confidence" ||| Ok (JStr "") ;;
  s <- get detail "source_type" ||| Ok (JStr "") ;;
  as_of_date <- get detail "as_of_date" ||| Ok (JStr today) ;;
  discrete_value <- get detail "discrete_value" ;;
  text_value <- get detail "text_value" ;;
  Ok (JObj [("entity_id", JStr entityId);
            ("type_research_detail", mappers.detailType t);
            ("data_confidence", mappers.confidence c);
            ("source_type", mappers.sourceType s);
            ("as_of_date", as_of_date);
            ("discrete_value", discrete_value);
            ("text_value", text_value);
            ("creator", JStr "openai")]).

(** [if (e.details) records.push(...e.details.map(createRecord))] *)
Definition detailRecords (today entityId : string) (e : value) : result (list value) :=
  ds <- get e "details" ;;
  if truthy ds then
    xs <- array_elements ds ;;
    mapM (createRecord today entityId) xs
  else Ok [].

(** The records one product contributes: its own details, then those of
    each competitor. *)
Definition productRecords (today entityId : string) (product : value) : result (list value) :=
  own_records <- detailRecords today entityId product ;;
  cs <- get product "competitors" ;;
  if truthy cs then
    competitors <- array_elements cs ;;
    per_competitor <- mapM (detailRecords today entityId) competitors ;;
    Ok (own_records ++ List.concat per_competitor)%list
  else Ok own_records.

(** [mapAnalysisToEntityDetails] *)
Definition mapAnalysisToEntityDetails (today : string) (analysisData : value)
  (entityId : string) : result (list value) :=
  entity <- get analysisData "entity" ;;
  records <- detailRecords today entityId entity ;;
  ps <- get entity "products" ;;
  if truthy ps then
    products <- array_elements ps ;;
    per_product <- mapM (productRecords today entityId) products ;;
    Ok (records ++ List.concat per_product)%list
  else Ok records.

(** ** When [mapAnalysisToEntityDetails] returns *)

Definition non_nullish (v : value) : bool :=
  match v with
  | JUndefined | JNull => false
  | _ => true
  end.

(** A property the function may iterate: falsy (then it is skipped), or an
    array each of whose elements passes [p]. *)
Definition listable (x : value) (p : value -> bool) : bool :=
  match x with
  | JArr xs _ => forallb p xs
  | _ => negb (truthy x)
  end.

(** An entity whose [details] can be turned into records. *)
Definition recordable (e : value) : bool :=
  non_nullish e && listable (field e "details") non_nullish.

(** The documents on which [mapAnalysisToEntityDetails] returns. *)
Definition mappable (v : value) : bool :=
  non_nullish v &&
  recordable (field v "entity") &&
  listable (field (field v "entity") "products")
    (fun p => recordable p && listable (field p "competitors") recordable).

(** What a record must carry. *)
Definition record_ok (entityId : string) (r : value) : bool :=
  match field r "entity_id", field r "creator" with
  | JStr i, JStr c => (i =? entityId) && (c =? "openai")
  | _, _ => false
  end && detail_enums_ok r.

(** [r] is the record [createRecord] makes from the detail [d]. *)
Definition made_from (today entityId : string) (d r : value) : Prop :=
  createRecord today entityId d = Ok r.

(** A function making records of a value, the test telling when it returns,
    and the details it makes them from. *)
Definition makes_records (today entityId : string)
  (f : value -> result (list value)) (returns : value -> bool)
  (details : value -> list value) : Prop :=
  forall x,
    match f x with
    | Ok rs => returns x = true /\ Forall2 (made_from today entityId) (details x) rs
    | Throw _ => returns x = false
    end.

(** The fields of a Detail a record takes over as they are when the Detail
    is well-formed. *)
Definition copied_fields : list string :=
  ["type_research_detail"; "data_confidence"; "source_type";
   "discrete_value"; "text_value"].

Definition copies (d r : value) : Prop :=
  forall k, In k copied_fields -> field r k = field d k.

(* ================================================================== *)
(** * Statements about the orchestrator ([openai.ts]) *)
(* ================================================================== *)

(** The payloads [processSingleStepAnalysis] can put the cost on: an object
    whose [_meta] is falsy or itself an object. *)
Definition accepts_cost (parsedData : value) : bool :=
  match parsedData with
  | JObj ps | JArr _ ps =>
      let m := own "_meta" ps in negb (truthy m) || (typeof m =? "object")
  | _ => false
  end.

(** [r] is [x] with [_meta.cost] set to [c] and nothing else changed. *)
Definition with_cost (x : value) (c : Cost) (r : value) : Prop :=
  (forall k, k <> "_meta" -> field r k = field x k) /\
  (forall k, k <> "cost" -> field (field r "_meta") k = field (field x "_meta") k) /\
  field (field r "_meta") "cost" = cost_object c.

(** What the single strategy generates when the LLM answers with
    [sampleDocument]: the document with the cost of the call in [_meta]. *)
Definition sampleGenerated : value :=
  Eval cbv in
    match processSingleStepAnalysis "Acme" (optionsFor "transformedOpenAI" single)
            (Ok (sampleDocument, sampleCost)) with
    | Ok a => a
    | Throw _ => JUndefined
    end.

(* ================================================================== *)
(** * [openaiApi.ts]: [extractApiCost] *)
(* ================================================================== *)

(** [v?.k] *)
Definition get_opt (v : value) (k : string) : result value :=
  match v with
  | JUndefined | JNull => Ok JUndefined
  | _ => get v k
  end.

(** [v.toLocaleString()], for its completion only: the method is missing on
    [null] and [undefined], shadowed by an own property of that name (which
    no data value makes callable), and on a plain object it calls
    [this.toString()], on an array the method of each element that is
    neither [null] nor [undefined]. *)
Fixpoint toLocaleString (v : value) : result unit :=
  match v with
  | JUndefined => Throw (TypeError "Cannot read properties of undefined")
  | JNull => Throw (TypeError "Cannot read properties of null")
  | JBool _ | JNum _ | JStr _ => Ok tt
  | JObj ps =>
      if has_key "toLocaleString" ps || has_key "toString" ps
      then Throw (TypeError "is not a function")
      else Ok tt
  | JArr xs ps =>
      if has_key "toLocaleString" ps then Throw (TypeError "is not a function")
      else
        (fix each (xs : list value) : result unit :=
           match xs with
           | [] => Ok tt
           | x :: rest =>
               match x with
               | JUndefined | JNull => each rest
               | _ => bind (toLocaleString x) (fun _ => each rest)
               end
           end) xs
  end.

(** [extractApiCost]; the [console.log] is evaluated for the exception its
    template can raise. *)
Definition extractApiCost (data : value) : result value :=
  try_catch
    (match data with
     | JNull | JUndefined => Ok JNull
     | _ =>
         if negb (typeof data =? "object") then Ok JNull
         else
           let dataObj := data in
           responseData <- get dataObj "data" ;;
           metaInData <- get_opt responseData "_meta" ;;
           metaDirectly <- get dataObj "_meta" ;;
           costObject <- get_opt metaInData "cost" ||| get_opt metaDirectly "cost" ;;
           totalTokens <- get_opt costObject "totalTokens" ;;
           if negb (is_undefined totalTokens) then
             costUSD <- get costObject "costUSD" ;;
             if typeof costUSD =? "number" then
               _ <- toLocaleString totalTokens ;;
               Ok costObject
             else Ok JNull
           else Ok JNull
     end)
    (fun _ => Ok JNull).


(** Where [extractApiCost] looks for the cost: [data._meta.cost] when it is
    truthy, else [_meta.cost]. *)
Definition cost_location (data : value) : value :=
  let nested := field (field (field data "data") "_meta") "cost" in
  if truthy nested then nested else field (field data "_meta") "cost".

(** A cost object the callers can log: [costUSD] is a number and
    [totalTokens.toLocaleString()] returns. *)
Definition usable_cost (c : value) : Prop :=
  typeof (field c "costUSD") = "number" /\
  toLocaleString (field c "totalTokens") = Ok tt.

(* ================================================================== *)
(** * [openaiApi.ts]: from the completion to the payload *)
(* ================================================================== *)

(** The fields of the SDK's [ChatCompletion] the extraction reads; a field
    the code guards with [?.] or a truthiness test is an [option]. *)
Record FunctionCall : Type := { arguments : string }.

Record ToolCall : Type := {
  type : string;
  function : option FunctionCall
}.

Record Message : Type := {
  content : option string;
  tool_calls : option (list ToolCall);
  function_call : option FunctionCall
}.

Record Choice : Type := {
  message : option Message;
  finish_reason : string
}.

Record ChatCompletion : Type := { choices : option (list Choice) }.

Section Extraction.

(** [JSON.parse]: the parsed value, or the [SyntaxError] it throws. *)
Variable JSON_parse : string -> result value.

(** [safeParseJson] *)
Definition safeParseJson (jsonString : option string) : value :=
  match jsonString with
  | None => JNull
  | Some s =>
      if s =? "" then JNull
      else match JSON_parse s with
           | Ok v => v
           | Throw _ => JNull
           end
  end.

(** [response.choices?.[0]?.message] *)
Definition first_message (response : ChatCompletion) : option Message :=
  match choices response with
  | Some (choice :: _) => message choice
  | _ => None
  end.

(** The [tool_calls] step: [toolCall.function.arguments] raises inside the
    [try] when the call found has no [function]. *)
Definition from_tool_calls (m : Message) (parsedData : value) : value :=
  match tool_calls m with
  | Some tcs =>
      if Nat.ltb 0 (List.length tcs) then
        match find (fun tc => type tc =? "function") tcs with
        | Some toolCall =>
            match function toolCall with
            | Some f => safeParseJson (Some (arguments f))
            | None => parsedData
            end
        | None => parsedData
        end
      else parsedData
  | None => parsedData
  end.

Definition from_function_call (m : Message) (parsedData : value) : value :=
  match function_call m with
  | Some f =>
      if negb (truthy parsedData) && negb (arguments f =? "")
      then safeParseJson (Some (arguments f))
      else parsedData
  | None => parsedData
  end.

Definition from_content (m : Message) (parsedData : value) : value :=
  match content m with
  | Some c =>
      if negb (truthy parsedData) && negb (c =? "")
      then safeParseJson (Some c)
      else parsedData
  | None => parsedData
  end.

(** [extractJSONFromLLMResponse] *)
Definition extractJSONFromLLMResponse (response : ChatCompletion) : result value :=
  match first_message response with
  | None => Throw (Error "No message found in LLM response")
  | Some m =>
      let parsedData := JNull in
      let parsedData := from_tool_calls m parsedData in
      let parsedData := from_function_call m parsedData in
      let parsedData := from_content m parsedData in
      if negb (truthy parsedData)
      then Throw (Error "Could not extract valid JSON content from LLM response")
      else Ok parsedData
  end.

(** [callOpenAIWithSchema], from the settled [callOpenAI] on: the
    validation it may run only logs. *)
Definition callOpenAIWithSchema (completion : result (ChatCompletion * Cost)) : LLMOutcome :=
  try_catch
    (r <- completion ;;
     parsedData <- extractJSONFromLLMResponse (fst r) ;;
     Ok (parsedData, snd r))
    (fun error => Throw error).

(** The strings the extraction may parse, in the order it tries them: the
    arguments of the first tool call of type [function], those of
    [function_call], the [content]. *)
Definition sources (m : Message) : list string :=
  (match tool_calls m with
   | Some tcs =>
       match find (fun tc => type tc =? "function") tcs with
       | Some {| function := Some f |} => [arguments f]
       | _ => []
       end
   | None => []
   end ++
   match function_call m with Some f => [arguments f] | None => [] end ++
   match content m with Some c => [c] | None => [] end)%list.

(** [processOpenRouterResponse] ([providers/openrouter.ts]), which
    [callOpenAI] applies to the completion of the OpenRouter provider. *)
Definition apology : string :=
  "Sorry, I could not process your request through OpenRouter. Please try again or use a different provider.".

Definition syntheticChoice : Choice :=
  {| message := Some {| content := Some apology;
                        tool_calls := None;
                        function_call := None |};
     finish_reason := "stop" |}.

Definition processOpenRouterResponse (response : ChatCompletion) : ChatCompletion :=
  match choices response with
  | None | Some [] => {| choices := Some [syntheticChoice] |}
  | Some (firstChoice :: rest) =>
      match message firstChoice with
      | Some m =>
          match tool_calls m with
          | Some tcs =>
              if Nat.ltb 0 (List.length tcs) then
                if negb (finish_reason firstChoice =? "tool_calls") then
                  {| choices :=
                       Some ({| message := message firstChoice;
                                finish_reason := "tool_calls" |} :: rest) |}
                else response
              else response
          | None => response
          end
      | None => response
      end
  end.

(** The first of the strings that parses to a truthy value. *)
Definition parsed (l : list string) : option value :=
  find truthy (map (fun s => safeParseJson (Some s)) l).

Definition first_payload (m : Message) : option value := parsed (sources m).

(** The value a step leaves in [parsedData], seen as the payload found so
    far. *)
Definition found (parsedData : value) : option value :=
  if truthy parsedData then Some parsedData else None.

End Extraction.

(* ================================================================== *)
(** * The Enrichment step: [extractProducts] *)
(* ================================================================== *)

Module ProductLines.

(** The UI type [ProductLine]. *)
Record ProductLine : Type := {
  name : string;
  revenuePercentage : number;
  growth : string;
  description : string
}.

(** [detail.type_research_detail?.includes(sub)] *)
Definition typeIncludes (detail : Transform.EntityDetail) (sub : string) : bool :=
  match Transform.type_research_detail detail with
  | Some t => Transform.includes t sub
  | None => false
  end.

(** [array.map((x, index) => f x index)] *)
Fixpoint mapi {A B : Type} (f : A -> nat -> B) (index : nat) (l : list A) : list B :=
  match l with
  | [] => []
  | x :: rest => f x index :: mapi f (S index) rest
  end.

Section Arithmetic.

(** [a / b] and [`${x}`] on numbers, which the model of numbers leaves to
    the engine. *)
Variable divide : number -> number -> number.
Variable Number_toString : number -> string.

(** The body of [for (const detail of product.details)], on the three
    variables [revenue], [growth] and [description]. *)
Definition scanDetail (vars : number * string * string) (detail : Transform.EntityDetail)
  : number * string * string :=
  let '(revenue, growth, description) := vars in
  if typeIncludes detail "market_share" &&
     match Transform.discrete_value detail with Some _ => true | None => false end
  then
    match Transform.discrete_value detail with
    | Some x => (x, growth, description)
    | None => vars
    end
  else if typeIncludes detail "growth" &&
          match Transform.discrete_value detail with Some _ => true | None => false end
  then
    match Transform.discrete_value detail with
    | Some x => (revenue, Number_toString x ++ "%", description)
    | None => vars
    end
  else
    match Transform.text_value detail with
    | Some t =>
        if negb (t =? "") && typeIncludes detail "description"
        then (revenue, growth, t)
        else vars
    | None => vars
    end.

(** The callback of [products.map]. *)
Definition productLine (entityName : string) (productCount : nat)
  (product : Transform.RecursiveProductEntity) (index : nat) : ProductLine :=
  let '(revenue, growth, description) :=
    match Transform.details product with
    | Some ds => fold_left scanDetail ds (num 0, "0%", "")
    | None => (num 0, "0%", "")
    end in
  {| name := Transform.or_string (Transform.name_brand product)
               ("Product " ++ string_of_nat (index + 1));
     revenuePercentage :=
       if num_positive revenue then revenue
       else divide (num 100)
              (num (Z.of_nat (if Nat.eqb productCount 0 then 1 else productCount)));
     growth := growth;
     description :=
       Transform.or_string description
         (Transform.or_string (Transform.name_brand product) "Product"
          ++ " by " ++ entityName) |}.

(** [extractProducts] *)
Definition extractProducts (products : list Transform.RecursiveProductEntity)
  (entityName : string) : list ProductLine :=
  if negb (Transform.isValidArray products) then
    [{| name := entityName ++ " Main Product";
        revenuePercentage := num 100;
        growth := "0%";
        description := "Main offering by " ++ entityName |}]
  else mapi (productLine entityName (List.length products)) 0 products.

End Arithmetic.

(** ** Which detail sets which field *)

Definition has_value (detail : Transform.EntityDetail) : bool :=
  match Transform.discrete_value detail with Some _ => true | None => false end.

(** The details that set [growth]: a growth figure that is not a market
    share. *)
Definition isGrowthDetail (detail : Transform.EntityDetail) : bool :=
  negb (Transform.isMarketShareDetail detail) &&
  (typeIncludes detail "growth" && has_value detail).

(** The details that set [description]. *)
Definition isDescriptionDetail (detail : Transform.EntityDetail) : bool :=
  negb (Transform.isMarketShareDetail detail) &&
  negb (typeIncludes detail "growth" && has_value detail) &&
  (match Transform.text_value detail with
   | Some t => negb (t =? "")
   | None => false
   end && typeIncludes detail "description").

(** The last element of a list that passes a test. *)
Definition find_last {A : Type} (p : A -> bool) (l : list A) : option A :=
  find p (rev l).

Definition details_of (product : Transform.RecursiveProductEntity)
  : list Transform.EntityDetail :=
  match Transform.details product with
  | Some ds => ds
  | None => []
  end.

(** What the last detail of each kind gives, and the initial value of the
    variable when there is none. *)
Definition revenue_of (ds : list Transform.EntityDetail) : number :=
  match find_last Transform.isMarketShareDetail ds with
  | Some d => match Transform.discrete_value d with Some x => x | None => num 0 end
  | None => num 0
  end.

Definition growth_of (Number_toString : number -> string)
  (ds : list Transform.EntityDetail) : string :=
  match find_last isGrowthDetail ds with
  | Some d =>
      match Transform.discrete_value d with
      | Some x => Number_toString x ++ "%"
      | None => "0%"
      end
  | None => "0%"
  end.

Definition description_of (ds : list Transform.EntityDetail) : string :=
  match find_last isDescriptionDetail ds with
  | Some d => match Transform.text_value d with Some t => t | None => "" end
  | None => ""
  end.

(** The product line the specification above assigns to the product at
    [index]. *)
Definition line_of (divide : number -> number -> number)
  (Number_toString : number -> string) (entityName : string) (productCount : nat)
  (product : Transform.RecursiveProductEntity) (index : nat) : ProductLine :=
  let ds := details_of product in
  {| name := Transform.or_string (Transform.name_brand product)
               ("Product " ++ string_of_nat (index + 1));
     revenuePercentage :=
       if num_positive (revenue_of ds) then revenue_of ds
       else divide (num 100) (num (Z.of_nat productCount));
     growth := growth_of Number_toString ds;
     description :=
       Transform.or_string (description_of ds)
         (Transform.or_string (Transform.name_brand product) "Product"
          ++ " by " ++ entityName) |}.

Definition sampleDivide (a b : number) : number :=
  match a, b with
  | Fin x, Fin y => Fin (x / y)
  | _, _ => NaN
  end.

Definition sampleToString (x : number) : string :=
  match x with
  | Fin q => string_of_nat (Z.to_nat (Qnum q / Zpos (Qden q)))
  | _ => "NaN"
  end.

Definition sampleProduct : Transform.RecursiveProductEntity :=
  Transform.mkEntity "Widget"
    (Some [{| Transform.type_research_detail := Some "market_share_estimate";
              Transform.discrete_value := Some (num 30);
              Transform.text_value := None |};
           {| Transform.type_research_detail := Some "market_share_exact";
              Transform.discrete_value := Some (num 40);
              Transform.text_value := None |}])
    None.

End ProductLines.

(* ================================================================== *)
(** * Statements about the validator: ids and names *)
(* ================================================================== *)

(** An entity with a string [name_brand] and an [id] that is [null] or a
    string -- any string on the root entity, a UUID on a product or
    competitor. *)
Definition identified (zod : ZodLib) (root : bool) (e : value) : bool :=
  match field e "name_brand" with
  | JStr _ => true
  | _ => false
  end &&
  match field e "id" with
  | JNull => true
  | JStr s => root || is_uuid zod s
  | _ => false
  end.

(** The root entity, every product and every competitor is [identified]. *)
Definition entities_identified (zod : ZodLib) (v : value) : bool :=
  let e := field v "entity" in
  identified zod true e &&
  forallb (fun p => identified zod false p &&
                    forallb (identified zod false) (elements (field p "competitors")))
          (elements (field e "products")).
(* ================================================================== *)
(** * Basic facts: the error monad and property lists *)
(* ================================================================== *)

Lemma bind_Ok {A B : Type} (m : result A) (k : A -> result B) (b : B) :
  bind m k = Ok b -> exists a, m = Ok a /\ k a = Ok b.
Proof.
  destruct m as [a|e]; simpl; intros H; [eauto | discriminate].
Qed.

(** Inversion of a successful [bind]: [H : (x <- m ;; k) = Ok b] becomes
    [Hx : m = Ok x] and [H : k x = Ok b]. *)
Tactic Notation "bind_inv" hyp(H) "as" simple_intropattern(x) simple_intropattern(Hx) :=
  apply bind_Ok in H; destruct H as [x [Hx H]].

Lemma try_catch_default {A : Type} (body : result A) (d : A) :
  exists a, try_catch body (fun _ => Ok d) = Ok a /\ (body = Ok a \/ a = d).
Proof.
  destruct body as [a|e]; simpl; eauto.
Qed.

Lemma mapM_Forall {A B : Type} (f : A -> result B) (P : B -> Prop) :
  (forall x y, f x = Ok y -> P y) ->
  forall l l', mapM f l = Ok l' -> Forall P l'.
Proof.
  intros Hf. induction l as [|x xs IH]; simpl; intros l' H.
  - inversion H. constructor.
  - bind_inv H as y Hy.
    bind_inv H as ys Hys.
    inversion H; subst. constructor; eauto.
Qed.

Lemma mapiM_Forall {A B : Type} (f : A -> nat -> result B) (P : B -> Prop) :
  (forall x i y, f x i = Ok y -> P y) ->
  forall l i l', mapiM f i l = Ok l' -> Forall P l'.
Proof.
  intros Hf. induction l as [|x xs IH]; simpl; intros i l' H.
  - inversion H. constructor.
  - bind_inv H as y Hy.
    bind_inv H as ys Hys.
    inversion H; subst. constructor; eauto.
Qed.

Lemma typeof_string (v : value) :
  (typeof v =? "string") = true -> exists s, v = JStr s.
Proof.
  destruct v; simpl; try discriminate. eauto.
Qed.

Lemma typed_field_string (d : value) (snake camel dflt : string) (x : value) :
  typed_field d "string" snake camel (JStr dflt) = Ok x -> exists s, x = JStr s.
Proof.
  unfold typed_field. intros H.
  bind_inv H as a _.
  destruct (typeof a =? "string") eqn:Ta.
  - inversion H; subst. now apply typeof_string.
  - bind_inv H as b _.
    destruct (typeof b =? "string") eqn:Tb; inversion H; subst; eauto.
    now apply typeof_string.
Qed.

Lemma string_or_string (x : value) (dflt : string) :
  exists s, string_or x dflt = JStr s.
Proof.
  unfold string_or. destruct (typeof x =? "string") eqn:T; eauto.
  now apply typeof_string.
Qed.

Lemma map_if_array_arr (a : value) (f : value -> result value) (y : value) :
  map_if_array a f = Ok y -> exists l, y = JArr l [].
Proof.
  unfold map_if_array. destruct a; intros H; try (inversion H; eauto; fail).
  bind_inv H as l _. inversion H; eauto.
Qed.

Lemma map_if_array_Forall (a : value) (f : value -> result value) (P : value -> Prop) (l : list value) :
  (forall x y, f x = Ok y -> P y) ->
  map_if_array a f = Ok (JArr l []) -> Forall P l.
Proof.
  intros Hf. unfold map_if_array.
  destruct a; intros H; try (inversion H; constructor; fail).
  bind_inv H as l' Hl. inversion H; subst.
  eapply mapM_Forall; eauto.
Qed.

(* ================================================================== *)
(** * The shape of every repaired value *)
(* ================================================================== *)

Lemma modernCompetitor_shaped (today : string) (comp y : value) :
  modernCompetitor today comp = Ok y -> competitorShaped y.
Proof.
  unfold modernCompetitor, competitorShaped.
  destruct (not_an_object comp); intros H.
  - inversion H; eauto.
  - bind_inv H as n Hn.
    bind_inv H as ds _.
    bind_inv H as details Hd.
    apply typed_field_string in Hn. destruct Hn as [s ->].
    apply map_if_array_arr in Hd. destruct Hd as [l ->].
    inversion H; eauto.
Qed.

Lemma modernProduct_shaped (today : string) (product y : value) :
  modernProduct today product = Ok y -> productShaped y.
Proof.
  unfold modernProduct, productShaped.
  destruct (not_an_object product); intros H.
  - inversion H; eauto.
  - bind_inv H as n Hn.
    bind_inv H as ds _.
    bind_inv H as details Hd.
    bind_inv H as cs _.
    bind_inv H as competitors Hc.
    apply typed_field_string in Hn. destruct Hn as [s ->].
    apply map_if_array_arr in Hd. destruct Hd as [l ->].
    destruct (map_if_array_arr _ _ _ Hc) as [l' ->].
    inversion H; subst. right. exists s, l, l'. split; [reflexivity|].
    eapply map_if_array_Forall; [|exact Hc].
    intros x y. apply modernCompetitor_shaped.
Qed.

Lemma legacyCompetitor_shaped (comp : value) (i : nat) (y : value) :
  legacyCompetitor comp i = Ok y -> competitorShaped y.
Proof.
  unfold legacyCompetitor, competitorShaped.
  destruct (not_an_object comp); intros H.
  - inversion H; eauto.
  - bind_inv H as n _.
    destruct (string_or_string n ("Competitor " ++ string_of_nat (i + 1))) as [s Hs].
    rewrite Hs in H. inversion H; eauto.
Qed.

Lemma legacyProduct_shaped (product : value) (i : nat) (y : value) :
  legacyProduct product i = Ok y -> productShaped y.
Proof.
  unfold legacyProduct, productShaped.
  destruct (not_an_object product); intros H.
  - inversion H; eauto.
  - bind_inv H as n _.
    bind_inv H as cs _.
    bind_inv H as competitors Hc.
    destruct (string_or_string n ("Product " ++ string_of_nat (i + 1))) as [s Hs].
    rewrite Hs in H. inversion H; subst. right.
    unfold mapi_if_array in Hc.
    destruct cs; try (inversion Hc; subst; exists s, [], []; split; [reflexivity|constructor]; fail).
    bind_inv Hc as l Hl. inversion Hc; subst.
    exists s, [], l. split; [reflexivity|].
    eapply mapiM_Forall; [|exact Hl].
    intros x j z. apply legacyCompetitor_shaped.
Qed.

Lemma defaultData_shaped : repairShaped defaultData.
Proof.
  exists "Unknown Company", [], [], defaultMeta.
  repeat split; constructor.
Qed.

Lemma repairModern_shaped (today : string) (rawData entityData r : value) :
  repairModern today rawData entityData = Ok r -> repairShaped r.
Proof.
  unfold repairModern, repairShaped. intros H.
  bind_inv H as n Hn.
  bind_inv H as ds _.
  bind_inv H as details Hd.
  bind_inv H as ps _.
  bind_inv H as products Hp.
  bind_inv H as meta _.
  apply typed_field_string in Hn. destruct Hn as [s ->].
  assert (Hd' : exists l, details = JArr l []).
  { destruct ds; try (inversion Hd; eauto; fail).
    bind_inv Hd as l _. inversion Hd; eauto. }
  destruct Hd' as [l ->].
  assert (Hp' : exists l', products = JArr l' [] /\ Forall productShaped l').
  { destruct ps; try (inversion Hp; eauto; fail).
    bind_inv Hp as l' Hl'. inversion Hp; subst.
    eexists; split; [reflexivity|].
    eapply mapM_Forall; [|exact Hl']. intros x y. apply modernProduct_shaped. }
  destruct Hp' as [l' [-> Hl']].
  inversion H; subst. do 4 eexists. split; [reflexivity|]. split; [exact Hl'|].
  destruct (truthy meta && (typeof meta =? "object")) eqn:E; [exact E | reflexivity].
Qed.

Lemma repairLegacy_shaped (rawData products r : value) :
  repairLegacy rawData products = Ok r -> repairShaped r.
Proof.
  unfold repairLegacy, repairShaped. intros H.
  bind_inv H as company _.
  bind_inv H as n _.
  bind_inv H as ps Hp.
  destruct (string_or_string n "Unknown Company") as [s Hs]. rewrite Hs in H.
  assert (Hp' : exists l', ps = JArr l' [] /\ Forall productShaped l').
  { destruct products; try (inversion Hp; eauto; fail).
    bind_inv Hp as l' Hl'. inversion Hp; subst.
    eexists; split; [reflexivity|].
    eapply mapiM_Forall; [|exact Hl']. intros x i y. apply legacyProduct_shaped. }
  destruct Hp' as [l' [-> Hl']].
  inversion H; subst. do 4 eexists. split; [reflexivity|]. split; [exact Hl'|reflexivity].
Qed.

Lemma repairAnalysisData_unfold (today : string) (data : value) (debug : bool) :
  repairAnalysisData today data debug =
  if not_an_object data then Ok defaultData
  else try_catch (repairBody today data) (fun _ => Ok defaultData).
Proof. reflexivity. Qed.

Lemma repairBody_shaped (today : string) (rawData r : value) :
  repairBody today rawData = Ok r -> repairShaped r.
Proof.
  unfold repairBody. intros H.
  bind_inv H as entity _.
  destruct (truthy entity && (typeof entity =? "object")).
  - eapply repairModern_shaped; eauto.
  - bind_inv H as ln _.
    bind_inv H as products _.
    destruct (truthy ln && isArray products).
    + eapply repairLegacy_shaped; eauto.
    + inversion H. apply defaultData_shaped.
Qed.

(** [repairAnalysisData] returns normally on every input, and what it
    returns has the repaired shape. *)
Lemma repairAnalysisData_total (today : string) (data : value) (debug : bool) :
  exists r, repairAnalysisData today data debug = Ok r /\ repairShaped r.
Proof.
  rewrite repairAnalysisData_unfold.
  destruct (not_an_object data).
  - eexists; split; [reflexivity | apply defaultData_shaped].
  - destruct (try_catch_default (repairBody today data) defaultData) as [a [Ha [Hb | ->]]].
    + exists a; split; [exact Ha | eapply repairBody_shaped; eauto].
    + eexists; split; [exact Ha | apply defaultData_shaped].
Qed.

(* ================================================================== *)
(** * C1: totality of repair *)
(* ================================================================== *)

Lemma or_else_Ok (a b : result value) (x : value) :
  a ||| b = Ok x -> (a = Ok x /\ truthy x = true) \/ b = Ok x.
Proof.
  unfold or_else. destruct a as [y|e]; simpl; [|discriminate].
  destruct (truthy y) eqn:T; intros H; [left | right; exact H].
  inversion H; subst; auto.
Qed.

Lemma or_else_default_truthy (a : result value) (d x : value) :
  truthy d = true -> a ||| Ok d = Ok x -> truthy x = true.
Proof.
  intros Hd H. apply or_else_Ok in H. destruct H as [[_ H] | H]; [exact H|].
  inversion H; subst; exact Hd.
Qed.

Lemma string_or_truthy (x : value) (dflt s : string) :
  truthy x = true -> dflt <> "" -> string_or x dflt = JStr s -> s <> "".
Proof.
  unfold string_or. intros Hx Hd.
  destruct (typeof x =? "string") eqn:T.
  - intros ->. simpl in Hx. intros ->. discriminate.
  - intros H; inversion H; subst; exact Hd.
Qed.

Lemma repairLegacy_name (rawData products r : value) (name : string) :
  repairLegacy rawData products = Ok r ->
  get2 r "entity" "name_brand" = Ok (JStr name) -> name <> "".
Proof.
  unfold repairLegacy. intros H.
  bind_inv H as company _.
  bind_inv H as n Hn.
  bind_inv H as ps _.
  inversion H; subst. cbn. intros E. inversion E as [E'].
  apply or_else_default_truthy in Hn; [|reflexivity].
  eapply string_or_truthy; eauto. discriminate.
Qed.

Lemma typed_field_obj (ps : props) (ty snake camel : string) (dflt : value) :
  typed_field (JObj ps) ty snake camel dflt =
  Ok (if typeof (own snake ps) =? ty then own snake ps
      else if typeof (own camel ps) =? ty then own camel ps else dflt).
Proof.
  unfold typed_field. simpl.
  destruct (typeof (own snake ps) =? ty); [reflexivity|].
  simpl. destruct (typeof (own camel ps) =? ty); reflexivity.
Qed.

Lemma typed_field_arr (xs : list value) (ps : props) (ty snake camel : string) (dflt : value) :
  typed_field (JArr xs ps) ty snake camel dflt =
  Ok (if typeof (own snake ps) =? ty then own snake ps
      else if typeof (own camel ps) =? ty then own camel ps else dflt).
Proof.
  unfold typed_field. simpl.
  destruct (typeof (own snake ps) =? ty); [reflexivity|].
  simpl. destruct (typeof (own camel ps) =? ty); reflexivity.
Qed.

Lemma name_of_props (es : props) (name : string) :
  (if typeof (own "name_brand" es) =? "string" then own "name_brand" es
   else if typeof (own "nameBrand" es) =? "string" then own "nameBrand" es
        else JStr "Unknown Company") = JStr name ->
  match own "name_brand" es with
  | JStr s => s =? ""
  | _ => match own "nameBrand" es with
         | JStr s => s =? ""
         | _ => false
         end
  end = false ->
  name <> "".
Proof.
  destruct (own "name_brand" es) eqn:E1; simpl;
    try (destruct (own "nameBrand" es) eqn:E2; simpl; intros H Hn; inversion H; subst;
         try discriminate; intros ->; discriminate).
Qed.

Lemma repairModern_name (today : string) (rawData entity r : value) (name : string) :
  get rawData "entity" = Ok entity ->
  truthy entity && (typeof entity =? "object") = true ->
  repairModern today rawData entity = Ok r ->
  get2 r "entity" "name_brand" = Ok (JStr name) ->
  empty_entity_name rawData = false -> name <> "".
Proof.
  intros Hg He H.
  unfold repairModern in H.
  bind_inv H as n Hn.
  bind_inv H as ds _.
  bind_inv H as details _.
  bind_inv H as ps _.
  bind_inv H as products _.
  bind_inv H as meta _.
  inversion H; subst. cbn. intros E; inversion E; subst. clear E H.
  unfold empty_entity_name.
  destruct rawData as [| | | | |xs rs|rs]; simpl in Hg; inversion Hg; subst;
    simpl in He; try discriminate He;
    destruct (own "entity" rs) as [| | | | |ys es|es]; simpl in He;
    rewrite ?andb_false_r in He; try discriminate He;
    (rewrite typed_field_arr in Hn || rewrite typed_field_obj in Hn);
    inversion Hn as [Hn']; apply name_of_props; exact Hn'.
Qed.

Lemma repairBody_name (today : string) (rawData r : value) (name : string) :
  repairBody today rawData = Ok r ->
  get2 r "entity" "name_brand" = Ok (JStr name) ->
  empty_entity_name rawData = false -> name <> "".
Proof.
  unfold repairBody. intros H.
  bind_inv H as entity Hg.
  destruct (truthy entity && (typeof entity =? "object")) eqn:E.
  - eapply repairModern_name; eauto.
  - bind_inv H as ln _.
    bind_inv H as products _.
    destruct (truthy ln && isArray products).
    + intros Hn _. eapply repairLegacy_name; eauto.
    + inversion H; subst. cbn. intros Hn _. inversion Hn. discriminate.
Qed.

(** C1 (as amended).  For every input value -- null, undefined, numbers,
    strings, arrays, the empty object, malformed objects --
    [repairAnalysisData] returns normally (it never throws), and in the
    object it returns [entity.name_brand] is a string and [entity.products]
    is an array.  The name is non-empty unless Case 1 copies an empty
    [entity.name_brand] (or [entity.nameBrand]) from the input. *)
Theorem repairAnalysisData_total_string_name :
  forall (today : string) (v : value) (debug : bool),
  exists r name products,
    repairAnalysisData today v debug = Ok r /\
    get2 r "entity" "name_brand" = Ok (JStr name) /\
    get2 r "entity" "products" = Ok (JArr products []) /\
    (empty_entity_name v = false -> name <> "").
Proof.
  intros today v debug.
  rewrite repairAnalysisData_unfold.
  destruct (not_an_object v) eqn:Hv.
  - exists defaultData, "Unknown Company", []. repeat split. discriminate.
  - destruct (repairBody today v) as [r|e] eqn:Hb; simpl.
    + destruct (repairBody_shaped _ _ _ Hb) as [n [ds [ps [m [-> _]]]]].
      exists (JObj [("entity", JObj [("id", JNull); ("name_brand", JStr n);
                                     ("details", JArr ds []); ("products", JArr ps [])]);
                    ("_meta", m)]), n, ps.
      repeat split. intros He.
      eapply repairBody_name; [exact Hb | reflexivity | exact He].
    + exists defaultData, "Unknown Company", []. repeat split. discriminate.
Qed.

(** C1, counterexample: on [{ entity: { name_brand: "" } }] the repaired
    name is the empty string, so the property with "non-empty" fails. *)
Lemma repair_empty_name_counterexample : ~ repair_total_nonempty_name.
Proof.
  intros H.
  destruct (H "2026-11-02" (JObj [("entity", JObj [("name_brand", JStr "")])]) false)
    as [r [name [products [ps [Hr [Hn [Hne _]]]]]]].
  cbv in Hr. inversion Hr; subst. cbv in Hn. inversion Hn; subst.
  apply Hne. reflexivity.
Qed.

(* ================================================================== *)
(** * C3: transport errors *)
(* ================================================================== *)

Lemma getBasicCompanyInfo_failure (companyName : string)
  (options : CompanyAnalysisOptions) (e : exn) :
  getBasicCompanyInfo companyName options (Throw e) =
  Ok {| company_name := JStr companyName; main_products := [];
        main_competitors := [];
        cost := {| totalTokens := zero; costUSD := zero |} |}.
Proof. reflexivity. Qed.

(** What the multi strategy assembles when the basic-info call failed. *)
Lemma processMultiStepAnalysis_failure (today companyName : string)
  (options : CompanyAnalysisOptions) (e : exn) :
  processMultiStepAnalysis today companyName options (Throw e) =
  Ok (JObj [("entity", JObj [("id", JNull); ("name_brand", JStr companyName);
                             ("products", JArr [] []); ("details", JArr [] [])]);
            ("_meta", defaultMeta)]).
Proof. reflexivity. Qed.

Lemma processSingleStepAnalysis_failure (companyName : string)
  (options : CompanyAnalysisOptions) (e : exn) :
  processSingleStepAnalysis companyName options (Throw e) = Throw e.
Proof. reflexivity. Qed.

(** C3 (as amended).  Under the single strategy (also when no strategy is
    given) an exception raised by the outbound LLM call reaches the caller
    of [processCompanyAnalysis] unchanged, at every processing level.  Under
    the multi strategy the exception of the basic-info call is caught by
    [getBasicCompanyInfo], which substitutes defaults, and the request
    returns a result whose company is the requested name with no
    products. *)
Theorem transport_error_single_propagates_multi_defaults :
  forall (zod : ZodLib) (today companyName : string)
         (dbg skip : option bool) (level : option string) (e : exn),
    processCompanyAnalysis zod today companyName
      {| debug := dbg; skipValidation := skip; sourceType := level;
         strategy := Some single |} (Throw e) = Throw e /\
    processCompanyAnalysis zod today companyName
      {| debug := dbg; skipValidation := skip; sourceType := level;
         strategy := None |} (Throw e) = Throw e /\
    exists r,
      processCompanyAnalysis zod today companyName
        {| debug := dbg; skipValidation := skip; sourceType := level;
           strategy := Some multi |} (Throw e) = Ok r /\
      get2 r "entity" "name_brand" = Ok (JStr companyName) /\
      get2 r "entity" "products" = Ok (JArr [] []).
Proof.
  intros. split; [reflexivity|]. split; [reflexivity|].
  unfold processCompanyAnalysis.
  cbn [strategy sourceType debug].
  rewrite processMultiStepAnalysis_failure.
  set (st := match level with
             | Some s => if s =? "" then "transformedOpenAI" else s
             | None => "transformedOpenAI"
             end).
  cbn [bind try_catch].
  destruct (st =? "rawOpenAI").
  { eexists; split; [reflexivity|]. split; reflexivity. }
  destruct (st =? "validatedOpenAI").
  { eexists; split; [reflexivity|]. split; reflexivity. }
  destruct (st =? "repairedOpenAI").
  { eexists; split; [reflexivity|]. split; reflexivity. }
  unfold finalizeAnalysisData. cbn [skipValidation].
  destruct (flag skip); eexists; (split; [reflexivity|]); split; reflexivity.
Qed.

(** C3, counterexample: under the multi strategy a failing LLM call does
    not fail the request. *)
Lemma multi_swallows_transport_error_counterexample : ~ transport_errors_propagate.
Proof.
  intros H.
  destruct (H sampleZod "2026-11-02" "Acme" (optionsFor "rawOpenAI" multi)
              (Error "network failure")) as [e' He'].
  discriminate He'.
Qed.

(* ================================================================== *)
(** * C9: the product skeletons of the multi strategy *)
(* ================================================================== *)

Lemma getBasicCompanyInfo_returns (companyName : string)
  (options : CompanyAnalysisOptions) (llm : LLMOutcome) :
  exists info, getBasicCompanyInfo companyName options llm = Ok info.
Proof.
  unfold getBasicCompanyInfo.
  match goal with |- exists _, try_catch ?b _ = _ => destruct b end; simpl; eauto.
Qed.

Lemma push_all {A B : Type} (f : A -> B) (l : list A) (pushed : list B) :
  fold_left (fun acc x => (acc ++ [f x])%list) l pushed = (pushed ++ map f l)%list.
Proof.
  revert pushed. induction l as [|x xs IH]; intros pushed; simpl.
  - now rewrite app_nil_r.
  - rewrite IH. now rewrite <- app_assoc.
Qed.

Lemma skeletonOf_convertible (today companyName : string) (info : BasicInfo)
  (productName : value) :
  convertible productName = true ->
  productSkeleton today companyName info productName =
    Ok (skeletonOf today companyName info productName) /\
  skeletonOf today companyName info productName =
    JObj [("id", JNull);
          ("name_brand", productName);
          ("details",
            JArr [JObj [("type_research_detail", JStr "market_share_estimate");
                        ("data_confidence", JStr "high");
                        ("source_type", JStr "analyst_estimate");
                        ("as_of_date", JStr today);
                        ("text_value", JStr ("Product offered by " ++ companyName))]] []);
          ("competitors",
            JArr (map (fun competitor =>
                         JObj [("id", JNull); ("name_brand", competitor);
                               ("details", JArr [] [])])
                      (main_competitors info)) [])].
Proof.
  unfold convertible, skeletonOf, productSkeleton.
  destruct (ToString productName); [|discriminate]. intros _. split; reflexivity.
Qed.

Lemma addProductSkeleton_Throw (today companyName : string) (info : BasicInfo)
  (l : list value) (e : exn) :
  fold_left (addProductSkeleton today companyName info) l (Throw e) = Throw e.
Proof. induction l as [|x l IH]; [reflexivity | exact IH]. Qed.

(** The loop invariant of the [for ... of]: a product name without a string
    conversion ends the loop with its [TypeError]; otherwise every name has
    been pushed, in order. *)
Lemma addProductSkeleton_fold (today companyName : string) (info : BasicInfo)
  (l : list value) :
  forall pushed,
    match fold_left (addProductSkeleton today companyName info) l (Ok pushed) with
    | Ok ps =>
        forallb convertible l = true /\
        ps = (pushed ++ map (skeletonOf today companyName info) l)%list
    | Throw e =>
        forallb convertible l = false /\
        exists productName, In productName l /\ ToString productName = Throw e
    end.
Proof.
  induction l as [|x l IH]; intros pushed; cbn [fold_left forallb map].
  - split; [reflexivity | now rewrite app_nil_r].
  - unfold addProductSkeleton at 2. cbn [bind].
    destruct (convertible x) eqn:Ex.
    + destruct (skeletonOf_convertible today companyName info x Ex) as [-> _].
      specialize (IH (pushed ++ [skeletonOf today companyName info x])%list).
      destruct (fold_left _ l _) as [ps|e]; cbn [andb].
      * destruct IH as [IH1 ->]. split; [exact IH1|]. now rewrite <- app_assoc.
      * destruct IH as [IH1 [n [Hin Hn]]]. split; [exact IH1|].
        exists n. split; [right; exact Hin | exact Hn].
    + unfold productSkeleton. unfold convertible in Ex.
      destruct (ToString x) as [u|e] eqn:Et; [discriminate|]. cbn [bind].
      rewrite addProductSkeleton_Throw. split; [reflexivity|].
      exists x. split; [left; reflexivity | exact Et].
Qed.

Lemma processMultiStepAnalysis_products (today companyName : string)
  (options : CompanyAnalysisOptions) (llm : LLMOutcome) (info : BasicInfo) :
  getBasicCompanyInfo companyName options llm = Ok info ->
  match processMultiStepAnalysis today companyName options llm with
  | Ok r =>
      forallb convertible (main_products info) = true /\
      r = JObj [("entity", JObj [("id", JNull);
                                 ("name_brand", company_name info);
                                 ("products",
                                   JArr (map (skeletonOf today companyName info)
                                             (main_products info)) []);
                                 ("details", JArr [] [])]);
                ("_meta", JObj [("cost", cost_object (cost info))])]
  | Throw e =>
      forallb convertible (main_products info) = false /\
      exists productName,
        In productName (main_products info) /\ ToString productName = Throw e
  end.
Proof.
  intros Hi. unfold processMultiStepAnalysis. rewrite Hi. cbn [bind].
  destruct (main_products info) as [|p ps] eqn:E; [split; reflexivity|].
  cbn [List.length Nat.ltb Nat.leb].
  pose proof (addProductSkeleton_fold today companyName info (p :: ps) []) as H.
  destruct (fold_left _ (p :: ps) (Ok [])) as [l|e]; cbn [bind].
  - destruct H as [H1 ->]. split; [exact H1 | reflexivity].
  - exact H.
Qed.

(** C9.  In the multi strategy every assembled product skeleton carries the
    same competitors array, which has one entry per element of the
    basic-info call's [main_competitors], in that order, each with
    [id = null] and [details = []]; a result has one product per element of
    [main_products], in order, and only the product carries the synthetic
    [market_share_estimate] detail.  The generation returns exactly when
    every product name has a string conversion; otherwise it raises the
    [TypeError] of a name that has none, and no result leaves a product
    out. *)
Theorem multi_products_share_competitor_list :
  forall (today companyName : string) (options : CompanyAnalysisOptions)
         (llm : LLMOutcome),
  exists info cs,
    getBasicCompanyInfo companyName options llm = Ok info /\
    Forall2 (fun c competitor =>
               get c "name_brand" = Ok competitor /\
               get c "id" = Ok JNull /\
               get c "details" = Ok (JArr [] []))
            cs (main_competitors info) /\
    match processMultiStepAnalysis today companyName options llm with
    | Ok r =>
        forallb convertible (main_products info) = true /\
        exists products,
          get2 r "entity" "products" = Ok (JArr products []) /\
          Forall2 (fun p productName =>
                     get p "name_brand" = Ok productName /\
                     get p "id" = Ok JNull /\
                     get p "competitors" = Ok (JArr cs []) /\
                     exists d, get p "details" = Ok (JArr [d] []) /\
                               get d "type_research_detail" =
                                 Ok (JStr "market_share_estimate"))
                  products (main_products info)
    | Throw e =>
        forallb convertible (main_products info) = false /\
        exists productName,
          In productName (main_products info) /\ ToString productName = Throw e
    end.
Proof.
  intros today companyName options llm.
  destruct (getBasicCompanyInfo_returns companyName options llm) as [info Hi].
  exists info.
  exists (map (fun competitor =>
                 JObj [("id", JNull); ("name_brand", competitor);
                       ("details", JArr [] [])]) (main_competitors info)).
  split; [exact Hi|].
  split.
  { induction (main_competitors info) as [|c l IH]; simpl; constructor; auto. }
  pose proof (processMultiStepAnalysis_products today companyName options llm info Hi) as H.
  destruct (processMultiStepAnalysis today companyName options llm) as [r|e]; [|exact H].
  destruct H as [Hc ->]. split; [exact Hc|].
  eexists. split; [reflexivity|].
  rewrite forallb_forall in Hc.
  induction (main_products info) as [|p l IH]; cbn [map]; constructor.
  - destruct (skeletonOf_convertible today companyName info p) as [_ ->];
      [apply Hc; left; reflexivity|].
    repeat split. eexists; split; reflexivity.
  - apply IH. intros x Hx. apply Hc. right. exact Hx.
Qed.

(* ================================================================== *)
(** * C10: first occurrence wins in [extractCompetitors] *)
(* ================================================================== *)

Section ExtractCompetitors.
Import Transform.

Lemma map_has_In (k : string) (m : CompetitorMap) :
  map_has k m = true <-> In k (map fst m).
Proof.
  unfold map_has. rewrite existsb_exists. split.
  - intros [[k' c] [Hin Hk]]. simpl in Hk. apply String.eqb_eq in Hk. subst.
    apply in_map_iff. exists (k, c). auto.
  - intros Hin. apply in_map_iff in Hin. destruct Hin as [[k' c] [Hk Hin]].
    simpl in Hk. subst. exists (k, c). split; [exact Hin|]. apply String.eqb_refl.
Qed.

Lemma map_set_fresh (k : string) (c : Competitor) (m : CompetitorMap) :
  map_has k m = false -> map_set k c m = (m ++ [(k, c)])%list.
Proof.
  induction m as [|[k' c'] rest IH]; simpl; intros H; [reflexivity|].
  unfold map_has in H. simpl in H. apply orb_false_iff in H. destruct H as [Hk Hrest].
  rewrite Hk. f_equal. apply IH. exact Hrest.
Qed.

Lemma addCompetitor_entry (product competitor : RecursiveProductEntity) (m : CompetitorMap) :
  addCompetitor product m competitor =
  if map_has (competitorName competitor) m then m
  else (m ++ [(competitorName competitor, entryOf (product, competitor))])%list.
Proof.
  unfold addCompetitor. fold (competitorName competitor).
  destruct (map_has (competitorName competitor) m) eqn:E; [reflexivity|].
  now rewrite map_set_fresh.
Qed.

Lemma find_app_l {A : Type} (f : A -> bool) (l1 l2 : list A) (x : A) :
  find f l1 = Some x -> find f (l1 ++ l2) = Some x.
Proof.
  induction l1 as [|y ys IH]; simpl; [discriminate|].
  destruct (f y); auto.
Qed.

Lemma find_app_r {A : Type} (f : A -> bool) (l1 l2 : list A) :
  find f l1 = None -> find f (l1 ++ l2) = find f l2.
Proof.
  induction l1 as [|y ys IH]; simpl; [reflexivity|].
  destruct (f y); [discriminate | auto].
Qed.

Lemma competitorMapInv_step (m : CompetitorMap) seen (p c : RecursiveProductEntity) :
  competitorMapInv m seen ->
  competitorMapInv (addCompetitor p m c) (seen ++ [(p, c)]).
Proof.
  intros [Hnd [Hent Hseen]]. rewrite addCompetitor_entry.
  destruct (map_has (competitorName c) m) eqn:Hhas.
  - split; [exact Hnd|]. split.
    + intros k e Hin. destruct (Hent k e Hin) as [pc [Hf He]].
      exists pc. split; [now apply find_app_l | exact He].
    + intros pc Hin. apply in_app_or in Hin. destruct Hin as [Hin | [<- | []]]; auto.
  - assert (Hfresh : find (sameName (competitorName c)) seen = None).
    { destruct (find (sameName (competitorName c)) seen) as [pc|] eqn:Hf; [|reflexivity].
      apply find_some in Hf. destruct Hf as [Hin Hn].
      unfold sameName in Hn. apply String.eqb_eq in Hn.
      apply Hseen in Hin. rewrite Hn in Hin. congruence. }
    split; [|split].
    + rewrite map_app. simpl.
      apply NoDup_app; [exact Hnd | repeat constructor; intros [] | ].
      intros k Hk [<- | []]. apply map_has_In in Hk. congruence.
    + intros k e Hin. apply in_app_or in Hin. destruct Hin as [Hin | [Heq | []]].
      * destruct (Hent k e Hin) as [pc [Hf He]].
        exists pc. split; [now apply find_app_l | exact He].
      * inversion Heq; subst. exists (p, c). split; [|split; reflexivity].
        rewrite find_app_r by exact Hfresh. simpl. unfold sameName. simpl.
        now rewrite String.eqb_refl.
    + intros pc Hin. apply map_has_In. rewrite map_app. apply in_or_app.
      apply in_app_or in Hin. destruct Hin as [Hin | [<- | []]].
      * left. apply map_has_In. auto.
      * right. simpl. auto.
Qed.

Lemma competitorMapInv_inner (p : RecursiveProductEntity) (cs : list RecursiveProductEntity) :
  forall m seen,
  competitorMapInv m seen ->
  competitorMapInv (fold_left (addCompetitor p) cs m) (seen ++ map (pair p) cs).
Proof.
  induction cs as [|c rest IH]; intros m seen H; simpl.
  - now rewrite app_nil_r.
  - replace (seen ++ (p, c) :: map (pair p) rest)%list
      with ((seen ++ [(p, c)]) ++ map (pair p) rest)%list
      by (rewrite <- app_assoc; reflexivity).
    apply IH. now apply competitorMapInv_step.
Qed.

Lemma competitorMapInv_outer (products : list RecursiveProductEntity) :
  forall m seen,
  competitorMapInv m seen ->
  competitorMapInv (fold_left addProduct products m) (seen ++ occurrences products).
Proof.
  induction products as [|p rest IH]; intros m seen H; simpl.
  - now rewrite app_nil_r.
  - rewrite app_assoc. apply IH. unfold addProduct.
    destruct (competitors p) as [cs|]; [|now rewrite app_nil_r].
    destruct cs as [|c cs']; [simpl; now rewrite app_nil_r|].
    cbn [List.length Nat.eqb]. now apply competitorMapInv_inner.
Qed.

Lemma extractCompetitors_fold (products : list RecursiveProductEntity) :
  extractCompetitors products = map snd (fold_left addProduct products []).
Proof.
  unfold extractCompetitors, map_values. destruct products; reflexivity.
Qed.

Lemma marketShareOf_first (c : RecursiveProductEntity) :
  marketShareOf c = firstMarketShare c.
Proof.
  unfold marketShareOf, firstMarketShare.
  destruct (details c) as [ds|]; [|reflexivity].
  assert (E : forall d, isMarketShareDetail d =
                        match type_research_detail d, discrete_value d with
                        | Some t, Some _ => includes t "market_share"
                        | _, _ => false
                        end).
  { intros d. unfold isMarketShareDetail.
    destruct (type_research_detail d), (discrete_value d); simpl;
      rewrite ?andb_true_r, ?andb_false_r; reflexivity. }
  induction ds as [|d rest IH]; simpl; [reflexivity|].
  rewrite E. destruct (type_research_detail d), (discrete_value d); auto.
  destruct (includes s "market_share"); auto.
Qed.

End ExtractCompetitors.

(** C10.  [extractCompetitors] keeps each competitor name once; every name
    listed under some product is kept; and the entry kept for a name is
    built from its first occurrence in iteration order (products in order,
    competitors of a product in order): the name as filed, the market share
    of that occurrence's first [market_share] detail with a defined
    [discrete_value] (else 5), and the product of that occurrence -- the
    details of later occurrences play no part. *)
Theorem extractCompetitors_first_occurrence_wins :
  forall (products : list Transform.RecursiveProductEntity),
    NoDup (map Transform.name (Transform.extractCompetitors products)) /\
    (forall p c, In (p, c) (occurrences products) ->
       In (competitorName c) (map Transform.name (Transform.extractCompetitors products))) /\
    (forall e, In e (Transform.extractCompetitors products) ->
       exists p c,
         find (sameName (Transform.name e)) (occurrences products) = Some (p, c) /\
         Transform.name e = competitorName c /\
         Transform.marketShare e = firstMarketShare c /\
         Transform.primaryCompetition e =
           "Competitor for " ++
           Transform.or_string (Transform.name_brand p) "this product").
Proof.
  intros products. rewrite extractCompetitors_fold.
  assert (H0 : competitorMapInv [] []).
  { split; [constructor|]. split; [intros k e []| intros pc []]. }
  pose proof (competitorMapInv_outer products [] [] H0) as [Hnd [Hent Hseen]].
  simpl in Hent, Hseen.
  set (m := fold_left Transform.addProduct products []) in *.
  assert (Hnames : map Transform.name (map snd m) = map fst m).
  { rewrite map_map. apply map_ext_in. intros [k e] Hin.
    destruct (Hent k e Hin) as [pc [_ [-> ->]]]. reflexivity. }
  split; [rewrite Hnames; exact Hnd|]. split.
  - intros p c Hin. rewrite Hnames. apply map_has_In. apply (Hseen (p, c) Hin).
  - intros e Hin. apply in_map_iff in Hin. destruct Hin as [[k e'] [He Hin]].
    simpl in He. subst e'.
    destruct (Hent k e Hin) as [[p c] [Hf [-> Hk]]].
    exists p, c. simpl in *. subst k.
    repeat split; auto. apply marketShareOf_first.
Qed.

(* ================================================================== *)
(** * C8: null ids *)
(* ================================================================== *)

Lemma own_set_key_other (k k' : string) (v : value) (ps : props) :
  k <> k' -> own k (set_key k' v ps) = own k ps.
Proof.
  intros Hk. unfold own.
  induction ps as [|[k0 v0] rest IH]; simpl.
  - destruct (String.eqb_spec k' k); [congruence | reflexivity].
  - destruct (String.eqb_spec k0 k').
    + subst k0. simpl. destruct (String.eqb_spec k' k); [congruence | reflexivity].
    + simpl. destruct (k0 =? k); [reflexivity | exact IH].
Qed.

Lemma own_set_key_same (k : string) (v : value) (ps : props) :
  own k (set_key k v ps) = v.
Proof.
  unfold own.
  induction ps as [|[k0 v0] rest IH]; simpl.
  - now rewrite String.eqb_refl.
  - destruct (String.eqb_spec k0 k).
    + simpl. now rewrite String.eqb_refl.
    + simpl. destruct (String.eqb_spec k0 k); [congruence | exact IH].
Qed.

Lemma ids_null_set_meta (m : value) (ps : props) :
  ids_null (JObj (set_key "_meta" m ps)) = ids_null (JObj ps).
Proof.
  unfold ids_null, field. simpl.
  rewrite own_set_key_other by discriminate. reflexivity.
Qed.

Lemma competitorShaped_id (c : value) : competitorShaped c -> id_is_null c = true.
Proof. intros [n [ds ->]]. reflexivity. Qed.

Lemma productShaped_ids (p : value) :
  productShaped p ->
  id_is_null p && forallb id_is_null (elements (field p "competitors")) = true.
Proof.
  intros [[n ->] | [n [ds [cs [-> Hcs]]]]]; [reflexivity|].
  cbn. apply forallb_forall. intros c Hc.
  apply competitorShaped_id. rewrite Forall_forall in Hcs. auto.
Qed.

Lemma repairShaped_ids_null (r : value) : repairShaped r -> ids_null r = true.
Proof.
  intros [n [ds [ps [m [-> [Hps _]]]]]]. cbn.
  apply forallb_forall. intros p Hp.
  apply productShaped_ids. rewrite Forall_forall in Hps. auto.
Qed.

(** Every value [repairAnalysisData] returns has null ids throughout. *)
Lemma repairAnalysisData_ids_null (today : string) (v : value) (debug : bool) (r : value) :
  repairAnalysisData today v debug = Ok r -> ids_null r = true.
Proof.
  intros H. destruct (repairAnalysisData_total today v debug) as [r' [Hr' Hs]].
  rewrite H in Hr'. inversion Hr'; subst. now apply repairShaped_ids_null.
Qed.

Lemma repairShaped_object (r : value) : repairShaped r -> exists ps, r = JObj ps.
Proof. intros [n [ds [ps [m [-> _]]]]]. eauto. Qed.

Lemma repairShaped_meta (r : value) :
  repairShaped r ->
  exists m, get r "_meta" = Ok m /\ truthy m = true /\
            ((exists ps, m = JObj ps) \/ (exists xs ps, m = JArr xs ps)).
Proof.
  intros [n [ds [ps [m [-> [_ Hm]]]]]]. exists m. split; [reflexivity|].
  apply andb_true_iff in Hm. destruct Hm as [Ht Ho]. split; [exact Ht|].
  destruct m; try discriminate; eauto.
Qed.

Lemma finalizeAnalysisData_repaired_ids (today : string) (a : value)
  (options : CompanyAnalysisOptions) (r : value) :
  flag (skipValidation options) = false ->
  finalizeAnalysisData today a options = Ok r -> ids_null r = true.
Proof.
  intros Hskip. unfold finalizeAnalysisData. rewrite Hskip. cbn [negb].
  intros H. bind_inv H as rd Hrd.
  destruct (repairAnalysisData_total today a (flag (debug options))) as [rd' [Hrd' Hs]].
  rewrite Hrd in Hrd'. inversion Hrd'; subst rd'.
  pose proof (repairShaped_ids_null _ Hs) as Hids.
  destruct (repairShaped_object _ Hs) as [ps ->].
  bind_inv H as m Hm.
  destruct (truthy m).
  - bind_inv H as m' _.
    simpl in H. inversion H; subst. now rewrite ids_null_set_meta.
  - inversion H; subst. exact Hids.
Qed.

Lemma repairedOpenAI_invalid_ids (zod : ZodLib) (today : string) (a : value)
  (dbg : bool) (r : value) :
  isValid (validate.analysisData zod a) = false ->
  repairedOpenAI zod today a dbg = Ok r -> ids_null r = true.
Proof.
  intros Hv. unfold repairedOpenAI. rewrite Hv. intros H.
  bind_inv H as m _.
  bind_inv H as rd Hrd.
  destruct (repairAnalysisData_total today a dbg) as [rd' [Hrd' Hs]].
  rewrite Hrd in Hrd'. inversion Hrd'; subst rd'.
  pose proof (repairShaped_ids_null _ Hs) as Hids.
  destruct (repairShaped_object _ Hs) as [ps ->].
  inversion H; subst. simpl. now rewrite ids_null_set_meta.
Qed.

Lemma multi_ids_null (today companyName : string) (options : CompanyAnalysisOptions)
  (llm : LLMOutcome) (a : value) :
  processMultiStepAnalysis today companyName options llm = Ok a ->
  ids_null a = true /\ exists ps, a = JObj ps.
Proof.
  destruct (getBasicCompanyInfo_returns companyName options llm) as [info Hi].
  pose proof (processMultiStepAnalysis_products today companyName options llm info Hi) as Hm.
  intros H. rewrite H in Hm. destruct Hm as [Hc ->]. split; [|eauto].
  rewrite forallb_forall in Hc.
  cbn. apply forallb_forall. intros p Hp.
  apply in_map_iff in Hp. destruct Hp as [pn [<- Hpn]].
  destruct (skeletonOf_convertible today companyName info pn (Hc pn Hpn)) as [_ ->].
  cbn. apply forallb_forall. intros c Hin.
  apply in_map_iff in Hin. destruct Hin as [cn [<- _]]. reflexivity.
Qed.

Lemma processCompanyAnalysis_unfold (zod : ZodLib) (today companyName : string)
  (options : CompanyAnalysisOptions) (llm : LLMOutcome) :
  processCompanyAnalysis zod today companyName options llm =
  a <- generate today companyName options llm ;;
  if level_of options =? "rawOpenAI" then Ok a
  else if level_of options =? "validatedOpenAI" then validatedOpenAI zod a
  else if level_of options =? "repairedOpenAI" then
    repairedOpenAI zod today a (flag (debug options))
  else finalizeAnalysisData today a options.
Proof.
  unfold processCompanyAnalysis, generate, level_of.
  destruct (strategy options) as [[|]|];
    match goal with |- try_catch ?b _ = _ => destruct b end; reflexivity.
Qed.

(** C8 (as amended).  A pipeline result has [id = null] on the root entity,
    on every product and on every competitor whenever it was produced under
    the multi strategy (at any processing level), or at the default
    [transformedOpenAI] level without [skipValidation], or at the
    [repairedOpenAI] level after the validator rejected the generated
    result: the multi assembly and [repairAnalysisData] write [id: null]
    everywhere. *)
Theorem pipeline_ids_null_when_assembled_or_repaired :
  forall (zod : ZodLib) (today companyName : string)
         (options : CompanyAnalysisOptions) (llm : LLMOutcome) (r : value),
    processCompanyAnalysis zod today companyName options llm = Ok r ->
    strategy options = Some multi \/
    repairs_unconditionally options = true \/
    (level_of options = "repairedOpenAI" /\
     exists a, generate today companyName options llm = Ok a /\
               isValid (validate.analysisData zod a) = false) ->
    ids_null r = true.
Proof.
  intros zod today companyName options llm r H Hcase.
  rewrite processCompanyAnalysis_unfold in H.
  bind_inv H as a Ha.
  destruct Hcase as [Hmulti | [Hrep | [Hlevel [a' [Ha' Hinv]]]]].
  - unfold generate in Ha. rewrite Hmulti in Ha.
    destruct (multi_ids_null _ _ _ _ _ Ha) as [Hids [ps ->]].
    destruct (level_of options =? "rawOpenAI"); [inversion H; subst; exact Hids|].
    destruct (level_of options =? "validatedOpenAI").
    { unfold validatedOpenAI in H. simpl in H. inversion H; subst.
      now rewrite ids_null_set_meta. }
    destruct (level_of options =? "repairedOpenAI").
    { destruct (isValid (validate.analysisData zod (JObj ps))) eqn:Hv.
      - unfold repairedOpenAI in H. rewrite Hv in H. simpl in H.
        inversion H; subst. now rewrite ids_null_set_meta.
      - eapply repairedOpenAI_invalid_ids; eauto. }
    unfold finalizeAnalysisData in H.
    destruct (flag (skipValidation options)) eqn:Hskip.
    + inversion H; subst; exact Hids.
    + eapply finalizeAnalysisData_repaired_ids; [exact Hskip|].
      unfold finalizeAnalysisData. rewrite Hskip. exact H.
  - unfold repairs_unconditionally in Hrep.
    apply andb_true_iff in Hrep. destruct Hrep as [Hrep Hs].
    apply andb_true_iff in Hrep. destruct Hrep as [Hrep H3].
    apply andb_true_iff in Hrep. destruct Hrep as [H1 H2].
    apply negb_true_iff in H1, H2, H3, Hs.
    rewrite H1, H2, H3 in H.
    eapply finalizeAnalysisData_repaired_ids; eauto.
  - rewrite Ha in Ha'. inversion Ha'; subst a'.
    rewrite Hlevel in H. simpl in H.
    eapply repairedOpenAI_invalid_ids; eauto.
Qed.

(** C8, witness: the multi strategy at the raw level. *)
Lemma pipeline_ids_null_witness :
  exists r,
    processCompanyAnalysis sampleZod "2026-11-02" "Acme"
      (optionsFor "rawOpenAI" multi) sampleBasicInfo = Ok r /\
    ids_null r = true.
Proof.
  eexists. split; [vm_compute; reflexivity|].
  eapply (pipeline_ids_null_when_assembled_or_repaired sampleZod "2026-11-02" "Acme"
            (optionsFor "rawOpenAI" multi) sampleBasicInfo).
  - vm_compute. reflexivity.
  - left. reflexivity.
Defined.

(** C8, counterexample: at the raw level of the single strategy an id
    emitted by the LLM is returned as it is. *)
Lemma raw_level_keeps_llm_id_counterexample : ~ null_id_invariant.
Proof.
  intros H.
  specialize (H sampleZod "2026-11-02" "Acme" (optionsFor "rawOpenAI" single)
                (Ok (JObj [("entity",
                             JObj [("id", JStr "123e4567-e89b-12d3-a456-426614174000");
                                   ("name_brand", JStr "Acme");
                                   ("products", JArr [] [])])],
                     sampleCost))
                _ eq_refl).
  discriminate H.
Qed.

(* ================================================================== *)
(** * C7: the [repairedOpenAI] level *)
(* ================================================================== *)

Lemma isValid_analysisData (zod : ZodLib) (a : value) :
  isValid (validate.analysisData zod a) = analysisDataSchema zod a.
Proof.
  unfold validate.analysisData. destruct (analysisDataSchema zod a); reflexivity.
Qed.

(** A valid document is an object whose [_meta] is absent or an object. *)
Lemma valid_document (zod : ZodLib) (a : value) :
  isValid (validate.analysisData zod a) = true ->
  exists ps, a = JObj ps /\
    (own "_meta" ps = JUndefined \/ exists ms, own "_meta" ps = JObj ms).
Proof.
  rewrite isValid_analysisData. unfold analysisDataSchema.
  destruct a as [| | | | | |ps]; try discriminate.
  intros H. exists ps. split; [reflexivity|].
  cbn [z.object forallb fst snd] in H.
  apply andb_true_iff in H. destruct H as [_ H].
  apply andb_true_iff in H. destruct H as [H _].
  unfold z.optional in H.
  destruct (own "_meta" ps); try discriminate; eauto.
Qed.

Lemma generate_object (today companyName : string) (options : CompanyAnalysisOptions)
  (llm : LLMOutcome) (a : value) :
  generate today companyName options llm = Ok a ->
  exists m, get a "_meta" = Ok m.
Proof.
  unfold generate. intros H.
  assert (Hs : processSingleStepAnalysis companyName options llm = Ok a ->
               exists m, get a "_meta" = Ok m).
  { clear H. unfold processSingleStepAnalysis.
    match goal with |- try_catch ?b _ = _ -> _ => destruct b as [x|e] eqn:Hb end;
      simpl; [|discriminate].
    intros Hx; inversion Hx; subst x.
    bind_inv Hb as r _.
    bind_inv Hb as m _.
    bind_inv Hb as pd _.
    bind_inv Hb as m1 _.
    bind_inv Hb as m2 _.
    destruct pd; simpl in Hb; inversion Hb; subst; simpl; eauto. }
  destruct (strategy options) as [[|]|]; auto.
  destruct (multi_ids_null _ _ _ _ _ H) as [_ [ps ->]]. simpl; eauto.
Qed.

Lemma field_get (v m : value) (k : string) : get v k = Ok m -> field v k = m.
Proof. unfold field. now intros ->. Qed.

(** C7 (as amended).  At the [repairedOpenAI] level, when the validator
    accepts the generated result the returned value is that result with only
    [_meta.validation] changed (to ["valid_at_source"]); when it rejects it,
    the returned value has every field other than [_meta] from
    [repairAnalysisData]'s output, and its [_meta] is a copy of the generated
    result's own [_meta] -- not the repaired one -- with [validation] set to
    ["repaired"]. *)
Theorem repairedOpenAI_keeps_generated_meta :
  forall (zod : ZodLib) (today companyName : string)
         (options : CompanyAnalysisOptions) (llm : LLMOutcome) (a : value),
    level_of options = "repairedOpenAI" ->
    generate today companyName options llm = Ok a ->
    exists r,
      processCompanyAnalysis zod today companyName options llm = Ok r /\
      if isValid (validate.analysisData zod a)
      then tagged a "valid_at_source" r
      else exists rep,
             repairAnalysisData today a (flag (debug options)) = Ok rep /\
             (forall k, k <> "_meta" -> field r k = field rep k) /\
             field r "_meta" =
               JObj (set_key "validation" (JStr "repaired") (spread (field a "_meta"))).
Proof.
  intros zod today companyName options llm a Hlevel Ha.
  rewrite processCompanyAnalysis_unfold, Ha, Hlevel. cbn [bind].
  change ("repairedOpenAI" =? "rawOpenAI") with false.
  change ("repairedOpenAI" =? "validatedOpenAI") with false.
  change ("repairedOpenAI" =? "repairedOpenAI") with true.
  cbv iota.
  destruct (generate_object _ _ _ _ _ Ha) as [m Hm].
  unfold repairedOpenAI. rewrite Hm. cbn [bind].
  destruct (isValid (validate.analysisData zod a)) eqn:Hv.
  - destruct (valid_document _ _ Hv) as [ps [-> Hmeta]].
    simpl in Hm. inversion Hm; subst m. clear Hm.
    eexists. split; [reflexivity|]. unfold tagged, field. simpl.
    rewrite own_set_key_same. split; [|split].
    + intros k Hk. now rewrite own_set_key_other.
    + intros k Hk. destruct Hmeta as [-> | [ms ->]].
      * cbn [get spread]. now rewrite own_set_key_other.
      * cbn [get spread]. now rewrite own_set_key_other.
    + simpl. now rewrite own_set_key_same.
  - destruct (repairAnalysisData_total today a (flag (debug options))) as [rep [Hrep Hs]].
    rewrite Hrep. cbn [bind].
    destruct (repairShaped_object _ Hs) as [rs ->].
    eexists. split; [reflexivity|].
    exists (JObj rs). split; [reflexivity|]. unfold field at 1 2 3. simpl.
    split.
    + intros k Hk. now rewrite own_set_key_other.
    + rewrite own_set_key_same. now rewrite (field_get _ _ _ Hm).
Qed.

(** C7, witness: the multi strategy at the [repairedOpenAI] level. *)
Lemma repairedOpenAI_keeps_generated_meta_witness :
  level_of (optionsFor "repairedOpenAI" multi) = "repairedOpenAI" /\
  exists a,
    generate "2026-11-02" "Acme" (optionsFor "repairedOpenAI" multi) sampleBasicInfo = Ok a /\
    exists r,
      processCompanyAnalysis sampleZod "2026-11-02" "Acme"
        (optionsFor "repairedOpenAI" multi) sampleBasicInfo = Ok r /\
      field (field r "_meta") "validation" = JStr "repaired".
Proof.
  split; [reflexivity|].
  eexists. split; [vm_compute; reflexivity|].
  destruct (repairedOpenAI_keeps_generated_meta sampleZod "2026-11-02" "Acme"
              (optionsFor "repairedOpenAI" multi) sampleBasicInfo _
              eq_refl eq_refl) as [r [Hr _]].
  exists r. split; [exact Hr|].
  vm_compute in Hr. inversion Hr. reflexivity.
Defined.

(** C7, counterexample: a legacy-shaped payload under the single strategy.
    The validator rejects it, repair rebuilds it with the default zero cost,
    and the returned [_meta.cost] is the generated one. *)
Lemma repairedOpenAI_meta_counterexample : ~ repairedOpenAI_semantics.
Proof.
  intros H.
  specialize (H sampleZod "2026-11-02" "Acme" (optionsFor "repairedOpenAI" single)
                (Ok (JObj [("company_name", JStr "Acme"); ("products", JArr [] [])],
                     sampleCost))
                _ _ eq_refl eq_refl eq_refl).
  vm_compute in H. destruct H as [rep [Hrep [_ [Hmeta _]]]].
  inversion Hrep; subst rep. clear Hrep.
  specialize (Hmeta "cost"). vm_compute in Hmeta.
  assert (Hne : "cost" <> "validation") by discriminate.
  specialize (Hmeta Hne). discriminate Hmeta.
Qed.

(* ================================================================== *)
(** * C5: the field-extraction fallback rule *)
(* ================================================================== *)

Lemma has_key_defined (k : string) (ps : props) :
  (if has_key k ps then negb (is_undefined (own k ps)) else false) =
  is_defined (own k ps).
Proof.
  unfold has_key, own, is_defined. destruct (assoc k ps); reflexivity.
Qed.

Lemma getDetailProperty_object (ps : props) (snake camel : string) (dflt : value) :
  getDetailProperty (JObj ps) snake camel dflt =
  Ok (extract is_defined snake camel dflt ps).
Proof.
  unfold getDetailProperty, extract. cbn [has_in get bind].
  replace (if has_key snake ps
           then Ok (negb (is_undefined (own snake ps))) else Ok false)
    with (Ok (A := bool) (is_defined (own snake ps)))
    by (rewrite <- has_key_defined; destruct (has_key snake ps); reflexivity).
  cbn [bind]. destruct (is_defined (own snake ps)); [reflexivity|].
  replace (if has_key camel ps
           then Ok (negb (is_undefined (own camel ps))) else Ok false)
    with (Ok (A := bool) (is_defined (own camel ps)))
    by (rewrite <- has_key_defined; destruct (has_key camel ps); reflexivity).
  cbn [bind]. destruct (is_defined (own camel ps)); reflexivity.
Qed.

Lemma or_chain_object (ps : props) (snake camel : string) (dflt : value) :
  get (JObj ps) snake ||| get (JObj ps) camel ||| Ok dflt =
  Ok (extract truthy snake camel dflt ps).
Proof.
  unfold or_else, extract. cbn [get bind].
  destruct (truthy (own snake ps)) eqn:E1; cbn [bind].
  - now rewrite E1.
  - destruct (truthy (own camel ps)) eqn:E2; cbn [bind]; rewrite ?E2; reflexivity.
Qed.

Lemma typed_field_extract (ps : props) (ty snake camel : string) (dflt : value) :
  typed_field (JObj ps) ty snake camel dflt =
  Ok (extract (has_type ty) snake camel dflt ps).
Proof. apply typed_field_obj. Qed.

(** C5 (as amended).  On a detail object every per-field extraction reads
    the snake_case key first, then the camelCase alias, then falls back to
    the default, and none raises.  What makes a candidate count differs by
    field: the four fields read through [getDetailProperty] (product and
    competitor details) take the first candidate that is not [undefined],
    whatever its type; the same four fields of a root-entity detail take the
    first truthy candidate; only [discrete_value] and [text_value] are
    type-checked, a wrong-typed value there being treated as absent. *)
Theorem detail_extraction_rule :
  forall (today : string) (ps : props),
    nestedDetail today (JObj ps) = Ok (nestedDetailOf today ps) /\
    entityDetail today (JObj ps) = Ok (entityDetailOf today ps).
Proof.
  intros today ps. split.
  - unfold nestedDetail.
    rewrite !getDetailProperty_object, !typed_field_extract. reflexivity.
  - unfold entityDetail. cbv zeta.
    rewrite !or_chain_object, !typed_field_extract. reflexivity.
Qed.

(** C5, counterexample: [getDetailProperty] hands back a number found under
    the snake_case key although the field's default is a string. *)
Lemma getDetailProperty_keeps_wrong_type_counterexample : ~ extraction_rule_as_specified.
Proof.
  intros H.
  specialize (H (JObj [("type_research_detail", JNum (num 42))])
                "type_research_detail" "typeResearchDetail"
                (JStr "market_share_estimate")).
  vm_compute in H. discriminate H.
Qed.

(* ================================================================== *)
(** * C6: the validator and the enums *)
(* ================================================================== *)

Lemma recursiveProductEntitySchema_unfold (zod : ZodLib) (ps : props) :
  recursiveProductEntitySchema zod (JObj ps) =
  productEntitySchema zod (JObj ps) &&
  z.optional (z.array (recursiveProductEntitySchema zod)) (own "competitors" ps).
Proof.
  cbn [recursiveProductEntitySchema]. f_equal.
  unfold own.
  induction ps as [|[k x] rest IH]; [reflexivity|].
  cbn [assoc]. destruct (k =? "competitors"); [|exact IH].
  destruct x; reflexivity.
Qed.

Lemma recursiveProductEntitySchema_object (zod : ZodLib) (v : value) :
  recursiveProductEntitySchema zod v = true -> exists ps, v = JObj ps.
Proof.
  destruct v; cbn [recursiveProductEntitySchema];
    rewrite ?andb_false_r; try discriminate; eauto.
Qed.

Lemma object_field (sh : z.shape) (ps : props) (k : string) (s : z.schema) :
  z.object sh (JObj ps) = true -> In (k, s) sh -> s (own k ps) = true.
Proof.
  cbn [z.object]. rewrite forallb_forall. intros H Hin. apply (H (k, s) Hin).
Qed.

Lemma optional_array_elements (s : z.schema) (v d : value) :
  z.optional (z.array s) v = true -> In d (elements v) -> s d = true.
Proof.
  destruct v; cbn [z.optional z.array elements]; try discriminate;
    try (intros _ []).
  rewrite forallb_forall. auto.
Qed.

Lemma entityDetailSchema_enums (zod : ZodLib) (d : value) :
  entityDetailSchema zod d = true -> detail_enums_ok d = true.
Proof.
  unfold entityDetailSchema. destruct d as [| | | | | |ps]; try discriminate.
  intros H. unfold detail_enums_ok, field. cbn [get].
  rewrite (object_field _ _ "type_research_detail" typeResearchDetailEnum H)
    by (cbn; tauto).
  rewrite (object_field _ _ "data_confidence" dataConfidenceEnum H)
    by (cbn; tauto).
  rewrite (object_field _ _ "source_type" sourceTypeEnum H)
    by (cbn; tauto).
  reflexivity.
Qed.

Lemma details_enums (zod : ZodLib) (sh : z.shape) (ps : props) (d : value) :
  z.object sh (JObj ps) = true ->
  In ("details", z.optional (z.array (entityDetailSchema zod))) sh ->
  In d (details_in (JObj ps)) -> detail_enums_ok d = true.
Proof.
  intros H Hin Hd. apply (entityDetailSchema_enums zod).
  eapply optional_array_elements; [|exact Hd].
  unfold field. cbn [get]. exact (object_field _ _ _ _ H Hin).
Qed.

Lemma product_details_enums (zod : ZodLib) (p d : value) :
  recursiveProductEntitySchema zod p = true ->
  In d (details_in p) -> detail_enums_ok d = true.
Proof.
  intros Hp Hd. destruct (recursiveProductEntitySchema_object _ _ Hp) as [ps ->].
  rewrite recursiveProductEntitySchema_unfold in Hp.
  apply andb_true_iff in Hp. destruct Hp as [Hp _].
  eapply (details_enums zod); [exact Hp | | exact Hd].
  unfold productEntityShape. apply in_or_app. right. cbn. tauto.
Qed.

Lemma product_competitors (zod : ZodLib) (p c : value) :
  recursiveProductEntitySchema zod p = true ->
  In c (elements (field p "competitors")) ->
  recursiveProductEntitySchema zod c = true.
Proof.
  intros Hp Hc. destruct (recursiveProductEntitySchema_object _ _ Hp) as [ps ->].
  rewrite recursiveProductEntitySchema_unfold in Hp.
  apply andb_true_iff in Hp. destruct Hp as [_ Hp].
  eapply optional_array_elements; [exact Hp | exact Hc].
Qed.

(** C6 (as amended).  [validate.analysisData] enforces enum membership: in
    every document it accepts, each Detail of the root entity, of a product
    and of a competitor holds members of the recognized enums in
    [type_research_detail], [data_confidence] and [source_type]; a string
    outside the enum in any of them makes the document invalid. *)
Theorem validator_enforces_detail_enums :
  forall (zod : ZodLib) (v d : value),
    isValid (validate.analysisData zod v) = true ->
    In d (all_details v) ->
    detail_enums_ok d = true.
Proof.
  intros zod v d Hv Hd.
  rewrite isValid_analysisData in Hv. unfold analysisDataSchema in Hv.
  destruct v as [| | | | | |ps]; try discriminate.
  pose proof (object_field _ _ "entity" _ Hv (or_introl eq_refl)) as He.
  cbn beta in He.
  unfold all_details, field in Hd. cbn [get] in Hd.
  destruct (own "entity" ps) as [| | | | | |es]; try discriminate.
  fold (field (JObj es) "products") in Hd.
  apply in_app_or in Hd. destruct Hd as [Hd | Hd].
  - eapply (details_enums zod); [exact He | cbn; tauto | exact Hd].
  - apply in_flat_map in Hd. destruct Hd as [p [Hp Hd]].
    assert (Hprod : recursiveProductEntitySchema zod p = true).
    { eapply optional_array_elements; [|exact Hp].
      unfold field. cbn [get].
      apply (object_field _ _ "products" _ He). cbn. tauto. }
    apply in_app_or in Hd. destruct Hd as [Hd | Hd].
    + eapply product_details_enums; eauto.
    + apply in_flat_map in Hd. destruct Hd as [c [Hc Hd]].
      eapply product_details_enums; [|exact Hd].
      eapply product_competitors; eauto.
Qed.

(** C6, witness. *)
Lemma validator_enforces_detail_enums_witness :
  isValid (validate.analysisData sampleZod
             (document "Acme"
                [JObj [("type_research_detail", JStr "market_share_estimate");
                       ("data_confidence", JStr "high");
                       ("source_type", JStr "unknown")]])) = true /\
  detail_enums_ok (JObj [("type_research_detail", JStr "market_share_estimate");
                         ("data_confidence", JStr "high");
                         ("source_type", JStr "unknown")]) = true.
Proof.
  split; [vm_compute; reflexivity|].
  apply (validator_enforces_detail_enums sampleZod
           (document "Acme"
              [JObj [("type_research_detail", JStr "market_share_estimate");
                     ("data_confidence", JStr "high");
                     ("source_type", JStr "unknown")]])).
  - vm_compute. reflexivity.
  - left. reflexivity.
Defined.

(** C6, counterexample: a valid document stops being valid when the
    [type_research_detail] of its Detail is replaced by a string outside the
    enum. *)
Lemma validator_rejects_unknown_enum_counterexample : ~ enum_leniency.
Proof.
  intros H.
  specialize (H sampleZod "Acme"
                [("type_research_detail", JStr "market_share_estimate");
                 ("data_confidence", JStr "high");
                 ("source_type", JStr "unknown")]
                [] "type_research_detail" "bogus"
                (or_introl eq_refl) eq_refl).
  vm_compute in H. discriminate H.
Qed.

(* ================================================================== *)
(** * C2: validating what repair returns *)
(* ================================================================== *)

Lemma forallb_flat_map {A B : Type} (f : B -> bool) (g : A -> list B) (l : list A) :
  forallb f (flat_map g l) = forallb (fun x => forallb f (g x)) l.
Proof.
  induction l as [|x xs IH]; [reflexivity|].
  cbn [flat_map forallb]. now rewrite forallb_app, IH.
Qed.

Section RepairedValidity.
Variable zod : ZodLib.
Opaque entityDetailSchema.

Lemma competitorShaped_valid (c : value) :
  competitorShaped c ->
  recursiveProductEntitySchema zod c =
  forallb (entityDetailSchema zod) (details_in c).
Proof.
  intros [n [ds ->]]. rewrite recursiveProductEntitySchema_unfold.
  cbn. now rewrite !andb_true_r.
Qed.

Lemma forallb_ext_in {A : Type} (f g : A -> bool) (l : list A) :
  (forall x, In x l -> f x = g x) -> forallb f l = forallb g l.
Proof.
  induction l as [|x xs IH]; intros H; [reflexivity|].
  cbn [forallb]. rewrite (H x (or_introl eq_refl)). f_equal.
  apply IH. intros y Hy. apply H. now right.
Qed.

Lemma productShaped_valid (p : value) :
  productShaped p ->
  recursiveProductEntitySchema zod p =
  forallb (entityDetailSchema zod)
    (details_in p ++ flat_map details_in (elements (field p "competitors"))).
Proof.
  intros [[n ->] | [n [ds [cs [-> Hcs]]]]].
  - rewrite recursiveProductEntitySchema_unfold. reflexivity.
  - rewrite recursiveProductEntitySchema_unfold.
    rewrite forallb_app, forallb_flat_map.
    cbn. rewrite !andb_true_r. f_equal.
    apply forallb_ext_in. intros c Hc.
    apply competitorShaped_valid. rewrite Forall_forall in Hcs. auto.
Qed.

Lemma repairShaped_valid (r : value) :
  repairShaped r ->
  analysisDataSchema zod r =
  metaSchema (field r "_meta") &&
  forallb (entityDetailSchema zod) (all_details r).
Proof.
  intros [n [ds [ps [m [-> [Hps _]]]]]].
  unfold all_details. rewrite forallb_app, forallb_flat_map.
  cbn. rewrite !andb_true_r.
  fold metaSchema.
  rewrite (forallb_ext_in (recursiveProductEntitySchema zod)
             (fun p => forallb (entityDetailSchema zod)
                         (details_in p ++
                          flat_map details_in (elements (field p "competitors"))))).
  - rewrite andb_comm. reflexivity.
  - intros p Hp. apply productShaped_valid. rewrite Forall_forall in Hps. auto.
Qed.

Transparent entityDetailSchema.
End RepairedValidity.

Lemma flat_map_nil {A B : Type} (g : A -> list B) (l : list A) :
  Forall (fun x => g x = []) l -> flat_map g l = [].
Proof.
  induction 1 as [|x xs Hx _ IH]; [reflexivity|].
  cbn [flat_map]. now rewrite Hx, IH.
Qed.

Lemma legacyCompetitor_details (comp : value) (i : nat) (y : value) :
  legacyCompetitor comp i = Ok y -> details_in y = [].
Proof.
  unfold legacyCompetitor. destruct (not_an_object comp); intros H.
  - inversion H; reflexivity.
  - bind_inv H as n _. inversion H; reflexivity.
Qed.

Lemma legacyProduct_details (product : value) (i : nat) (y : value) :
  legacyProduct product i = Ok y ->
  (details_in y ++ flat_map details_in (elements (field y "competitors")))%list = [].
Proof.
  unfold legacyProduct. destruct (not_an_object product); intros H.
  - inversion H; reflexivity.
  - bind_inv H as n _.
    bind_inv H as cs _.
    bind_inv H as competitors Hc.
    inversion H; subst. cbn.
    apply flat_map_nil.
    unfold mapi_if_array in Hc.
    destruct cs; try (inversion Hc; subst; constructor; fail).
    bind_inv Hc as l Hl. inversion Hc; subst. cbn.
    eapply mapiM_Forall; [|exact Hl].
    intros x j z. apply legacyCompetitor_details.
Qed.

Lemma repairLegacy_details (rawData products r : value) :
  repairLegacy rawData products = Ok r ->
  all_details r = [] /\ field r "_meta" = defaultMeta.
Proof.
  unfold repairLegacy. intros H.
  bind_inv H as company _.
  bind_inv H as n _.
  bind_inv H as ps Hp.
  inversion H; subst. split; [|reflexivity].
  unfold all_details. cbn.
  apply flat_map_nil.
  destruct products; try (inversion Hp; subst; constructor; fail).
  bind_inv Hp as l Hl. inversion Hp; subst. cbn.
  eapply mapiM_Forall; [|exact Hl].
  intros x j z. apply legacyProduct_details.
Qed.

Lemma repairBody_not_case1 (today : string) (rawData r : value) :
  not_an_object rawData = false ->
  takes_case1 rawData = false ->
  repairBody today rawData = Ok r ->
  all_details r = [] /\ field r "_meta" = defaultMeta.
Proof.
  intros Hobj Hcase. unfold takes_case1 in Hcase. rewrite Hobj in Hcase.
  cbn [negb andb] in Hcase.
  unfold repairBody. intros H.
  bind_inv H as entity He.
  rewrite (field_get _ _ _ He) in Hcase. rewrite Hcase in H.
  bind_inv H as ln _.
  bind_inv H as products _.
  destruct (truthy ln && isArray products).
  - eapply repairLegacy_details; eauto.
  - inversion H; subst. split; reflexivity.
Qed.

(** C2 (as amended).  [repairAnalysisData] returns on every input, and
    [validate.analysisData] accepts what it returns exactly when the parts
    repair takes over from the input without coercion conform to their
    schemas: the [_meta] block and every repaired Detail.  The entity
    skeleton itself always conforms; in particular the default structure and
    the output of the legacy branch (inputs that do not enter Case 1) are
    always accepted. *)
Theorem repaired_valid_iff_meta_and_details_valid :
  forall (zod : ZodLib) (today : string) (v : value) (debug : bool),
  exists r,
    repairAnalysisData today v debug = Ok r /\
    isValid (validate.analysisData zod r) =
      metaSchema (field r "_meta") &&
      forallb (entityDetailSchema zod) (all_details r) /\
    (takes_case1 v = false -> isValid (validate.analysisData zod r) = true).
Proof.
  intros zod today v debug.
  destruct (repairAnalysisData_total today v debug) as [r [Hr Hs]].
  exists r. split; [exact Hr|].
  rewrite isValid_analysisData, (repairShaped_valid zod r Hs).
  split; [reflexivity|].
  intros Hcase. rewrite repairAnalysisData_unfold in Hr.
  destruct (not_an_object v) eqn:Hobj.
  - inversion Hr; subst. reflexivity.
  - destruct (repairBody today v) as [r'|e] eqn:Hb; simpl in Hr; inversion Hr; subst.
    + destruct (repairBody_not_case1 _ _ _ Hobj Hcase Hb) as [-> ->]. reflexivity.
    + reflexivity.
Qed.

(** C2, counterexample: Case 1 copies the [type_research_detail] of a Detail
    as it finds it, and the validator rejects the repaired value. *)
Lemma repaired_value_rejected_counterexample : ~ repair_output_valid.
Proof.
  intros H.
  destruct (H sampleZod "2026-11-02"
              (JObj [("entity",
                       JObj [("name_brand", JStr "Acme");
                             ("details",
                               JArr [JObj [("type_research_detail", JStr "bogus")]] [])])])
              false) as [r [Hr Hv]].
  vm_compute in Hr. inversion Hr; subst r. clear Hr.
  vm_compute in Hv. discriminate Hv.
Qed.

(* ================================================================== *)
(** * C4: repair is idempotent on canonical input *)
(* ================================================================== *)

Lemma getDetailProperty_array (xs : list value) (ps : props) (snake camel : string)
  (dflt : value) :
  getDetailProperty (JArr xs ps) snake camel dflt =
  Ok (extract is_defined snake camel dflt ps).
Proof. exact (getDetailProperty_object ps snake camel dflt). Qed.

Lemma nestedDetail_object (today : string) (ps : props) :
  nestedDetail today (JObj ps) = Ok (nestedDetailOf today ps).
Proof.
  unfold nestedDetail.
  rewrite !getDetailProperty_object, !typed_field_extract. reflexivity.
Qed.

Lemma nestedDetail_array (today : string) (xs : list value) (ps : props) :
  nestedDetail today (JArr xs ps) = Ok (nestedDetailOf today ps).
Proof.
  unfold nestedDetail.
  rewrite !getDetailProperty_array, !typed_field_arr. reflexivity.
Qed.

Lemma nestedDetail_Ok (today : string) (d y : value) :
  nestedDetail today d = Ok y -> y = nestedDetailOf today (own_props d).
Proof.
  destruct d; try discriminate.
  - rewrite nestedDetail_array. intros H; inversion H; reflexivity.
  - rewrite nestedDetail_object. intros H; inversion H; reflexivity.
Qed.

Lemma entityDetail_object (today : string) (ps : props) :
  entityDetail today (JObj ps) = Ok (entityDetailOf today ps).
Proof.
  unfold entityDetail. cbv zeta.
  rewrite !or_chain_object, !typed_field_extract. reflexivity.
Qed.

Lemma entityDetail_Ok (today : string) (d y : value) :
  entityDetail today d = Ok y -> y = entityDetailOf today (own_props d).
Proof.
  destruct d as [| | | | |xs ps|ps]; try discriminate;
    try (intros H; inversion H; reflexivity).
  - change (entityDetail today (JArr xs ps)) with (entityDetail today (JObj ps)).
    rewrite entityDetail_object. intros H; inversion H; reflexivity.
  - rewrite entityDetail_object. intros H; inversion H; reflexivity.
Qed.

Lemma extract_accepted_or_default (accepts : value -> bool) (snake camel : string)
  (dflt : value) (ps : props) :
  accepts (extract accepts snake camel dflt ps) = true \/
  extract accepts snake camel dflt ps = dflt.
Proof.
  unfold extract.
  destruct (accepts (own snake ps)) eqn:E1; [left; exact E1|].
  destruct (accepts (own camel ps)) eqn:E2; [left; exact E2|].
  right; reflexivity.
Qed.

Lemma extract_accepted (accepts : value -> bool) (snake camel : string)
  (dflt : value) (ps : props) :
  accepts dflt = true -> accepts (extract accepts snake camel dflt ps) = true.
Proof.
  intros Hd. destruct (extract_accepted_or_default accepts snake camel dflt ps) as [H | ->];
    assumption.
Qed.

(** A second extraction finds under the snake_case key what the first one
    put there. *)
Lemma extract_again (accepts : value -> bool) (snake camel : string)
  (x dflt : value) (six : props) :
  own snake six = x ->
  accepts x = true \/ (x = dflt /\ accepts (own camel six) = false) ->
  extract accepts snake camel dflt six = x.
Proof.
  intros Hs H. unfold extract. rewrite Hs.
  destruct H as [H | [-> H]].
  - now rewrite H.
  - destruct (accepts dflt); [reflexivity|]. now rewrite H.
Qed.

Lemma detail_fields_eq (a a' b b' c c' d d' e e' f f' : value) :
  a' = a -> b' = b -> c' = c -> d' = d -> e' = e -> f' = f ->
  JObj [("type_research_detail", a'); ("data_confidence", b');
        ("source_type", c'); ("as_of_date", d');
        ("discrete_value", e'); ("text_value", f')] =
  JObj [("type_research_detail", a); ("data_confidence", b);
        ("source_type", c); ("as_of_date", d);
        ("discrete_value", e); ("text_value", f)].
Proof. intros; subst; reflexivity. Qed.

Lemma nestedDetail_fix (today today' : string) (ps : props) :
  nestedDetail today' (nestedDetailOf today ps) = Ok (nestedDetailOf today ps).
Proof.
  unfold nestedDetailOf at 1. rewrite nestedDetail_object. f_equal.
  unfold nestedDetailOf. apply detail_fields_eq.
  - apply extract_again; [reflexivity|]. left. now apply extract_accepted.
  - apply extract_again; [reflexivity|]. left. now apply extract_accepted.
  - apply extract_again; [reflexivity|]. left. now apply extract_accepted.
  - apply extract_again; [reflexivity|]. left.
    destruct (extract_accepted_or_default is_defined "as_of_date" "asOfDate"
                (JStr today) ps) as [H | ->]; [exact H | reflexivity].
  - apply extract_again; [reflexivity|].
    destruct (extract_accepted_or_default (has_type "number") "discrete_value"
                "discreteValue" JUndefined ps) as [H | H]; [left; exact H|].
    right. split; [exact H | reflexivity].
  - apply extract_again; [reflexivity|].
    destruct (extract_accepted_or_default (has_type "string") "text_value"
                "textValue" JUndefined ps) as [H | H]; [left; exact H|].
    right. split; [exact H | reflexivity].
Qed.

Lemma entityDetail_fix (today today' : string) (ps : props) :
  today <> "" ->
  entityDetail today' (entityDetailOf today ps) = Ok (entityDetailOf today ps).
Proof.
  intros Ht.
  unfold entityDetailOf at 1. rewrite entityDetail_object. f_equal.
  unfold entityDetailOf. apply detail_fields_eq.
  - apply extract_again; [reflexivity|]. left. now apply extract_accepted.
  - apply extract_again; [reflexivity|]. left. now apply extract_accepted.
  - apply extract_again; [reflexivity|]. left. now apply extract_accepted.
  - apply extract_again; [reflexivity|]. left.
    destruct (extract_accepted_or_default truthy "as_of_date" "asOfDate"
                (JStr today) ps) as [H | ->]; [exact H|].
    simpl. apply negb_true_iff. now apply String.eqb_neq.
  - apply extract_again; [reflexivity|].
    destruct (extract_accepted_or_default (has_type "number") "discrete_value"
                "discreteValue" JUndefined ps) as [H | H]; [left; exact H|].
    right. split; [exact H | reflexivity].
  - apply extract_again; [reflexivity|].
    destruct (extract_accepted_or_default (has_type "string") "text_value"
                "textValue" JUndefined ps) as [H | H]; [left; exact H|].
    right. split; [exact H | reflexivity].
Qed.

Lemma mapM_closed {A B : Type} (f : A -> result B) (g : A -> B) :
  (forall x y, f x = Ok y -> y = g x) ->
  forall l l', mapM f l = Ok l' -> l' = map g l.
Proof.
  intros Hf. induction l as [|x xs IH]; simpl; intros l' H.
  - inversion H; reflexivity.
  - bind_inv H as y Hy.
    bind_inv H as ys Hys.
    inversion H; subst. rewrite (Hf _ _ Hy), (IH _ Hys). reflexivity.
Qed.

Lemma mapM_fix {A : Type} (f : A -> result A) (l : list A) :
  Forall (fun y => f y = Ok y) l -> mapM f l = Ok l.
Proof.
  induction 1 as [|y ys Hy _ IH]; simpl; [reflexivity|].
  rewrite Hy. cbn [bind]. rewrite IH. reflexivity.
Qed.

Lemma mapM_returns {A B : Type} (f : A -> result B) (l : list A) :
  Forall (fun x => exists y, f x = Ok y) l -> exists l', mapM f l = Ok l'.
Proof.
  induction 1 as [|x xs [y Hy] _ [l' IH]]; simpl; [eauto|].
  rewrite Hy. cbn [bind]. rewrite IH. cbn [bind]. eauto.
Qed.

Lemma map_if_array_nested (today : string) (ds y : value) :
  map_if_array ds (nestedDetail today) = Ok y ->
  exists pss, y = JArr (map (nestedDetailOf today) pss) [].
Proof.
  unfold map_if_array.
  destruct ds as [| | | | |xs qs|qs]; intros H;
    try (inversion H; exists []; reflexivity).
  bind_inv H as l Hl. inversion H; subst.
  exists (map own_props xs). rewrite map_map. f_equal.
  eapply mapM_closed; [|exact Hl]. intros x z. apply nestedDetail_Ok.
Qed.

Lemma nested_details_fix (today today' : string) (pss : list props) :
  mapM (nestedDetail today') (map (nestedDetailOf today) pss) =
  Ok (map (nestedDetailOf today) pss).
Proof.
  apply mapM_fix. apply Forall_forall. intros d Hd.
  apply in_map_iff in Hd. destruct Hd as [ps [<- _]]. apply nestedDetail_fix.
Qed.

Lemma modernCompetitor_repaired (today : string) (comp y : value) :
  modernCompetitor today comp = Ok y -> competitorRepaired today y.
Proof.
  unfold modernCompetitor, competitorRepaired.
  destruct (not_an_object comp); intros H.
  - inversion H. exists "Unknown Competitor", []. reflexivity.
  - bind_inv H as n Hn.
    bind_inv H as ds _.
    bind_inv H as details Hd.
    apply typed_field_string in Hn. destruct Hn as [s ->].
    apply map_if_array_nested in Hd. destruct Hd as [pss ->].
    inversion H; eauto.
Qed.

Lemma modernCompetitor_fix (today today' : string) (c : value) :
  competitorRepaired today c -> modernCompetitor today' c = Ok c.
Proof.
  intros [n [pss ->]]. unfold modernCompetitor.
  cbn [not_an_object truthy typeof negb orb].
  change ("object" =? "object") with true. cbn [negb].
  rewrite typed_field_obj. change (own "name_brand" _) with (JStr n).
  cbn [typeof]. change ("string" =? "string") with true. cbv iota. cbn [bind get].
  change (own "details" _) with (JArr (map (nestedDetailOf today) pss) []).
  cbn [map_if_array]. rewrite nested_details_fix. reflexivity.
Qed.

Lemma modernProduct_repaired (today : string) (product y : value) :
  not_an_object product = false ->
  modernProduct today product = Ok y -> productRepaired today y.
Proof.
  unfold modernProduct, productRepaired. intros ->. intros H.
  bind_inv H as n Hn.
  bind_inv H as ds _.
  bind_inv H as details Hd.
  bind_inv H as cs _.
  bind_inv H as competitors Hc.
  apply typed_field_string in Hn. destruct Hn as [s ->].
  apply map_if_array_nested in Hd. destruct Hd as [pss ->].
  destruct (map_if_array_arr _ _ _ Hc) as [l ->].
  inversion H; subst. exists s, pss, l. split; [reflexivity|].
  eapply map_if_array_Forall; [|exact Hc].
  intros x z. apply modernCompetitor_repaired.
Qed.

Lemma modernProduct_fix (today today' : string) (p : value) :
  productRepaired today p -> modernProduct today' p = Ok p.
Proof.
  intros [n [pss [cs [-> Hcs]]]]. unfold modernProduct.
  cbn [not_an_object truthy typeof negb orb].
  change ("object" =? "object") with true. cbn [negb].
  rewrite typed_field_obj. change (own "name_brand" _) with (JStr n).
  cbn [typeof]. change ("string" =? "string") with true. cbv iota. cbn [bind get].
  change (own "details" _) with (JArr (map (nestedDetailOf today) pss) []).
  cbn [map_if_array]. rewrite nested_details_fix. cbn [bind].
  change (own "competitors" _) with (JArr cs []).
  cbn [map_if_array].
  rewrite (mapM_fix (modernCompetitor today') cs).
  - reflexivity.
  - eapply Forall_impl; [|exact Hcs]. intros c. apply modernCompetitor_fix.
Qed.

Lemma mapM_Forall_given {A B : Type} (f : A -> result B) (Q : A -> Prop) (P : B -> Prop) :
  (forall x y, Q x -> f x = Ok y -> P y) ->
  forall l l', Forall Q l -> mapM f l = Ok l' -> Forall P l'.
Proof.
  intros Hf l l' HQ. revert l'.
  induction HQ as [|x xs Hx _ IH]; simpl; intros l' H.
  - inversion H. constructor.
  - bind_inv H as y Hy.
    bind_inv H as ys Hys.
    inversion H; subst. constructor; eauto.
Qed.

(** The documents Case 1 assembles from object-valued products. *)
Lemma repairModern_repaired (today : string) (rawData entityData r : value) :
  Forall (fun p => not_an_object p = false) (elements (field entityData "products")) ->
  repairModern today rawData entityData = Ok r ->
  exists n pss ps m,
    r = JObj [("entity", JObj [("id", JNull); ("name_brand", JStr n);
                               ("details", JArr (map (entityDetailOf today) pss) []);
                               ("products", JArr ps [])]);
              ("_meta", m)] /\
    Forall (productRepaired today) ps /\
    truthy m && (typeof m =? "object") = true /\
    typed_field entityData "string" "name_brand" "nameBrand" (JStr "Unknown Company")
      = Ok (JStr n).
Proof.
  intros Hobj. unfold repairModern. intros H.
  bind_inv H as n Hn.
  bind_inv H as ds _.
  bind_inv H as details Hd.
  bind_inv H as ps Hps.
  bind_inv H as products Hp.
  bind_inv H as meta _.
  destruct (typed_field_string _ _ _ _ _ Hn) as [s ->].
  assert (Hd' : exists pss, details = JArr (map (entityDetailOf today) pss) []).
  { destruct ds as [| | | | |xs qs|qs]; try (inversion Hd; exists []; reflexivity).
    bind_inv Hd as l Hl. inversion Hd; subst.
    exists (map own_props xs). rewrite map_map. f_equal.
    eapply mapM_closed; [|exact Hl]. intros x z. apply entityDetail_Ok. }
  destruct Hd' as [pss ->].
  assert (Hp' : exists l, products = JArr l [] /\ Forall (productRepaired today) l).
  { rewrite (field_get _ _ _ Hps) in Hobj.
    destruct ps as [| | | | |xs qs|qs];
      try (inversion Hp; subst; exists []; split; [reflexivity | constructor]; fail).
    bind_inv Hp as l Hl. inversion Hp; subst.
    exists l. split; [reflexivity|]. cbn [elements] in Hobj.
    eapply mapM_Forall_given; [|exact Hobj|exact Hl].
    intros x y Hx Hy. exact (modernProduct_repaired today x y Hx Hy). }
  destruct Hp' as [l [-> Hl]].
  inversion H; subst. exists s, pss, l. eexists.
  split; [reflexivity|]. split; [exact Hl|]. split; [|exact Hn].
  destruct (truthy meta && (typeof meta =? "object")) eqn:E; [exact E | reflexivity].
Qed.

Lemma repaired_document_fix (today today' : string) (debug : bool)
  (n : string) (pss : list props) (ps : list value) (m : value) :
  today <> "" ->
  Forall (productRepaired today) ps ->
  truthy m && (typeof m =? "object") = true ->
  repairAnalysisData today'
    (JObj [("entity", JObj [("id", JNull); ("name_brand", JStr n);
                            ("details", JArr (map (entityDetailOf today) pss) []);
                            ("products", JArr ps [])]);
           ("_meta", m)]) debug =
  Ok (JObj [("entity", JObj [("id", JNull); ("name_brand", JStr n);
                             ("details", JArr (map (entityDetailOf today) pss) []);
                             ("products", JArr ps [])]);
            ("_meta", m)]).
Proof.
  intros Ht Hps Hm.
  rewrite repairAnalysisData_unfold.
  cbn [not_an_object truthy typeof negb orb].
  change ("object" =? "object") with true. cbn [negb].
  unfold repairBody. cbn [get bind].
  change (own "entity" _)
    with (JObj [("id", JNull); ("name_brand", JStr n);
                ("details", JArr (map (entityDetailOf today) pss) []);
                ("products", JArr ps [])]).
  cbn [truthy typeof andb]. change ("object" =? "object") with true. cbv iota.
  unfold repairModern. rewrite typed_field_obj.
  change (own "name_brand" _) with (JStr n).
  cbn [typeof]. change ("string" =? "string") with true. cbv iota. cbn [bind get].
  change (own "details" _) with (JArr (map (entityDetailOf today) pss) []).
  cbv iota.
  rewrite (mapM_fix (entityDetail today')).
  2:{ apply Forall_forall. intros d Hd. apply in_map_iff in Hd.
      destruct Hd as [qs [<- _]]. now apply entityDetail_fix. }
  cbn [bind].
  change (own "products" _) with (JArr ps []). cbv iota.
  rewrite (mapM_fix (modernProduct today')).
  2:{ eapply Forall_impl; [|exact Hps]. intros p. apply modernProduct_fix. }
  cbn [bind].
  change (own "_meta" _) with m. rewrite Hm. reflexivity.
Qed.

Lemma entityDetailSchema_object (zod : ZodLib) (d : value) :
  entityDetailSchema zod d = true -> exists ps, d = JObj ps.
Proof.
  unfold entityDetailSchema. destruct d; try discriminate. eauto.
Qed.

Lemma map_if_array_returns (a : value) (f : value -> result value) :
  Forall (fun x => exists y, f x = Ok y) (elements a) ->
  exists y, map_if_array a f = Ok y.
Proof.
  unfold map_if_array. destruct a as [| | | | |xs qs|qs]; eauto.
  cbn [elements]. intros H. destruct (mapM_returns f xs H) as [l ->].
  cbn [bind]. eauto.
Qed.

Lemma valid_details_extract (zod : ZodLib) (today : string) (a : value) :
  z.optional (z.array (entityDetailSchema zod)) a = true ->
  Forall (fun x => exists y, nestedDetail today x = Ok y) (elements a).
Proof.
  intros H. apply Forall_forall. intros d Hd.
  pose proof (optional_array_elements _ _ _ H Hd) as Hv.
  destruct (entityDetailSchema_object _ _ Hv) as [ps ->].
  rewrite nestedDetail_object. eauto.
Qed.

Lemma valid_entity_details (zod : ZodLib) (sh : z.shape) (ps : props) :
  z.object sh (JObj ps) = true ->
  In ("details", z.optional (z.array (entityDetailSchema zod))) sh ->
  z.optional (z.array (entityDetailSchema zod)) (own "details" ps) = true.
Proof. intros H Hin. exact (object_field _ _ _ _ H Hin). Qed.

Lemma productShape_details (zod : ZodLib) :
  In ("details", z.optional (z.array (entityDetailSchema zod))) (productEntityShape zod).
Proof. unfold productEntityShape. apply in_or_app. right. cbn. tauto. Qed.

Lemma modernCompetitor_returns (zod : ZodLib) (today : string) (c : value) :
  recursiveProductEntitySchema zod c = true ->
  exists y, modernCompetitor today c = Ok y.
Proof.
  intros Hc. destruct (recursiveProductEntitySchema_object _ _ Hc) as [qs ->].
  rewrite recursiveProductEntitySchema_unfold in Hc.
  apply andb_true_iff in Hc. destruct Hc as [Hp _].
  pose proof (valid_entity_details zod _ _ Hp (productShape_details zod)) as Hd.
  unfold modernCompetitor.
  cbn [not_an_object truthy typeof negb orb].
  change ("object" =? "object") with true. cbn [negb].
  rewrite typed_field_obj. cbn [bind get].
  destruct (map_if_array_returns (own "details" qs) (nestedDetail today)
              (valid_details_extract zod today _ Hd)) as [y ->].
  cbn [bind]. eauto.
Qed.

Lemma modernProduct_returns (zod : ZodLib) (today : string) (p : value) :
  recursiveProductEntitySchema zod p = true ->
  exists y, modernProduct today p = Ok y.
Proof.
  intros Hp. destruct (recursiveProductEntitySchema_object _ _ Hp) as [qs ->].
  pose proof Hp as Hrec.
  rewrite recursiveProductEntitySchema_unfold in Hp.
  apply andb_true_iff in Hp. destruct Hp as [Hp Hcs].
  pose proof (valid_entity_details zod _ _ Hp (productShape_details zod)) as Hd.
  unfold modernProduct.
  cbn [not_an_object truthy typeof negb orb].
  change ("object" =? "object") with true. cbn [negb].
  rewrite typed_field_obj. cbn [bind get].
  destruct (map_if_array_returns (own "details" qs) (nestedDetail today)
              (valid_details_extract zod today _ Hd)) as [y ->].
  cbn [bind].
  destruct (map_if_array_returns (own "competitors" qs) (modernCompetitor today))
    as [z ->].
  { apply Forall_forall. intros c Hc.
    apply (modernCompetitor_returns zod).
    exact (optional_array_elements _ _ _ Hcs Hc). }
  cbn [bind]. eauto.
Qed.

(** What validity says about the root of a document. *)
Lemma valid_entity (zod : ZodLib) (v : value) :
  isValid (validate.analysisData zod v) = true ->
  exists ps es n,
    v = JObj ps /\ own "entity" ps = JObj es /\ own "name_brand" es = JStr n /\
    z.optional (z.array (entityDetailSchema zod)) (own "details" es) = true /\
    z.optional (z.array (recursiveProductEntitySchema zod)) (own "products" es) = true.
Proof.
  rewrite isValid_analysisData. unfold analysisDataSchema.
  destruct v as [| | | | | |ps]; try discriminate. intros Hv.
  pose proof (object_field _ _ "entity" _ Hv (or_introl eq_refl)) as He.
  cbn beta in He.
  destruct (own "entity" ps) as [| | | | | |es] eqn:Ee; try discriminate.
  pose proof (object_field _ _ "name_brand" z.string He) as Hn.
  pose proof (object_field _ _ "details"
                (z.optional (z.array (entityDetailSchema zod))) He) as Hd.
  pose proof (object_field _ _ "products"
                (z.optional (z.array (recursiveProductEntitySchema zod))) He) as Hp.
  destruct (own "name_brand" es) as [| | | |n| |] eqn:En;
    try (exfalso; assert (F : false = true) by (apply Hn; cbn; tauto); discriminate F).
  exists ps, es, n.
  split; [reflexivity|]. split; [exact Ee|]. split; [exact En|].
  split; [apply Hd | apply Hp]; cbn; tauto.
Qed.

Lemma repairModern_returns (zod : ZodLib) (today : string) (ps es : props) :
  z.optional (z.array (entityDetailSchema zod)) (own "details" es) = true ->
  z.optional (z.array (recursiveProductEntitySchema zod)) (own "products" es) = true ->
  exists r, repairModern today (JObj ps) (JObj es) = Ok r.
Proof.
  intros Hd Hp. unfold repairModern. rewrite typed_field_obj. cbn [bind get].
  assert (Hd' : exists y,
             match own "details" es with
             | JArr xs _ => l <- mapM (entityDetail today) xs ;; Ok (JArr l [])
             | _ => Ok (JArr [] [])
             end = Ok y).
  { destruct (own "details" es) as [| | | | |xs qs|qs]; eauto.
    destruct (mapM_returns (entityDetail today) xs) as [l Hl].
    - apply Forall_forall. intros d Hin.
      pose proof (optional_array_elements _ (JArr xs qs) _ Hd Hin) as Hv.
      destruct (entityDetailSchema_object _ _ Hv) as [ds ->].
      rewrite entityDetail_object. eauto.
    - rewrite Hl. cbn [bind]. eauto. }
  destruct Hd' as [y ->]. cbn [bind].
  assert (Hp' : exists y,
             match own "products" es with
             | JArr xs _ => l <- mapM (modernProduct today) xs ;; Ok (JArr l [])
             | _ => Ok (JArr [] [])
             end = Ok y).
  { destruct (own "products" es) as [| | | | |xs qs|qs]; eauto.
    destruct (mapM_returns (modernProduct today) xs) as [l Hl].
    - apply Forall_forall. intros p Hin.
      apply (modernProduct_returns zod).
      exact (optional_array_elements _ (JArr xs qs) _ Hp Hin).
    - rewrite Hl. cbn [bind]. eauto. }
  destruct Hp' as [z ->]. cbn [bind]. eauto.
Qed.

Lemma enum_member_truthy (values : list string) (v : value) :
  z.enum values (JStr "") = false -> z.enum values v = true -> truthy v = true.
Proof.
  intros He Hv. destruct v as [| | | |s| |]; try discriminate.
  destruct s; [rewrite He in Hv; discriminate | reflexivity].
Qed.

Lemma mapM_map_In {A B : Type} (f : A -> result B) (g : A -> B) (l : list A) :
  (forall x, In x l -> f x = Ok (g x)) -> mapM f l = Ok (map g l).
Proof.
  induction l as [|x l IH]; intros H; cbn [mapM map]; [reflexivity|].
  rewrite (H x (or_introl eq_refl)). cbn [bind].
  rewrite IH by (intros y Hy; apply H; right; exact Hy). reflexivity.
Qed.

Lemma nested_details_valid (zod : ZodLib) (today : string) (a : value) :
  z.optional (z.array (entityDetailSchema zod)) a = true ->
  map_if_array a (nestedDetail today) =
  Ok (JArr (map (fun d => nestedDetailOf today (own_props d)) (elements a)) []).
Proof.
  intros Ha. destruct a as [| | | | |xs qs|qs]; try discriminate; try reflexivity.
  cbn [map_if_array elements].
  rewrite (mapM_map_In _ (fun d => nestedDetailOf today (own_props d))); [reflexivity|].
  intros d Hin.
  pose proof (optional_array_elements _ (JArr xs qs) _ Ha Hin) as Hv.
  destruct (entityDetailSchema_object _ _ Hv) as [ds ->].
  apply nestedDetail_object.
Qed.

Lemma valid_product_name (zod : ZodLib) (qs : props) :
  productEntitySchema zod (JObj qs) = true ->
  exists n, own "name_brand" qs = JStr n.
Proof.
  intros Hp.
  assert (Hn : z.string (own "name_brand" qs) = true).
  { apply (object_field _ _ "name_brand" _ Hp). unfold productEntityShape.
    apply in_or_app. left. cbn. tauto. }
  destruct (own "name_brand" qs); try discriminate Hn. eauto.
Qed.

Lemma modernCompetitor_valid (zod : ZodLib) (today : string) (c : value) :
  recursiveProductEntitySchema zod c = true ->
  modernCompetitor today c = Ok (rebuiltCompetitor today c).
Proof.
  intros Hc. destruct (recursiveProductEntitySchema_object _ _ Hc) as [qs ->].
  rewrite recursiveProductEntitySchema_unfold in Hc.
  apply andb_true_iff in Hc. destruct Hc as [Hp _].
  pose proof (valid_entity_details zod _ _ Hp (productShape_details zod)) as Hd.
  destruct (valid_product_name zod qs Hp) as [n Hn].
  unfold modernCompetitor.
  cbn [not_an_object truthy typeof negb orb].
  change ("object" =? "object") with true. cbn [negb].
  rewrite typed_field_obj. cbn [bind get].
  rewrite (nested_details_valid zod today _ Hd). cbn [bind].
  unfold rebuiltCompetitor, rebuiltDetails, details_in, field. cbn [get].
  rewrite Hn. reflexivity.
Qed.

Lemma modernProduct_valid (zod : ZodLib) (today : string) (p : value) :
  recursiveProductEntitySchema zod p = true ->
  modernProduct today p = Ok (rebuiltProduct today p).
Proof.
  intros Hp. destruct (recursiveProductEntitySchema_object _ _ Hp) as [qs ->].
  rewrite recursiveProductEntitySchema_unfold in Hp.
  apply andb_true_iff in Hp. destruct Hp as [Hp Hcs].
  pose proof (valid_entity_details zod _ _ Hp (productShape_details zod)) as Hd.
  destruct (valid_product_name zod qs Hp) as [n Hn].
  unfold modernProduct.
  cbn [not_an_object truthy typeof negb orb].
  change ("object" =? "object") with true. cbn [negb].
  rewrite typed_field_obj. cbn [bind get].
  rewrite (nested_details_valid zod today _ Hd). cbn [bind].
  assert (Hc : map_if_array (own "competitors" qs) (modernCompetitor today) =
               Ok (JArr (map (rebuiltCompetitor today)
                             (elements (own "competitors" qs))) [])).
  { destruct (own "competitors" qs) as [| | | | |xs rs|rs]; try discriminate Hcs;
      try reflexivity.
    cbn [map_if_array elements].
    rewrite (mapM_map_In _ (rebuiltCompetitor today)); [reflexivity|].
    intros c Hin. apply (modernCompetitor_valid zod).
    exact (optional_array_elements _ (JArr xs rs) _ Hcs Hin). }
  rewrite Hc. cbn [bind].
  unfold rebuiltProduct, rebuiltDetails, details_in, field. cbn [get].
  rewrite Hn. reflexivity.
Qed.

(** On a document the validator accepts, Case 1 returns the rebuilt
    document. *)
Lemma repairAnalysisData_valid (zod : ZodLib) (today : string) (v : value)
  (debug : bool) :
  isValid (validate.analysisData zod v) = true ->
  repairAnalysisData today v debug = Ok (rebuilt today v).
Proof.
  intros Hv.
  destruct (valid_entity zod v Hv) as [ps [es [n [-> [Ee [En [Hd Hp]]]]]]].
  rewrite repairAnalysisData_unfold.
  cbn [not_an_object truthy typeof negb orb].
  change ("object" =? "object") with true. cbn [negb].
  unfold repairBody. cbn [get bind]. rewrite Ee.
  cbn [truthy typeof andb]. change ("object" =? "object") with true. cbv iota.
  unfold repairModern. rewrite typed_field_obj. cbn [bind get].
  assert (Hd' : match own "details" es with
                | JArr xs _ => l <- mapM (entityDetail today) xs ;; Ok (JArr l [])
                | _ => Ok (JArr [] [])
                end =
                Ok (JArr (map (fun d => entityDetailOf today (own_props d))
                              (elements (own "details" es))) [])).
  { destruct (own "details" es) as [| | | | |xs qs|qs]; try discriminate Hd;
      try reflexivity.
    cbn [elements].
    rewrite (mapM_map_In _ (fun d => entityDetailOf today (own_props d)));
      [reflexivity|].
    intros d Hin.
    pose proof (optional_array_elements _ (JArr xs qs) _ Hd Hin) as Hdv.
    destruct (entityDetailSchema_object _ _ Hdv) as [ds ->].
    apply entityDetail_object. }
  rewrite Hd'. cbn [bind].
  assert (Hp' : match own "products" es with
                | JArr xs _ => l <- mapM (modernProduct today) xs ;; Ok (JArr l [])
                | _ => Ok (JArr [] [])
                end =
                Ok (JArr (map (rebuiltProduct today)
                              (elements (own "products" es))) [])).
  { destruct (own "products" es) as [| | | | |xs qs|qs]; try discriminate Hp;
      try reflexivity.
    cbn [elements].
    rewrite (mapM_map_In _ (rebuiltProduct today)); [reflexivity|].
    intros p Hin. apply (modernProduct_valid zod).
    exact (optional_array_elements _ (JArr xs qs) _ Hp Hin). }
  rewrite Hp'. cbn [bind try_catch].
  unfold rebuilt, rebuiltDetails, details_in, field. cbn [get]. rewrite Ee.
  cbn [get]. rewrite En. reflexivity.
Qed.

Lemma extract_first (accepts : value -> bool) (snake camel : string) (dflt : value)
  (ps : props) :
  accepts (own snake ps) = true -> extract accepts snake camel dflt ps = own snake ps.
Proof. intros H. unfold extract. now rewrite H. Qed.

Lemma valid_detail_fields (zod : ZodLib) (ds : props) :
  entityDetailSchema zod (JObj ds) = true ->
  truthy (own "type_research_detail" ds) = true /\
  truthy (own "data_confidence" ds) = true /\
  truthy (own "source_type" ds) = true /\
  (own "discrete_value" ds <> JUndefined ->
   typeof (own "discrete_value" ds) = "number") /\
  (own "text_value" ds <> JUndefined ->
   typeof (own "text_value" ds) = "string").
Proof.
  unfold entityDetailSchema. intros H.
  pose proof (object_field _ _ "type_research_detail" typeResearchDetailEnum H) as Ht.
  pose proof (object_field _ _ "data_confidence" dataConfidenceEnum H) as Hc.
  pose proof (object_field _ _ "source_type" sourceTypeEnum H) as Hs.
  pose proof (object_field _ _ "discrete_value" (z.optional z.number) H) as Hd.
  pose proof (object_field _ _ "text_value" (z.optional z.string) H) as Hx.
  split; [apply (enum_member_truthy researchDetailTypes); [reflexivity|];
          apply Ht; cbn; tauto|].
  split; [apply (enum_member_truthy dataConfidence); [reflexivity|];
          apply Hc; cbn; tauto|].
  split; [apply (enum_member_truthy sourceTypes); [reflexivity|];
          apply Hs; cbn; tauto|].
  split.
  - intros Hne. assert (Hd' : z.optional z.number (own "discrete_value" ds) = true)
      by (apply Hd; cbn; tauto).
    destruct (own "discrete_value" ds); try discriminate Hd'; [congruence | reflexivity].
  - intros Hne. assert (Hx' : z.optional z.string (own "text_value" ds) = true)
      by (apply Hx; cbn; tauto).
    destruct (own "text_value" ds); try discriminate Hx'; [congruence | reflexivity].
Qed.

Lemma truthy_is_defined (v : value) : truthy v = true -> is_defined v = true.
Proof. destruct v; try reflexivity; discriminate. Qed.

Lemma has_type_eq (ty : string) (v : value) : typeof v = ty -> has_type ty v = true.
Proof. intros <-. unfold has_type. apply String.eqb_refl. Qed.

Lemma entityDetailOf_keeps (zod : ZodLib) (today : string) (ds : props) :
  entityDetailSchema zod (JObj ds) = true ->
  keeps (JObj ds) (entityDetailOf today ds).
Proof.
  intros H. destruct (valid_detail_fields zod ds H) as [Ht [Hc [Hs [Hd Hx]]]].
  unfold keeps, field, entityDetailOf. cbn [get].
  repeat split.
  - change (own "type_research_detail" (_ :: _))
      with (extract truthy "type_research_detail" "typeResearchDetail"
              (JStr "market_share_estimate") ds).
    now apply extract_first.
  - change (own "data_confidence" (_ :: _))
      with (extract truthy "data_confidence" "dataConfidence" (JStr "medium") ds).
    now apply extract_first.
  - change (own "source_type" (_ :: _))
      with (extract truthy "source_type" "sourceType" (JStr "analyst_estimate") ds).
    now apply extract_first.
  - intros Hne.
    change (own "discrete_value" (_ :: _))
      with (extract (has_type "number") "discrete_value" "discreteValue" JUndefined ds).
    apply extract_first. apply has_type_eq. auto.
  - intros Hne.
    change (own "text_value" (_ :: _))
      with (extract (has_type "string") "text_value" "textValue" JUndefined ds).
    apply extract_first. apply has_type_eq. auto.
  - intros Ha.
    change (own "as_of_date" (_ :: _))
      with (extract truthy "as_of_date" "asOfDate" (JStr today) ds).
    now apply extract_first.
Qed.

Lemma nestedDetailOf_keeps (zod : ZodLib) (today : string) (ds : props) :
  entityDetailSchema zod (JObj ds) = true ->
  keeps (JObj ds) (nestedDetailOf today ds).
Proof.
  intros H. destruct (valid_detail_fields zod ds H) as [Ht [Hc [Hs [Hd Hx]]]].
  unfold keeps, field, nestedDetailOf. cbn [get].
  repeat split.
  - change (own "type_research_detail" (_ :: _))
      with (extract is_defined "type_research_detail" "typeResearchDetail"
              (JStr "market_share_estimate") ds).
    apply extract_first. now apply truthy_is_defined.
  - change (own "data_confidence" (_ :: _))
      with (extract is_defined "data_confidence" "dataConfidence" (JStr "medium") ds).
    apply extract_first. now apply truthy_is_defined.
  - change (own "source_type" (_ :: _))
      with (extract is_defined "source_type" "sourceType" (JStr "analyst_estimate") ds).
    apply extract_first. now apply truthy_is_defined.
  - intros Hne.
    change (own "discrete_value" (_ :: _))
      with (extract (has_type "number") "discrete_value" "discreteValue" JUndefined ds).
    apply extract_first. apply has_type_eq. auto.
  - intros Hne.
    change (own "text_value" (_ :: _))
      with (extract (has_type "string") "text_value" "textValue" JUndefined ds).
    apply extract_first. apply has_type_eq. auto.
  - intros Ha.
    change (own "as_of_date" (_ :: _))
      with (extract is_defined "as_of_date" "asOfDate" (JStr today) ds).
    apply extract_first. now apply truthy_is_defined.
Qed.

Lemma Forall2_map_keeps (zod : ZodLib) (detailOf : props -> value) (a : value) :
  (forall ds, entityDetailSchema zod (JObj ds) = true -> keeps (JObj ds) (detailOf ds)) ->
  z.optional (z.array (entityDetailSchema zod)) a = true ->
  Forall2 keeps (elements a) (map (fun d => detailOf (own_props d)) (elements a)).
Proof.
  intros Hk Ha.
  assert (H : Forall (fun d => entityDetailSchema zod d = true) (elements a)).
  { apply Forall_forall. intros d Hin. exact (optional_array_elements _ _ _ Ha Hin). }
  induction H as [|d l Hd _ IH]; cbn [map]; constructor; [|exact IH].
  destruct (entityDetailSchema_object _ _ Hd) as [ds ->]. apply Hk. exact Hd.
Qed.

Lemma Forall2_flat_map {A B C : Type} (R : B -> C -> Prop) (f : A -> list B)
  (g : A -> list C) (l : list A) :
  (forall x, In x l -> Forall2 R (f x) (g x)) ->
  Forall2 R (flat_map f l) (flat_map g l).
Proof.
  induction l as [|x l IH]; intros H; cbn [flat_map]; [constructor|].
  apply Forall2_app; [apply H; left; reflexivity|].
  apply IH. intros y Hy. apply H. right. exact Hy.
Qed.

Lemma flat_map_map {A B C : Type} (f : B -> list C) (g : A -> B) (l : list A) :
  flat_map f (map g l) = flat_map (fun x => f (g x)) l.
Proof. induction l as [|x l IH]; cbn [map flat_map]; [reflexivity | now rewrite IH]. Qed.

Lemma valid_product_details (zod : ZodLib) (p : value) :
  recursiveProductEntitySchema zod p = true ->
  z.optional (z.array (entityDetailSchema zod)) (field p "details") = true.
Proof.
  intros Hp. destruct (recursiveProductEntitySchema_object _ _ Hp) as [qs ->].
  rewrite recursiveProductEntitySchema_unfold in Hp.
  apply andb_true_iff in Hp. destruct Hp as [Hp _].
  exact (valid_entity_details zod _ _ Hp (productShape_details zod)).
Qed.

(** The Details of the rebuilt document are those of the document, in
    order, each keeping what it held. *)
Lemma rebuilt_keeps_details (zod : ZodLib) (today : string) (v : value) :
  isValid (validate.analysisData zod v) = true ->
  Forall2 keeps (all_details v) (all_details (rebuilt today v)).
Proof.
  intros Hv.
  destruct (valid_entity zod v Hv) as [ps [es [n [-> [Ee [En [Hd Hp]]]]]]].
  unfold all_details, rebuilt.
  change (field (JObj ps) "entity") with (own "entity" ps). rewrite Ee. cbv zeta.
  set (e' := JObj [("id", JNull); ("name_brand", field (JObj es) "name_brand");
                   ("details", JArr (rebuiltDetails entityDetailOf today (JObj es)) []);
                   ("products",
                     JArr (map (rebuiltProduct today)
                               (elements (field (JObj es) "products"))) [])]).
  change (field (JObj [("entity", e'); _]) "entity") with e'.
  change (details_in e') with (rebuiltDetails entityDetailOf today (JObj es)).
  change (elements (field e' "products"))
    with (map (rebuiltProduct today) (elements (field (JObj es) "products"))).
  change (field (JObj es) "products") with (own "products" es).
  apply Forall2_app.
  - unfold rebuiltDetails, details_in.
    change (field (JObj es) "details") with (own "details" es).
    apply (Forall2_map_keeps zod (entityDetailOf today)); [|exact Hd].
    intros ds. apply entityDetailOf_keeps.
  - rewrite flat_map_map. apply Forall2_flat_map. intros p Hin.
    pose proof (optional_array_elements _ _ _ Hp Hin) as Hpv.
    change (details_in (rebuiltProduct today p))
      with (rebuiltDetails nestedDetailOf today p).
    change (elements (field (rebuiltProduct today p) "competitors"))
      with (map (rebuiltCompetitor today) (elements (field p "competitors"))).
    apply Forall2_app.
    + unfold rebuiltDetails, details_in.
      apply (Forall2_map_keeps zod (nestedDetailOf today));
        [intros ds; apply nestedDetailOf_keeps | exact (valid_product_details zod p Hpv)].
    + rewrite flat_map_map. apply Forall2_flat_map. intros c Hc.
      pose proof (product_competitors zod p c Hpv Hc) as Hcv.
      change (details_in (rebuiltCompetitor today c))
        with (rebuiltDetails nestedDetailOf today c).
      unfold rebuiltDetails, details_in.
      apply (Forall2_map_keeps zod (nestedDetailOf today));
        [intros ds; apply nestedDetailOf_keeps | exact (valid_product_details zod c Hcv)].
Qed.

Lemma Ok_inj {A : Type} (a b : A) : Ok a = Ok b -> a = b.
Proof. intros H. now inversion H. Qed.

(** C4 (as amended).  For every value that satisfies the Schema Model,
    [repairAnalysisData] returns the document rebuilt from the fields it
    reads: [entity.name_brand], the six fields of every Detail, the products
    with their name, Details and competitors, the competitors with their
    name and Details, and [_meta].  The rebuilt document has the Details of
    the input, in order, each keeping what it held; every [id] in it is
    [null]; and it is a fixed point of repair: repairing it again, also with
    another date, returns it unchanged.  (The date read by the first call is
    a non-empty string.) *)
Theorem repair_idempotent_on_valid :
  forall (zod : ZodLib) (today today' : string) (v : value) (debug debug' : bool),
    today <> "" ->
    isValid (validate.analysisData zod v) = true ->
    exists r n,
      repairAnalysisData today v debug = Ok r /\
      r = rebuilt today v /\
      get2 v "entity" "name_brand" = Ok (JStr n) /\
      get2 r "entity" "name_brand" = Ok (JStr n) /\
      Forall2 keeps (all_details v) (all_details r) /\
      ids_null r = true /\
      repairAnalysisData today' r debug' = Ok r.
Proof.
  intros zod today today' v debug debug' Ht Hv.
  pose proof (repairAnalysisData_valid zod today v debug Hv) as Hreb.
  pose proof (rebuilt_keeps_details zod today v Hv) as Hkeeps.
  destruct (repairAnalysisData_total today v debug) as [r0 [Hr0 Hshape]].
  assert (Hr0' : r0 = rebuilt today v)
    by (apply Ok_inj; rewrite <- Hr0; exact Hreb).
  pose proof (repairShaped_ids_null _ Hshape) as Hids. rewrite Hr0' in Hids.
  clear r0 Hr0 Hshape Hr0'.
  destruct (valid_entity zod v Hv) as [ps [es [n [-> [Ee [En [Hd Hp]]]]]]].
  destruct (repairModern_returns zod today ps es Hd Hp) as [r Hr].
  assert (Hrep : repairAnalysisData today (JObj ps) debug = Ok r).
  { rewrite repairAnalysisData_unfold.
    cbn [not_an_object truthy typeof negb orb].
    change ("object" =? "object") with true. cbn [negb].
    unfold repairBody. cbn [get bind]. rewrite Ee.
    cbn [truthy typeof andb]. change ("object" =? "object") with true. cbv iota.
    rewrite Hr. reflexivity. }
  assert (Heq : r = rebuilt today (JObj ps))
    by (apply Ok_inj; rewrite <- Hrep; exact Hreb).
  destruct (repairModern_repaired today (JObj ps) (JObj es) r) as
    [n' [pss [l [m [Hshape [Hl [Hm Hn]]]]]]]; [|exact Hr|].
  { unfold field. cbn [get]. apply Forall_forall. intros p Hin.
    pose proof (optional_array_elements _ _ _ Hp Hin) as Hpv.
    destruct (recursiveProductEntitySchema_object _ _ Hpv) as [qs ->]. reflexivity. }
  rewrite typed_field_obj, En in Hn. cbn [typeof] in Hn.
  change ("string" =? "string") with true in Hn. cbv iota in Hn.
  inversion Hn; subst n'.
  exists r, n. split; [exact Hrep|].
  split; [exact Heq|].
  split; [unfold get2; cbn [get bind]; rewrite Ee; cbn [get]; now rewrite En|].
  split; [rewrite Hshape; reflexivity|].
  split; [rewrite Heq; exact Hkeeps|].
  split; [rewrite Heq; exact Hids|].
  rewrite Hshape. now apply repaired_document_fix.
Qed.

(** C4, witness: the canonical sample document. *)
Lemma repair_idempotent_on_valid_witness :
  "2026-11-02" <> "" /\
  isValid (validate.analysisData sampleZod sampleDocument) = true /\
  exists r n,
    repairAnalysisData "2026-11-02" sampleDocument false = Ok r /\
    r = rebuilt "2026-11-02" sampleDocument /\
    get2 sampleDocument "entity" "name_brand" = Ok (JStr n) /\
    get2 r "entity" "name_brand" = Ok (JStr n) /\
    Forall2 keeps (all_details sampleDocument) (all_details r) /\
    ids_null r = true /\
    repairAnalysisData "2026-11-03" r true = Ok r.
Proof.
  split; [discriminate|]. split; [vm_compute; reflexivity|].
  apply (repair_idempotent_on_valid sampleZod "2026-11-02" "2026-11-03"
           sampleDocument false true).
  - discriminate.
  - vm_compute. reflexivity.
Defined.

(** C4, counterexample: a valid document with a [name_legal]; the repaired
    value has no [name_legal], so it is not the input with defaults filled
    in. *)
Lemma repair_drops_fields_counterexample : ~ repair_fills_and_is_idempotent.
Proof.
  intros H.
  destruct (H sampleZod "2026-11-02"
              (JObj [("entity", JObj [("id", JNull); ("name_brand", JStr "Acme");
                                      ("name_legal", JStr "Acme Inc")])])
              false eq_refl) as [r [Hr [Hf _]]].
  vm_compute in Hr. inversion Hr; subst r. clear Hr.
  cbn in Hf. destruct Hf as [[_ [_ [Hf _]]] _]. discriminate Hf.
Qed.

(* ================================================================== *)
(** * The default date and the schema *)
(* ================================================================== *)

(** [as_of_date] is defaulted to a date ([toISOString().split('T')[0]])
    while the schema asks for a datetime.  Whenever the library's
    [datetime] check rejects the date read from the clock, repairing the
    canonical sample document -- which the validator accepts -- yields a
    document the validator rejects. *)
Lemma default_date_not_a_datetime (zod : ZodLib) (today : string) :
  is_datetime zod today = false ->
  isValid (validate.analysisData zod sampleDocument) = true /\
  exists r,
    repairAnalysisData today sampleDocument false = Ok r /\
    isValid (validate.analysisData zod r) = false.
Proof.
  intros Hd. split; [reflexivity|].
  eexists. split; [reflexivity|].
  rewrite isValid_analysisData. cbn. rewrite Hd. reflexivity.
Qed.

(* ================================================================== *)
(** * Worked scenarios *)
(* ================================================================== *)

(** A Detail with camelCase keys only comes out under snake_case keys. *)
Example camelCase_detail_repaired :
  nestedDetail "2026-11-02"
    (JObj [("typeResearchDetail", JStr "market_share_exact");
           ("dataConfidence", JStr "low");
           ("sourceType", JStr "news_article");
           ("asOfDate", JStr "2024-01-01");
           ("discreteValue", JNum (num 7))]) =
  Ok (JObj [("type_research_detail", JStr "market_share_exact");
            ("data_confidence", JStr "low");
            ("source_type", JStr "news_article");
            ("as_of_date", JStr "2024-01-01");
            ("discrete_value", JNum (num 7));
            ("text_value", JUndefined)]).
Proof. reflexivity. Qed.

(** The legacy flat shape is recognized. *)
Example legacy_shape_repaired :
  repairAnalysisData "2026-11-02"
    (JObj [("company_name", JStr "Acme");
           ("products", JArr [JObj [("name", JStr "Widget")]] [])]) false =
  Ok (JObj [("entity",
              JObj [("id", JNull); ("name_brand", JStr "Acme");
                    ("details", JArr [] []);
                    ("products",
                      JArr [JObj [("id", JNull); ("name_brand", JStr "Widget");
                                  ("details", JArr [] []);
                                  ("competitors", JArr [] [])]] [])]);
            ("_meta", defaultMeta)]).
Proof. reflexivity. Qed.

(** The validator rejects an entity without a name. *)
Example missing_name_rejected :
  forall zod : ZodLib,
    isValid (validate.analysisData zod
               (JObj [("entity", JObj [("products", JArr [] [])])])) = false.
Proof. reflexivity. Qed.

(** [null] is repaired to the default structure. *)
Example null_repaired_to_default :
  repairAnalysisData "2026-11-02" JNull false = Ok defaultData.
Proof. reflexivity. Qed.

(** A detail that is not an object makes Case 1 throw inside its [try]
    block; the whole input is then replaced by the default structure. *)
Example primitive_detail_discards_input :
  repairAnalysisData "2026-11-02"
    (JObj [("entity",
             JObj [("name_brand", JStr "Acme");
                   ("products",
                     JArr [JObj [("name_brand", JStr "Widget");
                                 ("details", JArr [JNum (num 42)] [])]] [])])])
    false = Ok defaultData.
Proof. reflexivity. Qed.

(** The end-to-end scenario at the default level, single strategy. *)
Example transformed_level_scenario :
  exists r,
    processCompanyAnalysis sampleZod "2026-11-02" "Acme"
      {| debug := None; skipValidation := None; sourceType := None;
         strategy := None |}
      (Ok (sampleDocument, sampleCost)) = Ok r /\
    get2 r "_meta" "validation" = Ok (JStr "repaired") /\
    get2 r "_meta" "cost" = Ok (cost_object sampleCost) /\
    get2 r "entity" "name_brand" = Ok (JStr "Acme").
Proof. eexists. repeat split; reflexivity. Qed.

(* ================================================================== *)
(** * Further properties: [mappers] and [mapAnalysisToEntityDetails] *)
(* ================================================================== *)

Lemma mapToEnum_member (v : value) (zodEnum : list string) (d : string) :
  z.enum zodEnum (JStr d) = true ->
  z.enum zodEnum (utils.mapToEnum v zodEnum d) = true.
Proof.
  intros Hd. unfold utils.mapToEnum.
  destruct (z.enum zodEnum v) eqn:E; [exact E | exact Hd].
Qed.

Lemma mapToEnum_fixes_members (v : value) (zodEnum : list string) (d : string) :
  z.enum zodEnum v = true -> utils.mapToEnum v zodEnum d = v.
Proof. intros E. unfold utils.mapToEnum. now rewrite E. Qed.

(** X1.  The three [mappers] always return a member of their enum, leave a
    member unchanged (so each is idempotent), and send everything else --
    an unknown string, a number, [null] -- to the default. *)
Theorem mappers_coerce_into_enums :
  forall v : value,
    (dataConfidenceEnum (mappers.confidence v) = true /\
     sourceTypeEnum (mappers.sourceType v) = true /\
     typeResearchDetailEnum (mappers.detailType v) = true) /\
    (mappers.confidence (mappers.confidence v) = mappers.confidence v /\
     mappers.sourceType (mappers.sourceType v) = mappers.sourceType v /\
     mappers.detailType (mappers.detailType v) = mappers.detailType v) /\
    (mappers.confidence v = (if dataConfidenceEnum v then v else JStr "medium") /\
     mappers.sourceType v = (if sourceTypeEnum v then v else JStr "analyst_estimate") /\
     mappers.detailType v =
       (if typeResearchDetailEnum v then v else JStr "market_share_estimate")).
Proof.
  intros v.
  assert (Hc : dataConfidenceEnum (mappers.confidence v) = true)
    by (apply mapToEnum_member; reflexivity).
  assert (Hs : sourceTypeEnum (mappers.sourceType v) = true)
    by (apply mapToEnum_member; reflexivity).
  assert (Ht : typeResearchDetailEnum (mappers.detailType v) = true)
    by (apply mapToEnum_member; reflexivity).
  split; [auto|]. split.
  - repeat split; apply mapToEnum_fixes_members; assumption.
  - unfold mappers.confidence, mappers.sourceType, mappers.detailType, utils.mapToEnum.
    unfold dataConfidenceEnum, sourceTypeEnum, typeResearchDetailEnum.
    repeat split;
      match goal with |- context [if ?b then Ok _ else _] => destruct b end; reflexivity.
Qed.

Lemma createRecord_ok (today entityId : string) (d r : value) :
  createRecord today entityId d = Ok r -> record_ok entityId r = true.
Proof.
  unfold createRecord. intros H.
  bind_inv H as t Ht. bind_inv H as c Hc. bind_inv H as s Hs.
  bind_inv H as a Ha. bind_inv H as dv Hdv. bind_inv H as tv Htv.
  inversion H; subst. clear H.
  unfold record_ok, detail_enums_ok, field. cbn [get].
  change (own "entity_id" _) with (JStr entityId).
  change (own "creator" _) with (JStr "openai").
  change (own "type_research_detail" _) with (mappers.detailType t).
  change (own "data_confidence" _) with (mappers.confidence c).
  change (own "source_type" _) with (mappers.sourceType s).
  cbv iota beta. rewrite String.eqb_refl.
  unfold mappers.detailType, mappers.confidence, mappers.sourceType.
  unfold typeResearchDetailEnum, dataConfidenceEnum, sourceTypeEnum.
  rewrite !mapToEnum_member by reflexivity. reflexivity.
Qed.

Section Records.

Variables today entityId : string.

Lemma or_else_Ok_Ok (x y : value) :
  Ok x ||| Ok y = Ok (if truthy x then x else y).
Proof. unfold or_else. cbn [bind]. destruct (truthy x); reflexivity. Qed.

Lemma get_non_nullish (v : value) (k : string) :
  non_nullish v = true -> get v k = Ok (field v k).
Proof. unfold field. destruct v; try discriminate; reflexivity. Qed.

Lemma createRecord_outcome (d : value) :
  match createRecord today entityId d with
  | Ok _ => non_nullish d = true
  | Throw _ => non_nullish d = false
  end.
Proof.
  destruct (non_nullish d) eqn:Ed.
  - unfold createRecord. rewrite !(get_non_nullish d _ Ed), !or_else_Ok_Ok.
    reflexivity.
  - destruct d; try discriminate; reflexivity.
Qed.

Lemma mapM_createRecord_outcome (l : list value) :
  match mapM (createRecord today entityId) l with
  | Ok rs => forallb non_nullish l = true /\ Forall2 (made_from today entityId) l rs
  | Throw _ => forallb non_nullish l = false
  end.
Proof.
  induction l as [|d l IH]; cbn [mapM forallb].
  - split; [reflexivity | constructor].
  - pose proof (createRecord_outcome d) as Hd.
    destruct (createRecord today entityId d) as [r|e] eqn:Er; cbn [bind];
      rewrite Hd; cbn [andb]; [|reflexivity].
    destruct (mapM (createRecord today entityId) l) as [rs|e]; cbn [bind]; [|exact IH].
    destruct IH as [IH1 IH2]. split; [exact IH1|]. constructor; assumption.
Qed.

Lemma mapM_makes_records (f : value -> result (list value)) (returns : value -> bool)
  (details : value -> list value) :
  makes_records today entityId f returns details ->
  forall l,
    match mapM f l with
    | Ok rss => forallb returns l = true /\
                Forall2 (made_from today entityId) (flat_map details l) (List.concat rss)
    | Throw _ => forallb returns l = false
    end.
Proof.
  intros Hf. induction l as [|x l IH]; cbn [mapM forallb flat_map].
  - split; [reflexivity | constructor].
  - pose proof (Hf x) as Hx.
    destruct (f x) as [rs|e]; cbn [bind]; [|rewrite Hx; reflexivity].
    destruct Hx as [Hx1 Hx2]. rewrite Hx1. cbn [andb].
    destruct (mapM f l) as [rss|e]; cbn [bind]; [|exact IH].
    destruct IH as [IH1 IH2]. split; [exact IH1|].
    cbn [List.concat]. apply Forall2_app; assumption.
Qed.

Lemma truthy_non_nullish (v : value) : truthy v = true -> non_nullish v = true.
Proof. destruct v; try reflexivity; discriminate. Qed.

Lemma falsy_elements (v : value) : truthy v = false -> elements v = [].
Proof. destruct v; try reflexivity; discriminate. Qed.

Lemma detailRecords_makes_records :
  makes_records today entityId (detailRecords today entityId) recordable details_in.
Proof.
  intros e. unfold detailRecords, recordable, details_in.
  destruct (non_nullish e) eqn:Ee.
  - rewrite (get_non_nullish e "details" Ee). cbn [bind andb].
    destruct (truthy (field e "details")) eqn:Et.
    + destruct (field e "details") as [| | | | |xs qs|qs]; try discriminate;
        cbn [array_elements bind listable elements];
        try (cbn in Et |- *; rewrite ?Et; reflexivity).
      apply mapM_createRecord_outcome.
    + rewrite (falsy_elements _ Et).
      split; [|constructor].
      destruct (field e "details"); try discriminate; cbn [listable]; rewrite ?Et; reflexivity.
  - destruct e; try discriminate; reflexivity.
Qed.

Lemma productRecords_makes_records :
  makes_records today entityId (productRecords today entityId)
    (fun p => recordable p && listable (field p "competitors") recordable)
    (fun p => details_in p ++ flat_map details_in (elements (field p "competitors")))%list.
Proof.
  intros p. unfold productRecords.
  pose proof (detailRecords_makes_records p) as Hd.
  destruct (detailRecords today entityId p) as [rs|e]; cbn [bind];
    [|rewrite Hd; reflexivity].
  destruct Hd as [Hr Hd]. rewrite Hr. cbn [andb].
  assert (Hp : non_nullish p = true).
  { unfold recordable in Hr. apply andb_true_iff in Hr. tauto. }
  rewrite (get_non_nullish p "competitors" Hp). cbn [bind].
  destruct (truthy (field p "competitors")) eqn:Et.
  - destruct (field p "competitors") as [| | | | |cs qs|qs]; try discriminate;
      cbn [array_elements bind listable elements];
      try (cbn in Et |- *; rewrite ?Et; reflexivity).
    pose proof (mapM_makes_records _ _ _ detailRecords_makes_records cs) as Hc.
    destruct (mapM (detailRecords today entityId) cs) as [rss|e]; cbn [bind]; [|exact Hc].
    destruct Hc as [Hc1 Hc2]. split; [exact Hc1|]. apply Forall2_app; assumption.
  - rewrite (falsy_elements _ Et). cbn [flat_map]. rewrite app_nil_r.
    split; [|exact Hd].
    destruct (field p "competitors"); try discriminate; cbn [listable]; rewrite ?Et; reflexivity.
Qed.

Lemma mapAnalysisToEntityDetails_makes_records :
  makes_records today entityId (fun v => mapAnalysisToEntityDetails today v entityId) mappable all_details.
Proof.
  intros v. unfold mapAnalysisToEntityDetails, mappable, all_details.
  destruct (non_nullish v) eqn:Ev.
  - rewrite (get_non_nullish v "entity" Ev). cbn [bind andb].
    set (entity := field v "entity").
    pose proof (detailRecords_makes_records entity) as Hd.
    destruct (detailRecords today entityId entity) as [rs|e]; cbn [bind];
      [|rewrite Hd; reflexivity].
    destruct Hd as [Hr Hd]. rewrite Hr. cbn [andb].
    assert (He : non_nullish entity = true).
    { unfold recordable in Hr. apply andb_true_iff in Hr. tauto. }
    rewrite (get_non_nullish entity "products" He). cbn [bind].
    destruct (truthy (field entity "products")) eqn:Et.
    + destruct (field entity "products") as [| | | | |xs qs|qs]; try discriminate;
        cbn [array_elements bind listable elements];
        try (cbn in Et |- *; rewrite ?Et; reflexivity).
      pose proof (mapM_makes_records _ _ _ productRecords_makes_records xs) as Hp.
      destruct (mapM (productRecords today entityId) xs) as [rss|e]; cbn [bind]; [|exact Hp].
      destruct Hp as [Hp1 Hp2]. split; [exact Hp1|]. apply Forall2_app; assumption.
    + rewrite (falsy_elements _ Et). cbn [flat_map]. rewrite app_nil_r.
      split; [|exact Hd].
      destruct (field entity "products"); try discriminate; cbn [listable];
        rewrite ?Et; reflexivity.
  - destruct v; try discriminate; reflexivity.
Qed.

End Records.

(** ** Repaired documents can be mapped *)

Lemma forallb_Forall_true {A : Type} (p : A -> bool) (l : list A) :
  Forall (fun x => p x = true) l -> forallb p l = true.
Proof. intros H. apply forallb_forall. apply Forall_forall. exact H. Qed.

Lemma non_nullish_entityDetailOf (today : string) (l : list value) :
  forallb non_nullish (map (fun d => entityDetailOf today (own_props d)) l) = true.
Proof. induction l; [reflexivity | exact IHl]. Qed.

Lemma non_nullish_nestedDetailOf (today : string) (pss : list props) :
  forallb non_nullish (map (nestedDetailOf today) pss) = true.
Proof. induction pss; [reflexivity | exact IHpss]. Qed.

Lemma competitorRepaired_recordable (today : string) (c : value) :
  competitorRepaired today c -> recordable c = true.
Proof.
  intros [n [pss ->]]. unfold recordable, field. cbn.
  apply non_nullish_nestedDetailOf.
Qed.

Lemma modernProduct_recordable (today : string) (p y : value) :
  modernProduct today p = Ok y ->
  recordable y && listable (field y "competitors") recordable = true.
Proof.
  destruct (not_an_object p) eqn:Ep.
  - unfold modernProduct. rewrite Ep. intros H. inversion H. reflexivity.
  - intros H. destruct (modernProduct_repaired today p y Ep H) as [n [pss [cs [-> Hcs]]]].
    unfold recordable, field. cbn.
    rewrite non_nullish_nestedDetailOf. cbn [andb].
    apply forallb_Forall_true.
    eapply Forall_impl; [|exact Hcs]. intros c. apply competitorRepaired_recordable.
Qed.

Lemma legacyCompetitor_recordable (c : value) (i : nat) (y : value) :
  legacyCompetitor c i = Ok y -> recordable y = true.
Proof.
  unfold legacyCompetitor. destruct (not_an_object c); intros H.
  - inversion H; reflexivity.
  - bind_inv H as n _. inversion H; reflexivity.
Qed.

Lemma legacyProduct_recordable (p : value) (i : nat) (y : value) :
  legacyProduct p i = Ok y ->
  recordable y && listable (field y "competitors") recordable = true.
Proof.
  unfold legacyProduct. destruct (not_an_object p); intros H.
  - inversion H; reflexivity.
  - bind_inv H as n _.
    bind_inv H as cs _.
    bind_inv H as competitors Hc.
    inversion H; subst. unfold recordable, field. cbn.
    unfold mapi_if_array in Hc.
    destruct cs; try (inversion Hc; subst; reflexivity).
    bind_inv Hc as l Hl. inversion Hc; subst. cbn.
    apply forallb_Forall_true.
    eapply mapiM_Forall; [|exact Hl]. intros x j z. apply legacyCompetitor_recordable.
Qed.

Lemma mappable_assembled (n details products m : value) :
  mappable (JObj [("entity", JObj [("id", JNull); ("name_brand", n);
                                   ("details", details); ("products", products)]);
                  ("_meta", m)]) =
  listable details non_nullish &&
  listable products (fun p => recordable p && listable (field p "competitors") recordable).
Proof. reflexivity. Qed.

Lemma repairModern_mappable (today : string) (rawData entityData r : value) :
  repairModern today rawData entityData = Ok r -> mappable r = true.
Proof.
  unfold repairModern. intros H.
  bind_inv H as n _.
  bind_inv H as ds _.
  bind_inv H as details Hd.
  bind_inv H as ps _.
  bind_inv H as products Hp.
  bind_inv H as meta _.
  inversion H; subst. clear H.
  assert (Hd' : listable details non_nullish = true).
  { destruct ds; try (inversion Hd; subst; reflexivity).
    bind_inv Hd as l Hl. inversion Hd; subst. cbn [listable].
    rewrite (mapM_closed _ (fun d => entityDetailOf today (own_props d))
               (entityDetail_Ok today) _ _ Hl).
    apply non_nullish_entityDetailOf. }
  assert (Hp' : listable products
                  (fun p => recordable p && listable (field p "competitors") recordable)
                = true).
  { destruct ps; try (inversion Hp; subst; reflexivity).
    bind_inv Hp as l Hl. inversion Hp; subst. cbn [listable].
    apply forallb_Forall_true.
    eapply mapM_Forall; [|exact Hl]. intros x y. apply modernProduct_recordable. }
  rewrite mappable_assembled, Hd', Hp'. reflexivity.
Qed.

Lemma repairLegacy_mappable (rawData products r : value) :
  repairLegacy rawData products = Ok r -> mappable r = true.
Proof.
  unfold repairLegacy. intros H.
  bind_inv H as company _.
  bind_inv H as n _.
  bind_inv H as ps Hp.
  inversion H; subst. clear H.
  rewrite mappable_assembled. cbn [listable forallb andb].
  destruct products; try (inversion Hp; subst; reflexivity).
  bind_inv Hp as l Hl. inversion Hp; subst. cbn [listable].
  apply forallb_Forall_true.
  eapply mapiM_Forall; [|exact Hl]. intros x i y. apply legacyProduct_recordable.
Qed.

Lemma repairBody_mappable (today : string) (rawData r : value) :
  repairBody today rawData = Ok r -> mappable r = true.
Proof.
  unfold repairBody. intros H.
  bind_inv H as entity _.
  destruct (truthy entity && (typeof entity =? "object")).
  - eapply repairModern_mappable; eauto.
  - bind_inv H as ln _.
    bind_inv H as products _.
    destruct (truthy ln && isArray products).
    + eapply repairLegacy_mappable; eauto.
    + inversion H. reflexivity.
Qed.

Lemma repairAnalysisData_mappable (today : string) (data : value) (debug : bool) :
  exists r, repairAnalysisData today data debug = Ok r /\ mappable r = true.
Proof.
  rewrite repairAnalysisData_unfold.
  destruct (not_an_object data).
  - eexists; split; reflexivity.
  - destruct (try_catch_default (repairBody today data) defaultData) as [a [Ha [Hb | ->]]].
    + exists a; split; [exact Ha | eapply repairBody_mappable; eauto].
    + eexists; split; [exact Ha | reflexivity].
Qed.

(** ** Documents the validator accepts can be mapped *)

Lemma valid_details_listable (zod : ZodLib) (a : value) :
  z.optional (z.array (entityDetailSchema zod)) a = true ->
  listable a non_nullish = true.
Proof.
  destruct a as [| | | | |xs qs|qs]; try discriminate; try reflexivity.
  cbn [z.optional z.array listable]. intros H.
  apply forallb_forall. intros d Hd.
  rewrite forallb_forall in H.
  destruct (entityDetailSchema_object _ _ (H d Hd)) as [ps ->]. reflexivity.
Qed.

Lemma valid_product_recordable (zod : ZodLib) (p : value) :
  recursiveProductEntitySchema zod p = true -> recordable p = true.
Proof.
  intros Hp. destruct (recursiveProductEntitySchema_object _ _ Hp) as [qs ->].
  rewrite recursiveProductEntitySchema_unfold in Hp.
  apply andb_true_iff in Hp. destruct Hp as [Hp _].
  unfold recordable, field. cbn [non_nullish get andb].
  eapply valid_details_listable.
  exact (valid_entity_details zod _ _ Hp (productShape_details zod)).
Qed.

Lemma valid_product_mappable (zod : ZodLib) (p : value) :
  recursiveProductEntitySchema zod p = true ->
  recordable p && listable (field p "competitors") recordable = true.
Proof.
  intros Hp. rewrite (valid_product_recordable zod p Hp). cbn [andb].
  destruct (recursiveProductEntitySchema_object _ _ Hp) as [qs ->].
  rewrite recursiveProductEntitySchema_unfold in Hp.
  apply andb_true_iff in Hp. destruct Hp as [_ Hc].
  unfold field. cbn [get].
  destruct (own "competitors" qs) as [| | | | |cs rs|rs]; try discriminate; try reflexivity.
  cbn [z.optional z.array listable] in Hc |- *.
  apply forallb_forall. intros c Hin. rewrite forallb_forall in Hc.
  apply (valid_product_recordable zod). auto.
Qed.

Lemma valid_mappable (zod : ZodLib) (v : value) :
  isValid (validate.analysisData zod v) = true -> mappable v = true.
Proof.
  intros Hv. destruct (valid_entity zod v Hv) as [ps [es [n [-> [Ee [_ [Hd Hp]]]]]]].
  unfold mappable, recordable, field. cbn [non_nullish get andb]. rewrite Ee.
  cbn [non_nullish get andb].
  rewrite (valid_details_listable zod _ Hd). cbn [andb].
  destruct (own "products" es) as [| | | | |xs rs|rs]; try discriminate; try reflexivity.
  cbn [z.optional z.array listable] in Hp |- *.
  apply forallb_forall. intros p Hin. rewrite forallb_forall in Hp.
  apply (valid_product_mappable zod). auto.
Qed.

Lemma valid_all_details_enums (zod : ZodLib) (v : value) :
  isValid (validate.analysisData zod v) = true ->
  Forall (fun d => detail_enums_ok d = true) (all_details v).
Proof.
  intros Hv. apply Forall_forall. intros d Hd.
  rewrite isValid_analysisData in Hv. unfold analysisDataSchema in Hv.
  destruct v as [| | | | | |ps]; try discriminate.
  pose proof (object_field _ _ "entity" _ Hv (or_introl eq_refl)) as He.
  cbn beta in He.
  unfold all_details, field in Hd. cbn [get] in Hd.
  destruct (own "entity" ps) as [| | | | | |es]; try discriminate.
  fold (field (JObj es) "products") in Hd.
  apply in_app_or in Hd. destruct Hd as [Hd | Hd].
  - eapply (details_enums zod); [exact He | cbn; tauto | exact Hd].
  - apply in_flat_map in Hd. destruct Hd as [p [Hp Hd]].
    assert (Hprod : recursiveProductEntitySchema zod p = true).
    { eapply optional_array_elements; [|exact Hp].
      unfold field. cbn [get].
      apply (object_field _ _ "products" _ He). cbn. tauto. }
    apply in_app_or in Hd. destruct Hd as [Hd | Hd].
    + eapply product_details_enums; eauto.
    + apply in_flat_map in Hd. destruct Hd as [c [Hc Hd]].
      eapply product_details_enums; [|exact Hd].
      eapply product_competitors; eauto.
Qed.

Lemma createRecord_copies (today entityId : string) (d r : value) :
  detail_enums_ok d = true ->
  createRecord today entityId d = Ok r -> copies d r.
Proof.
  intros Hd H.
  pose proof (createRecord_outcome today entityId d) as Hn. rewrite H in Hn.
  unfold createRecord in H.
  rewrite !(get_non_nullish d _ Hn), !or_else_Ok_Ok in H. cbn [bind] in H.
  unfold detail_enums_ok in Hd.
  apply andb_true_iff in Hd. destruct Hd as [Hd Hs].
  apply andb_true_iff in Hd. destruct Hd as [Ht Hc].
  rewrite (enum_member_truthy researchDetailTypes _ eq_refl Ht) in H.
  rewrite (enum_member_truthy dataConfidence _ eq_refl Hc) in H.
  rewrite (enum_member_truthy sourceTypes _ eq_refl Hs) in H.
  unfold mappers.detailType, mappers.confidence, mappers.sourceType in H.
  rewrite (mapToEnum_fixes_members _ _ _ Ht) in H.
  rewrite (mapToEnum_fixes_members _ _ _ Hc) in H.
  rewrite (mapToEnum_fixes_members _ _ _ Hs) in H.
  inversion H; subst. clear H.
  intros k Hk. cbn [copied_fields In] in Hk.
  destruct Hk as [<- | [<- | [<- | [<- | [<- | []]]]]]; reflexivity.
Qed.

Lemma Forall2_Forall_l {A B : Type} (R S : A -> B -> Prop) (P : A -> Prop)
  (l : list A) (l' : list B) :
  (forall x y, P x -> R x y -> S x y) ->
  Forall P l -> Forall2 R l l' -> Forall2 S l l'.
Proof.
  intros HRS HP H. induction H as [|x y l l' Hxy H IH]; constructor.
  - inversion HP; subst. auto.
  - inversion HP; subst. auto.
Qed.

Lemma Forall2_Forall_r {A B : Type} (R : A -> B -> Prop) (P : B -> Prop)
  (l : list A) (l' : list B) :
  (forall x y, R x y -> P y) -> Forall2 R l l' -> Forall P l'.
Proof. intros HR H. induction H; constructor; eauto. Qed.

(* ------------------------------------------------------------------ *)

(** X2.  [mapAnalysisToEntityDetails] returns exactly on the documents
    [mappable] describes -- a non-nullish document whose [entity], products
    and competitors are non-nullish, whose [details], [products] and
    [competitors] are each falsy or an array, and whose details are
    non-nullish -- and raises on every other one.  When it returns, the
    records are those of the document's Details, one each and in document
    order: root entity, then per product its own and its competitors'. *)
Theorem mapAnalysisToEntityDetails_returns_iff_mappable :
  forall (today entityId : string) (v : value),
    match mapAnalysisToEntityDetails today v entityId with
    | Ok records =>
        mappable v = true /\
        Forall2 (made_from today entityId) (all_details v) records
    | Throw _ => mappable v = false
    end.
Proof.
  intros today entityId v.
  exact (mapAnalysisToEntityDetails_makes_records today entityId v).
Qed.

(** X3.  Every record [mapAnalysisToEntityDetails] returns carries the given
    [entity_id], the creator ["openai"] and members of the three enums in
    [type_research_detail], [data_confidence] and [source_type], whatever the
    Details held. *)
Theorem mapAnalysisToEntityDetails_records_well_formed :
  forall (today entityId : string) (v : value) (records : list value),
    mapAnalysisToEntityDetails today v entityId = Ok records ->
    Forall (fun r => record_ok entityId r = true) records.
Proof.
  intros today entityId v records H.
  pose proof (mapAnalysisToEntityDetails_makes_records today entityId v) as Hm.
  cbv beta in Hm. rewrite H in Hm. destruct Hm as [_ Hm].
  eapply Forall2_Forall_r; [|exact Hm].
  intros d r. apply createRecord_ok.
Qed.

(** X3, witness: a Detail with an unknown type and no confidence. *)
Lemma mapAnalysisToEntityDetails_records_well_formed_witness :
  Forall (fun r => record_ok "e1" r = true)
    [JObj [("entity_id", JStr "e1");
           ("type_research_detail", JStr "market_share_estimate");
           ("data_confidence", JStr "medium");
           ("source_type", JStr "unknown");
           ("as_of_date", JStr "2024-01-01");
           ("discrete_value", JUndefined);
           ("text_value", JUndefined);
           ("creator", JStr "openai")]].
Proof.
  apply (mapAnalysisToEntityDetails_records_well_formed "2024-01-01" "e1"
           (document "Acme" [JObj [("type_research_detail", JStr "bogus");
                                   ("source_type", JStr "unknown")]])).
  vm_compute. reflexivity.
Defined.

(** X4.  Whatever [repairAnalysisData] is given, [mapAnalysisToEntityDetails]
    returns on its result, with one record for each Detail of the repaired
    document. *)
Theorem mapAnalysisToEntityDetails_total_on_repaired :
  forall (today today' entityId : string) (v : value) (debug : bool),
  exists r records,
    repairAnalysisData today v debug = Ok r /\
    mapAnalysisToEntityDetails today' r entityId = Ok records /\
    Forall2 (made_from today' entityId) (all_details r) records.
Proof.
  intros today today' entityId v debug.
  destruct (repairAnalysisData_mappable today v debug) as [r [Hr Hm]].
  exists r.
  pose proof (mapAnalysisToEntityDetails_makes_records today' entityId r) as H.
  cbv beta in H.
  destruct (mapAnalysisToEntityDetails today' r entityId) as [records|e].
  - exists records. destruct H as [_ H]. auto.
  - rewrite Hm in H. discriminate.
Qed.

(** X5.  On a document [validate.analysisData] accepts,
    [mapAnalysisToEntityDetails] returns one record for each Detail, and each
    record has the [type_research_detail], [data_confidence], [source_type],
    [discrete_value] and [text_value] of its Detail unchanged. *)
Theorem mapAnalysisToEntityDetails_copies_valid_details :
  forall (zod : ZodLib) (today entityId : string) (v : value),
    isValid (validate.analysisData zod v) = true ->
    exists records,
      mapAnalysisToEntityDetails today v entityId = Ok records /\
      Forall2 copies (all_details v) records.
Proof.
  intros zod today entityId v Hv.
  pose proof (mapAnalysisToEntityDetails_makes_records today entityId v) as H.
  cbv beta in H.
  destruct (mapAnalysisToEntityDetails today v entityId) as [records|e].
  - exists records. split; [reflexivity|]. destruct H as [_ H].
    eapply Forall2_Forall_l; [|exact (valid_all_details_enums zod v Hv)|exact H].
    intros d r Hd Hr. exact (createRecord_copies today entityId d r Hd Hr).
  - rewrite (valid_mappable zod v Hv) in H. discriminate.
Qed.

(** X5, witness. *)
Lemma mapAnalysisToEntityDetails_copies_valid_details_witness :
  isValid (validate.analysisData sampleZod sampleDocument) = true /\
  exists records,
    mapAnalysisToEntityDetails "2024-01-01" sampleDocument "e1" = Ok records /\
    Forall2 copies (all_details sampleDocument) records.
Proof.
  split; [vm_compute; reflexivity|].
  apply (mapAnalysisToEntityDetails_copies_valid_details sampleZod "2024-01-01" "e1"
           sampleDocument).
  vm_compute. reflexivity.
Defined.

(* ================================================================== *)
(** * Further properties: [validate.basicStructure] *)
(* ================================================================== *)

Lemma isValid_basicStructure (messages : value -> list string) (v : value) :
  isValid (basicStructure messages v) = basicStructureSchema v.
Proof. unfold basicStructure. destruct (basicStructureSchema v); reflexivity. Qed.

Lemma optional_array_any (s : z.schema) (a : value) :
  z.optional (z.array s) a = true -> z.optional (z.array z.any) a = true.
Proof.
  destruct a as [| | | | |xs qs|qs]; try discriminate; try reflexivity.
  intros _. cbn [z.optional z.array]. apply forallb_forall. reflexivity.
Qed.

Lemma basicStructureSchema_entity (ps es : props) :
  own "entity" ps = JObj es ->
  basicStructureSchema (JObj ps) =
  z.optional z.string (own "name_brand" es) &&
  (z.optional (z.array z.any) (own "details" es) &&
   (z.optional (z.array z.any) (own "products" es) && true)) && true.
Proof.
  intros He. unfold basicStructureSchema. cbn [z.object forallb fst snd].
  rewrite He. reflexivity.
Qed.

(** X6.  [validate.basicStructure] is weaker than [validate.analysisData]:
    every document the full validator accepts passes the basic check too. *)
Theorem analysisData_valid_implies_basicStructure_valid :
  forall (zod : ZodLib) (messages : value -> list string) (v : value),
    isValid (validate.analysisData zod v) = true ->
    isValid (basicStructure messages v) = true.
Proof.
  intros zod messages v Hv.
  destruct (valid_entity zod v Hv) as [ps [es [n [-> [Ee [En [Hd Hp]]]]]]].
  rewrite isValid_basicStructure, (basicStructureSchema_entity ps es Ee), En.
  rewrite (optional_array_any _ _ Hd), (optional_array_any _ _ Hp). reflexivity.
Qed.

(** X6, witness. *)
Lemma analysisData_valid_implies_basicStructure_valid_witness :
  isValid (validate.analysisData sampleZod sampleDocument) = true /\
  isValid (basicStructure (issues sampleZod) sampleDocument) = true.
Proof.
  split; [vm_compute; reflexivity|].
  apply (analysisData_valid_implies_basicStructure_valid sampleZod (issues sampleZod)
           sampleDocument).
  vm_compute. reflexivity.
Defined.

(** X7.  Whatever [repairAnalysisData] is given, its result passes
    [validate.basicStructure] -- also when [validate.analysisData] rejects
    it. *)
Theorem repaired_passes_basicStructure :
  forall (messages : value -> list string) (today : string) (v : value) (debug : bool),
  exists r,
    repairAnalysisData today v debug = Ok r /\
    isValid (basicStructure messages r) = true /\
    errors (basicStructure messages r) = None.
Proof.
  intros messages today v debug.
  destruct (repairAnalysisData_total today v debug) as [r [Hr Hs]].
  exists r. split; [exact Hr|].
  destruct Hs as [n [ds [ps [m [-> _]]]]].
  assert (H : basicStructureSchema
                (JObj [("entity", JObj [("id", JNull); ("name_brand", JStr n);
                                        ("details", JArr ds []); ("products", JArr ps [])]);
                       ("_meta", m)]) = true).
  { erewrite basicStructureSchema_entity by reflexivity.
    change (own "name_brand" _) with (JStr n).
    change (own "details" _) with (JArr ds []).
    change (own "products" _) with (JArr ps []).
    cbn [z.optional z.string z.array andb].
    assert (Hany : forall l : list value, forallb z.any l = true)
      by (intros l; apply forallb_forall; reflexivity).
    rewrite !Hany. reflexivity. }
  unfold basicStructure. rewrite H. split; reflexivity.
Qed.

(* ================================================================== *)
(** * Further properties: the orchestrator ([openai.ts]) *)
(* ================================================================== *)

Lemma set_key_set_key (k : string) (v w : value) (ps : props) :
  set_key k w (set_key k v ps) = set_key k w ps.
Proof.
  induction ps as [|[k0 v0] rest IH]; simpl.
  - now rewrite String.eqb_refl.
  - destruct (String.eqb_spec k0 k).
    + simpl. subst. now rewrite String.eqb_refl.
    + simpl. destruct (String.eqb_spec k0 k); [congruence|]. now rewrite IH.
Qed.

Lemma with_cost_props (x r : value) (ps : props) (c : Cost) (m m' : value) :
  (forall k, field x k = own k ps) ->
  (forall k, field r k = own k (set_key "_meta" m' ps)) ->
  (truthy (own "_meta" ps) = true -> m = own "_meta" ps) ->
  (truthy (own "_meta" ps) = false -> m = JObj []) ->
  put m "cost" (cost_object c) = Ok m' ->
  with_cost x c r.
Proof.
  intros Hx Hr Ht Hf Hput. unfold with_cost.
  rewrite !Hr, !Hx, own_set_key_same.
  split; [intros k Hk; now rewrite Hr, Hx, own_set_key_other by congruence|].
  destruct (truthy (own "_meta" ps)) eqn:E.
  - rewrite (Ht eq_refl) in Hput.
    destruct (own "_meta" ps) as [| | | | |ys qs|qs]; try discriminate Hput;
      cbn [put] in Hput; inversion Hput; subst m'; unfold field; cbn [get];
      (split; [intros k Hk; now rewrite own_set_key_other by congruence
              | apply own_set_key_same]).
  - rewrite (Hf eq_refl) in Hput. cbn [put] in Hput. inversion Hput; subst m'.
    split; [|reflexivity].
    intros k Hk. unfold field. cbn [get set_key]. unfold own at 1. cbn [assoc].
    destruct (String.eqb_spec "cost" k); [congruence|].
    destruct (own "_meta" ps); try discriminate E; reflexivity.
Qed.

Lemma processSingleStepAnalysis_props (wrap : props -> value) (ps : props) (c : Cost) :
  (forall qs k, get (wrap qs) k = Ok (own k qs)) ->
  (forall qs k x, put (wrap qs) k x = Ok (wrap (set_key k x qs))) ->
  match
    try_catch
      (parsedData <- (if negb (truthy (own "_meta" ps))
                      then put (wrap ps) "_meta" (JObj [])
                      else Ok (wrap ps)) ;;
       m <- get parsedData "_meta" ;;
       m0 <- put m "cost" (cost_object c) ;;
       put parsedData "_meta" m0)
      (fun error : exn => Throw error)
  with
  | Ok a =>
      negb (truthy (own "_meta" ps)) || (typeof (own "_meta" ps) =? "object") = true /\
      with_cost (wrap ps) c a
  | Throw e =>
      negb (truthy (own "_meta" ps)) || (typeof (own "_meta" ps) =? "object") = false /\
      exists msg, e = TypeError msg
  end.
Proof.
  intros Hget Hput.
  assert (Hfield : forall qs k, field (wrap qs) k = own k qs)
    by (intros qs k; unfold field; now rewrite Hget).
  destruct (truthy (own "_meta" ps)) eqn:E; cbn [negb orb].
  - cbn [bind]. rewrite Hget. cbn [bind].
    destruct (put (own "_meta" ps) "cost" (cost_object c)) as [m0|e] eqn:Em.
    + cbn [bind]. rewrite Hput. cbn [try_catch]. split.
      * destruct (own "_meta" ps); try discriminate Em; reflexivity.
      * eapply (with_cost_props _ _ ps c (own "_meta" ps) m0); eauto.
        intros Hf. rewrite E in Hf. discriminate.
    + cbn [bind try_catch].
      destruct (own "_meta" ps); try discriminate E; cbn [put] in Em;
        try discriminate Em; inversion Em; split; eauto.
  - rewrite Hput. cbn [bind]. rewrite Hget, own_set_key_same. cbn [put bind].
    rewrite Hput, set_key_set_key. cbn [try_catch].
    split; [reflexivity|].
    eapply (with_cost_props _ _ ps c (JObj []) _); eauto;
      try reflexivity; intros Ht; rewrite E in Ht; discriminate.
Qed.

Lemma processSingleStepAnalysis_cases :
  forall (companyName : string) (options : CompanyAnalysisOptions)
         (parsedData : value) (c : Cost),
    match processSingleStepAnalysis companyName options (Ok (parsedData, c)) with
    | Ok a => accepts_cost parsedData = true /\ with_cost parsedData c a
    | Throw e => accepts_cost parsedData = false /\ exists msg, e = TypeError msg
    end.
Proof.
  intros companyName options parsedData c.
  unfold processSingleStepAnalysis. cbn [bind fst snd].
  destruct parsedData as [| |b|n|s|xs ps|ps]; cbn [get bind accepts_cost try_catch];
    try (split; [reflexivity | eauto]; fail).
  - apply (processSingleStepAnalysis_props (JArr xs) ps c); reflexivity.
  - apply (processSingleStepAnalysis_props JObj ps c); reflexivity.
Qed.

(** X8.  [processSingleStepAnalysis] returns exactly when the LLM payload is
    an object whose [_meta] is falsy or itself an object; it then returns the
    payload with [_meta.cost] set to the cost of the call and nothing else
    changed.  On every other payload ([null], a primitive, a payload whose
    [_meta] is a truthy primitive) it raises a [TypeError]. *)
Theorem processSingleStepAnalysis_outcome :
  forall (companyName : string) (options : CompanyAnalysisOptions)
         (parsedData : value) (c : Cost),
    match processSingleStepAnalysis companyName options (Ok (parsedData, c)) with
    | Ok a => accepts_cost parsedData = true /\ with_cost parsedData c a
    | Throw e => accepts_cost parsedData = false /\ exists msg, e = TypeError msg
    end.
Proof. exact processSingleStepAnalysis_cases. Qed.

Lemma finalizeAnalysisData_tagged (today : string) (a : value)
  (options : CompanyAnalysisOptions) :
  flag (skipValidation options) = false ->
  exists rep r,
    repairAnalysisData today a (flag (debug options)) = Ok rep /\
    finalizeAnalysisData today a options = Ok r /\
    tagged rep "repaired" r.
Proof.
  intros Hskip.
  destruct (repairAnalysisData_total today a (flag (debug options))) as [rep [Hrep Hs]].
  exists rep. unfold finalizeAnalysisData. rewrite Hskip, Hrep. cbn [negb bind].
  destruct (repairShaped_meta _ Hs) as [m [Hm [Ht Ho]]].
  destruct (repairShaped_object _ Hs) as [ps ->].
  rewrite Hm. cbn [bind]. rewrite Ht.
  cbn [get] in Hm. inversion Hm as [Hm']. clear Hm.
  assert (Hframe : forall m', forall k, k <> "_meta" ->
            field (JObj (set_key "_meta" m' ps)) k = field (JObj ps) k).
  { intros m' k Hk. unfold field. cbn [get]. now rewrite own_set_key_other by congruence. }
  destruct Ho as [[qs ->] | [xs [qs ->]]]; rewrite Hm'; cbn [put bind]; eexists;
    (split; [reflexivity|]); (split; [reflexivity|]);
    (split; [apply Hframe|]); unfold field; cbn [get];
    rewrite own_set_key_same, Hm'; cbn [get];
    (split; [intros k Hk; now rewrite own_set_key_other by congruence
            | apply own_set_key_same]).
Qed.

Lemma postprocessing_returns (zod : ZodLib) (today : string) (a m : value)
  (options : CompanyAnalysisOptions) :
  get a "_meta" = Ok m ->
  exists r,
    (if level_of options =? "rawOpenAI" then Ok a
     else if level_of options =? "validatedOpenAI" then validatedOpenAI zod a
     else if level_of options =? "repairedOpenAI" then
       repairedOpenAI zod today a (flag (debug options))
     else finalizeAnalysisData today a options) = Ok r.
Proof.
  intros Hm.
  destruct (level_of options =? "rawOpenAI"); [eauto|].
  destruct (level_of options =? "validatedOpenAI").
  { unfold validatedOpenAI. rewrite Hm. cbn [bind]. eauto. }
  destruct (level_of options =? "repairedOpenAI").
  { unfold repairedOpenAI. rewrite Hm. cbn [bind].
    destruct (isValid (validate.analysisData zod a)); [eauto|].
    destruct (repairAnalysisData_total today a (flag (debug options))) as [rep [-> _]].
    cbn [bind]. eauto. }
  destruct (flag (skipValidation options)) eqn:Hskip.
  - unfold finalizeAnalysisData. rewrite Hskip. cbn [negb]. eauto.
  - destruct (finalizeAnalysisData_tagged today a options Hskip) as [rep [r [_ [Hr _]]]].
    eauto.
Qed.

(** X9.  [processCompanyAnalysis] raises only what the generation raised,
    unchanged: once the generation strategy has returned, no processing
    level raises.  Under the single strategy the exception is that of
    [processSingleStepAnalysis]; under the multi strategy the only one is
    the [TypeError] of a product name of the basic-info answer that has no
    string conversion -- a failure of the LLM call never makes it raise. *)
Theorem processCompanyAnalysis_raises_only_from_generation :
  forall (zod : ZodLib) (today companyName : string)
         (options : CompanyAnalysisOptions) (llm : LLMOutcome),
    match generate today companyName options llm with
    | Ok _ => exists r, processCompanyAnalysis zod today companyName options llm = Ok r
    | Throw e =>
        processCompanyAnalysis zod today companyName options llm = Throw e /\
        match strategy options with
        | Some multi =>
            exists info productName,
              getBasicCompanyInfo companyName options llm = Ok info /\
              In productName (main_products info) /\
              ToString productName = Throw e
        | _ => processSingleStepAnalysis companyName options llm = Throw e
        end
    end.
Proof.
  intros zod today companyName options llm.
  rewrite processCompanyAnalysis_unfold.
  destruct (generate today companyName options llm) as [a|e] eqn:Hg; cbn [bind].
  - destruct (generate_object _ _ _ _ _ Hg) as [m Hm].
    exact (postprocessing_returns zod today a m options Hm).
  - split; [reflexivity|].
    unfold generate in Hg.
    destruct (strategy options) as [[|]|]; try exact Hg.
    destruct (getBasicCompanyInfo_returns companyName options llm) as [info Hi].
    pose proof (processMultiStepAnalysis_products today companyName options llm info Hi)
      as H.
    rewrite Hg in H. destruct H as [_ [productName [Hin Hn]]].
    exists info, productName. auto.
Qed.

(** X10.  At the default ([transformedOpenAI]) level without [skipValidation]
    the returned document is always the output of [repairAnalysisData] on the
    generated one, with only [_meta.validation] changed, to ["repaired"] --
    also when the generated document was already valid. *)
Theorem transformed_level_always_repairs :
  forall (zod : ZodLib) (today companyName : string)
         (options : CompanyAnalysisOptions) (llm : LLMOutcome) (a : value),
    repairs_unconditionally options = true ->
    generate today companyName options llm = Ok a ->
    exists rep r,
      repairAnalysisData today a (flag (debug options)) = Ok rep /\
      processCompanyAnalysis zod today companyName options llm = Ok r /\
      tagged rep "repaired" r.
Proof.
  intros zod today companyName options llm a Hrep Ha.
  unfold repairs_unconditionally in Hrep.
  apply andb_true_iff in Hrep. destruct Hrep as [Hrep Hs].
  apply andb_true_iff in Hrep. destruct Hrep as [Hrep H3].
  apply andb_true_iff in Hrep. destruct Hrep as [H1 H2].
  apply negb_true_iff in H1, H2, H3, Hs.
  rewrite processCompanyAnalysis_unfold, Ha, H1, H2, H3. cbn [bind].
  exact (finalizeAnalysisData_tagged today a options Hs).
Qed.

(** X10, witness: a valid document is repaired and tagged all the same. *)
Lemma transformed_level_always_repairs_witness :
  isValid (validate.analysisData sampleZod sampleGenerated) = true /\
  exists rep r,
    repairAnalysisData "2026-11-02" sampleGenerated false = Ok rep /\
    processCompanyAnalysis sampleZod "2026-11-02" "Acme"
      (optionsFor "transformedOpenAI" single)
      (Ok (sampleDocument, sampleCost)) = Ok r /\
    tagged rep "repaired" r.
Proof.
  split; [vm_compute; reflexivity|].
  apply (transformed_level_always_repairs sampleZod "2026-11-02" "Acme"
           (optionsFor "transformedOpenAI" single)
           (Ok (sampleDocument, sampleCost)) sampleGenerated);
    vm_compute; reflexivity.
Defined.

(** X11.  At the [validatedOpenAI] level a generated object is returned with
    every field outside [_meta] and every field of [_meta] other than
    [validation] and [validationErrors] as generated -- it is never repaired,
    valid or not; [_meta.validation] is ["passed"] exactly when
    [validate.analysisData] accepts the generated object, and
    [_meta.validationErrors] is then the empty array, else the validator's
    error strings. *)
Theorem validatedOpenAI_level_only_annotates :
  forall (zod : ZodLib) (today companyName : string)
         (options : CompanyAnalysisOptions) (llm : LLMOutcome) (ps ms : props),
    level_of options = "validatedOpenAI" ->
    generate today companyName options llm = Ok (JObj ps) ->
    own "_meta" ps = JObj ms ->
    exists r,
      processCompanyAnalysis zod today companyName options llm = Ok r /\
      (forall k, k <> "_meta" -> field r k = own k ps) /\
      (forall k, k <> "validation" -> k <> "validationErrors" ->
         field (field r "_meta") k = own k ms) /\
      field (field r "_meta") "validation" =
        JStr (if isValid (validate.analysisData zod (JObj ps)) then "passed" else "failed") /\
      field (field r "_meta") "validationErrors" =
        (if isValid (validate.analysisData zod (JObj ps)) then JArr [] []
         else string_array (issues zod (JObj ps))).
Proof.
  intros zod today companyName options llm ps ms Hlevel Ha Hm.
  rewrite processCompanyAnalysis_unfold, Ha, Hlevel. cbn [bind].
  change ("validatedOpenAI" =? "rawOpenAI") with false.
  change ("validatedOpenAI" =? "validatedOpenAI") with true.
  cbv iota.
  unfold validatedOpenAI. cbn [get bind spread]. rewrite Hm. cbn [spread].
  eexists. split; [reflexivity|].
  unfold field. cbn [get]. rewrite own_set_key_same. cbn [get].
  split; [intros k Hk; now rewrite own_set_key_other by congruence|].
  split; [intros k Hk Hk'; now rewrite !own_set_key_other by congruence|].
  split.
  - rewrite own_set_key_other by discriminate. rewrite own_set_key_same.
    unfold validate.analysisData.
    destruct (analysisDataSchema zod (JObj ps)); reflexivity.
  - rewrite own_set_key_same. unfold validate.analysisData.
    destruct (analysisDataSchema zod (JObj ps)); reflexivity.
Qed.

(** X11, witness: the multi strategy at the [validatedOpenAI] level. *)
Lemma validatedOpenAI_level_only_annotates_witness :
  exists r,
    processCompanyAnalysis sampleZod "2026-11-02" "Acme"
      (optionsFor "validatedOpenAI" multi) (Throw (Error "timeout")) = Ok r /\
    (forall k, k <> "_meta" ->
       field r k =
       own k [("entity", JObj [("id", JNull); ("name_brand", JStr "Acme");
                               ("products", JArr [] []); ("details", JArr [] [])]);
              ("_meta", defaultMeta)]) /\
    (forall k, k <> "validation" -> k <> "validationErrors" ->
       field (field r "_meta") k =
       own k [("cost", JObj [("totalTokens", JNum zero); ("costUSD", JNum zero)])]) /\
    field (field r "_meta") "validation" = JStr "passed" /\
    field (field r "_meta") "validationErrors" = JArr [] [].
Proof.
  apply (validatedOpenAI_level_only_annotates sampleZod "2026-11-02" "Acme"
           (optionsFor "validatedOpenAI" multi) (Throw (Error "timeout"))
           [("entity", JObj [("id", JNull); ("name_brand", JStr "Acme");
                             ("products", JArr [] []); ("details", JArr [] [])]);
            ("_meta", defaultMeta)]
           [("cost", JObj [("totalTokens", JNum zero); ("costUSD", JNum zero)])]);
    vm_compute; reflexivity.
Defined.

(* ================================================================== *)
(** * Further properties: [extractApiCost] *)
(* ================================================================== *)

Lemma get_opt_field (v : value) (k : string) : get_opt v k = Ok (field v k).
Proof. unfold field. destruct v; reflexivity. Qed.

Lemma get_object_field (v : value) (k : string) :
  typeof v = "object" -> v <> JNull -> get v k = Ok (field v k).
Proof. unfold field. destruct v; try discriminate; try reflexivity. congruence. Qed.

Lemma extractApiCost_object (data : value) :
  typeof data = "object" -> data <> JNull ->
  extractApiCost data =
  let c := cost_location data in
  if negb (is_undefined (field c "totalTokens")) then
    if typeof (field c "costUSD") =? "number" then
      match toLocaleString (field c "totalTokens") with
      | Ok _ => Ok c
      | Throw _ => Ok JNull
      end
    else Ok JNull
  else Ok JNull.
Proof.
  intros Ht Hn. unfold extractApiCost.
  assert (Hbody : forall body : result value,
            try_catch (match data with
                       | JNull | JUndefined => Ok JNull
                       | _ => if negb (typeof data =? "object") then Ok JNull else body
                       end) (fun _ => Ok JNull)
            = try_catch body (fun _ => Ok JNull)).
  { intros body. destruct data; try discriminate Ht; try reflexivity. congruence. }
  rewrite Hbody. clear Hbody.
  repeat (rewrite ?get_opt_field, ?(get_object_field data _ Ht Hn); cbn [bind]).
  rewrite or_else_Ok_Ok. cbn [bind].
  fold (cost_location data). cbv zeta.
  rewrite get_opt_field. cbn [bind].
  destruct (is_undefined (field (cost_location data) "totalTokens")) eqn:Eu;
    cbn [negb]; [reflexivity|].
  assert (Hc : get (cost_location data) "costUSD"
               = Ok (field (cost_location data) "costUSD")).
  { generalize dependent (cost_location data). intros c Eu.
    unfold field. destruct c; try reflexivity; discriminate Eu. }
  rewrite Hc. cbn [bind].
  destruct (typeof (field (cost_location data) "costUSD") =? "number"); [|reflexivity].
  destruct (toLocaleString (field (cost_location data) "totalTokens")); reflexivity.
Qed.

Lemma extractApiCost_on_object (data : value) :
  typeof data = "object" -> data <> JNull ->
  exists c,
    extractApiCost data = Ok c /\
    (c = JNull \/ (c = cost_location data /\ usable_cost c)) /\
    (usable_cost (cost_location data) -> c = cost_location data).
Proof.
  intros Ht Hn. rewrite (extractApiCost_object data Ht Hn). cbv zeta.
  set (c := cost_location data).
  destruct (is_undefined (field c "totalTokens")) eqn:Eu; cbn [negb].
  { exists JNull. split; [reflexivity|]. split; [auto|].
    intros [_ Hl]. destruct (field c "totalTokens"); discriminate. }
  destruct (String.eqb_spec (typeof (field c "costUSD")) "number") as [Hc|Hc].
  - destruct (toLocaleString (field c "totalTokens")) as [u|e] eqn:El.
    + exists c. split; [reflexivity|]. split; [|auto].
      right. split; [reflexivity|]. split; [exact Hc|]. destruct u. exact El.
    + exists JNull. split; [reflexivity|]. split; [auto|].
      intros [_ Hl]. rewrite El in Hl. discriminate.
  - exists JNull. split; [reflexivity|]. split; [auto|].
    intros [Hl _]. contradiction.
Qed.

(** X12.  [extractApiCost] never raises.  A result other than [null] is the
    cost object found at [data._meta.cost] when that is truthy, else at
    [_meta.cost], and it is one the callers can log without raising: its
    [costUSD] is a number and [totalTokens.toLocaleString()] returns (so
    [totalTokens] is neither [undefined] nor [null]).  Conversely the object
    at that place is returned whenever it is such a cost object. *)
Theorem extractApiCost_returns_usable_cost :
  forall data : value,
  exists c,
    extractApiCost data = Ok c /\
    (c = JNull \/ (c = cost_location data /\ usable_cost c)) /\
    (typeof data = "object" -> data <> JNull -> usable_cost (cost_location data) ->
     c = cost_location data).
Proof.
  intros data.
  destruct (String.eqb_spec (typeof data) "object") as [Ht|Ht].
  - destruct data as [| | | | |xs ps|ps] eqn:Ed; try discriminate Ht.
    + exists JNull. split; [reflexivity|]. split; [auto | congruence].
    + destruct (extractApiCost_on_object (JArr xs ps) eq_refl) as [c [H1 [H2 H3]]];
        [discriminate|]. exists c. auto.
    + destruct (extractApiCost_on_object (JObj ps) eq_refl) as [c [H1 [H2 H3]]];
        [discriminate|]. exists c. auto.
  - exists JNull. split; [|split; [auto | intros; contradiction]].
    destruct data; try reflexivity; exfalso; apply Ht; reflexivity.
Qed.




(* ================================================================== *)
(** * Further properties: from the completion to the payload *)
(* ================================================================== *)

Section ExtractionProperties.

Variable JSON_parse : string -> result value.

Lemma find_app {A : Type} (p : A -> bool) (l l' : list A) :
  find p (l ++ l')%list = match find p l with Some x => Some x | None => find p l' end.
Proof.
  induction l as [|x l IH]; [reflexivity|].
  cbn [app find]. destruct (p x); [reflexivity | exact IH].
Qed.

Lemma parsed_one (s : string) :
  parsed JSON_parse [s] = found (safeParseJson JSON_parse (Some s)).
Proof.
  unfold parsed, found. cbn [map find].
  destruct (truthy (safeParseJson JSON_parse (Some s))); reflexivity.
Qed.

Lemma found_guarded (parsedData : value) (s : string) :
  found (if negb (truthy parsedData) && negb (s =? "")
         then safeParseJson JSON_parse (Some s) else parsedData) =
  match found parsedData with
  | Some v => Some v
  | None => parsed JSON_parse [s]
  end.
Proof.
  rewrite parsed_one. unfold found at 2.
  destruct (truthy parsedData) eqn:Et; cbn [negb andb].
  - unfold found. now rewrite Et.
  - destruct (String.eqb_spec s "") as [->|Hs]; cbn [negb]; [|reflexivity].
    unfold found. rewrite Et. reflexivity.
Qed.

Lemma found_from_tool_calls (m : Message) :
  found (from_tool_calls JSON_parse m JNull) =
  parsed JSON_parse (match tool_calls m with
          | Some tcs =>
              match find (fun tc => type tc =? "function") tcs with
              | Some {| function := Some f |} => [arguments f]
              | _ => []
              end
          | None => []
          end).
Proof.
  unfold from_tool_calls.
  destruct (tool_calls m) as [[|tc tcs]|]; try reflexivity.
  cbn [List.length Nat.ltb Nat.leb].
  destruct (find (fun tc0 => type tc0 =? "function") (tc :: tcs)) as [[ty [f|]]|];
    cbn [function]; reflexivity.
Qed.

Lemma found_from_function_call (m : Message) (parsedData : value) :
  found (from_function_call JSON_parse m parsedData) =
  match found parsedData with
  | Some v => Some v
  | None => parsed JSON_parse (match function_call m with Some f => [arguments f] | None => [] end)
  end.
Proof.
  unfold from_function_call.
  destruct (function_call m) as [f|]; [apply found_guarded|].
  destruct (found parsedData); reflexivity.
Qed.

Lemma found_from_content (m : Message) (parsedData : value) :
  found (from_content JSON_parse m parsedData) =
  match found parsedData with
  | Some v => Some v
  | None => parsed JSON_parse (match content m with Some c => [c] | None => [] end)
  end.
Proof.
  unfold from_content.
  destruct (content m) as [c|]; [apply found_guarded|].
  destruct (found parsedData); reflexivity.
Qed.

Lemma extractJSONFromLLMResponse_spec (response : ChatCompletion) :
  extractJSONFromLLMResponse JSON_parse response =
  match first_message response with
  | None => Throw (Error "No message found in LLM response")
  | Some m =>
      match first_payload JSON_parse m with
      | Some v => Ok v
      | None => Throw (Error "Could not extract valid JSON content from LLM response")
      end
  end.
Proof.
  unfold extractJSONFromLLMResponse.
  destruct (first_message response) as [m|]; [|reflexivity].
  cbv zeta.
  set (parsedData := from_content JSON_parse m _).
  assert (H : found parsedData = first_payload JSON_parse m).
  { subst parsedData.
    rewrite found_from_content, found_from_function_call, found_from_tool_calls.
    unfold first_payload, sources, parsed. rewrite !map_app, !find_app.
    destruct (find truthy _); [reflexivity|].
    destruct (find truthy _); reflexivity. }
  rewrite <- H. unfold found. destruct (truthy parsedData); reflexivity.
Qed.

End ExtractionProperties.

Lemma find_some_truthy (l : list value) (v : value) :
  find truthy l = Some v -> truthy v = true.
Proof. intros H. apply find_some in H. tauto. Qed.

(** X14.  [extractJSONFromLLMResponse] returns the first of three sources
    that parses to a truthy value -- the arguments of the first tool call of
    type [function], the arguments of [function_call], the [content] -- so
    what it returns is never [null], [0], [false] or the empty string; it
    raises an [Error] when the response has no first message, and when no
    source parses to a truthy value. *)
Theorem extractJSONFromLLMResponse_first_truthy_source :
  forall (JSON_parse : string -> result value) (response : ChatCompletion),
    match extractJSONFromLLMResponse JSON_parse response with
    | Ok v =>
        truthy v = true /\
        exists m, first_message response = Some m /\
                  first_payload JSON_parse m = Some v
    | Throw e =>
        (first_message response = None /\
         e = Error "No message found in LLM response") \/
        (exists m, first_message response = Some m /\
                   first_payload JSON_parse m = None /\
                   e = Error "Could not extract valid JSON content from LLM response")
    end.
Proof.
  intros JSON_parse response. rewrite extractJSONFromLLMResponse_spec.
  destruct (first_message response) as [m|]; [|left; split; reflexivity].
  destruct (first_payload JSON_parse m) as [v|] eqn:E.
  - split; [exact (find_some_truthy _ _ E) | eauto].
  - right. eauto.
Qed.

(** X15.  The failures of the single-step generation, from the settled
    [callOpenAI] on: the exception of the call itself, unchanged; an [Error]
    when no payload can be extracted from the completion; a [TypeError] when
    the extracted payload cannot take the cost (a truthy primitive, or a
    payload whose [_meta] is one).  Otherwise it returns the first truthy
    payload with the cost of the call in [_meta.cost] and nothing else
    changed. *)
Theorem single_step_generation_outcomes :
  forall (JSON_parse : string -> result value) (companyName : string)
         (options : CompanyAnalysisOptions) (completion : result (ChatCompletion * Cost)),
    match processSingleStepAnalysis companyName options
            (callOpenAIWithSchema JSON_parse completion) with
    | Ok a =>
        exists response c m parsedData,
          completion = Ok (response, c) /\
          first_message response = Some m /\
          first_payload JSON_parse m = Some parsedData /\
          accepts_cost parsedData = true /\
          with_cost parsedData c a
    | Throw e =>
        completion = Throw e \/
        exists response c,
          completion = Ok (response, c) /\
          match first_message response with
          | None => e = Error "No message found in LLM response"
          | Some m =>
              match first_payload JSON_parse m with
              | None =>
                  e = Error "Could not extract valid JSON content from LLM response"
              | Some parsedData =>
                  accepts_cost parsedData = false /\ exists msg, e = TypeError msg
              end
          end
    end.
Proof.
  intros JSON_parse companyName options completion.
  unfold callOpenAIWithSchema.
  destruct completion as [[response c]|e]; cbn [bind fst snd try_catch];
    [|left; reflexivity].
  rewrite extractJSONFromLLMResponse_spec.
  destruct (first_message response) as [m|] eqn:Em; cbn [try_catch];
    [|right; exists response, c; rewrite Em; split; reflexivity].
  destruct (first_payload JSON_parse m) as [parsedData|] eqn:Ep; cbn [bind try_catch];
    [|right; exists response, c; rewrite Em, Ep; split; reflexivity].
  pose proof (processSingleStepAnalysis_cases companyName options parsedData c) as H.
  destruct (processSingleStepAnalysis companyName options (Ok (parsedData, c))) as [a|e].
  - destruct H as [Hacc Hcost]. exists response, c, m, parsedData. auto.
  - right. exists response, c. rewrite Em, Ep. split; [reflexivity | exact H].
Qed.

(* ================================================================== *)
(** * Further properties: [extractProducts] *)
(* ================================================================== *)

Section ProductLineProperties.

Import ProductLines.

Variable divide : number -> number -> number.
Variable Number_toString : number -> string.

Lemma find_last_snoc {A : Type} (p : A -> bool) (l : list A) (x : A) :
  find_last p (l ++ [x])%list = if p x then Some x else find_last p l.
Proof. unfold find_last. rewrite rev_app_distr. reflexivity. Qed.

(** The loop invariant of [for (const detail of product.details)]. *)
Lemma scan_details (ds : list Transform.EntityDetail) :
  fold_left (scanDetail Number_toString) ds (num 0, "0%", "") =
  (revenue_of ds, growth_of Number_toString ds, description_of ds).
Proof.
  induction ds as [|d ds IH] using rev_ind; [reflexivity|].
  rewrite fold_left_app, IH. cbn [fold_left].
  unfold revenue_of, growth_of, description_of. rewrite !find_last_snoc.
  unfold scanDetail, isGrowthDetail, isDescriptionDetail, Transform.isMarketShareDetail,
    typeIncludes, has_value.
  destruct d as [ty dv tv]. cbn [Transform.type_research_detail
    Transform.discrete_value Transform.text_value].
  destruct dv as [x|]; destruct tv as [t|];
    destruct (match ty with Some t0 => Transform.includes t0 "market_share" | None => false end);
    destruct (match ty with Some t0 => Transform.includes t0 "growth" | None => false end);
    destruct (match ty with Some t0 => Transform.includes t0 "description" | None => false end);
    cbn [andb negb]; try reflexivity;
    destruct (t =? ""); reflexivity.
Qed.

Lemma productLine_line_of (entityName : string) (productCount : nat)
  (product : Transform.RecursiveProductEntity) (index : nat) :
  productCount <> 0 ->
  productLine divide Number_toString entityName productCount product index =
  line_of divide Number_toString entityName productCount product index.
Proof.
  intros Hn. unfold productLine, line_of, details_of.
  assert (Hscan : match Transform.details product with
                  | Some ds => fold_left (scanDetail Number_toString) ds (num 0, "0%", "")
                  | None => (num 0, "0%", "")
                  end =
                  (revenue_of match Transform.details product with Some ds => ds | None => [] end,
                   growth_of Number_toString
                     match Transform.details product with Some ds => ds | None => [] end,
                   description_of
                     match Transform.details product with Some ds => ds | None => [] end)).
  { destruct (Transform.details product) as [ds|]; [apply scan_details | reflexivity]. }
  rewrite Hscan. cbv zeta.
  destruct (Nat.eqb_spec productCount 0); [contradiction | reflexivity].
Qed.

Lemma nth_error_mapi {A B : Type} (f : A -> nat -> B) (l : list A) (k i : nat) (x : A) :
  nth_error l i = Some x -> nth_error (mapi f k l) i = Some (f x (k + i)).
Proof.
  revert k i. induction l as [|y l IH]; intros k [|i]; cbn [nth_error mapi];
    try discriminate.
  - intros H; inversion H; subst. now rewrite Nat.add_0_r.
  - intros H. rewrite (IH (S k) i H). f_equal. f_equal. lia.
Qed.

End ProductLineProperties.

(** X16.  In [extractProducts] the LAST detail of each kind decides: the
    product line of every product has as [revenuePercentage] the
    [discrete_value] of the product's last market-share detail with a value,
    when that is positive, and else an equal share of 100; as [growth] the
    value of the last growth detail that is not a market-share detail; as
    [description] the text of the last description detail, else
    ["<name> by <entity>"].  ([extractCompetitors] takes the first
    market-share detail.) *)
Theorem extractProducts_last_detail_wins :
  forall (divide : number -> number -> number) (Number_toString : number -> string)
         (products : list Transform.RecursiveProductEntity) (entityName : string)
         (index : nat) (product : Transform.RecursiveProductEntity),
    nth_error products index = Some product ->
    nth_error (ProductLines.extractProducts divide Number_toString products entityName)
      index =
    Some (ProductLines.line_of divide Number_toString entityName
            (List.length products) product index).
Proof.
  intros divide Number_toString products entityName index product H.
  unfold ProductLines.extractProducts, Transform.isValidArray.
  destruct products as [|p ps]; [destruct index; discriminate H|].
  cbn [List.length Nat.ltb Nat.leb negb].
  rewrite (nth_error_mapi _ _ 0 index product H). cbn [Nat.add].
  now rewrite productLine_line_of by discriminate.
Qed.

(** X16, witness: of two market-share details the second one counts. *)
Lemma extractProducts_last_detail_wins_witness :
  nth_error (ProductLines.extractProducts ProductLines.sampleDivide
               ProductLines.sampleToString [ProductLines.sampleProduct] "Acme") 0 =
  Some {| ProductLines.name := "Widget";
          ProductLines.revenuePercentage := num 40;
          ProductLines.growth := "0%";
          ProductLines.description := "Widget by Acme" |}.
Proof.
  apply (extractProducts_last_detail_wins ProductLines.sampleDivide
           ProductLines.sampleToString [ProductLines.sampleProduct] "Acme" 0
           ProductLines.sampleProduct).
  reflexivity.
Defined.

Lemma append_nonempty_l (s t : string) : s <> "" -> (s ++ t) <> "".
Proof. destruct s; [congruence | discriminate]. Qed.

Lemma append_nonempty_r (s t : string) : t <> "" -> (s ++ t) <> "".
Proof. destruct s; [cbn; auto | discriminate]. Qed.

Lemma or_string_nonempty (s dflt : string) :
  dflt <> "" -> Transform.or_string s dflt <> "".
Proof.
  intros Hd. unfold Transform.or_string.
  destruct (String.eqb_spec s ""); assumption.
Qed.

Lemma Forall_mapi {A B : Type} (f : A -> nat -> B) (P : B -> Prop) :
  (forall x i, P (f x i)) -> forall l k, Forall P (ProductLines.mapi f k l).
Proof.
  intros Hf. induction l as [|x l IH]; intros k; cbn [ProductLines.mapi];
    constructor; auto.
Qed.

Lemma length_mapi {A B : Type} (f : A -> nat -> B) (l : list A) (k : nat) :
  List.length (ProductLines.mapi f k l) = List.length l.
Proof.
  revert k. induction l as [|x l IH]; intros k; cbn [ProductLines.mapi List.length];
    [reflexivity | now rewrite IH].
Qed.

(** X17.  [extractProducts] never returns an empty list and never a blank
    name or description: it returns one product line per product, a single
    default line when there is no product, and every [name] and
    [description] is a non-empty string. *)
Theorem extractProducts_lines_never_blank :
  forall (divide : number -> number -> number) (Number_toString : number -> string)
         (products : list Transform.RecursiveProductEntity) (entityName : string),
    List.length (ProductLines.extractProducts divide Number_toString products entityName)
      = Nat.max 1 (List.length products) /\
    Forall (fun line => ProductLines.name line <> "" /\
                        ProductLines.description line <> "")
      (ProductLines.extractProducts divide Number_toString products entityName).
Proof.
  intros divide Number_toString products entityName.
  unfold ProductLines.extractProducts.
  destruct products as [|p ps].
  - change (negb (Transform.isValidArray (@nil Transform.RecursiveProductEntity)))
      with true. cbv iota. split; [reflexivity|].
    constructor; [|constructor]. cbn [ProductLines.name ProductLines.description].
    split; [apply append_nonempty_r | apply append_nonempty_l]; discriminate.
  - change (negb (Transform.isValidArray (p :: ps))) with false. cbv iota. split.
    + rewrite length_mapi. cbn [List.length]. lia.
    + apply Forall_mapi. intros x i. unfold ProductLines.productLine.
      destruct (match Transform.details x with
                | Some ds => fold_left (ProductLines.scanDetail Number_toString) ds
                               (num 0, "0%", "")
                | None => (num 0, "0%", "")
                end) as [[revenue growth] description].
      cbn [ProductLines.name ProductLines.description]. split.
      * apply or_string_nonempty. discriminate.
      * apply or_string_nonempty. apply append_nonempty_l.
        apply or_string_nonempty. discriminate.
Qed.

(* ================================================================== *)
(** * Further properties: the validator on ids and names *)
(* ================================================================== *)

Lemma product_identified (zod : ZodLib) (p : value) :
  recursiveProductEntitySchema zod p = true -> identified zod false p = true.
Proof.
  intros Hp. destruct (recursiveProductEntitySchema_object _ _ Hp) as [qs ->].
  rewrite recursiveProductEntitySchema_unfold in Hp.
  apply andb_true_iff in Hp. destruct Hp as [Hp _].
  assert (Hid : nullableUuidSchema zod (own "id" qs) = true).
  { apply (object_field _ _ "id" _ Hp). unfold productEntityShape.
    apply in_or_app. left. cbn. tauto. }
  assert (Hn : z.string (own "name_brand" qs) = true).
  { apply (object_field _ _ "name_brand" _ Hp). unfold productEntityShape.
    apply in_or_app. left. cbn. tauto. }
  unfold identified, field. cbn [get].
  destruct (own "name_brand" qs); try discriminate Hn.
  destruct (own "id" qs); try discriminate Hid; [reflexivity | exact Hid].
Qed.

(** X18.  [validate.analysisData] requires an [id] and a name everywhere: in
    every document it accepts, the root entity, each product and each
    competitor has a string [name_brand] and an [id] that is present and
    either [null] or a string -- on products and competitors a UUID.  A
    document that leaves an [id] out is rejected. *)
Theorem validator_requires_ids_and_names :
  forall (zod : ZodLib) (v : value),
    isValid (validate.analysisData zod v) = true ->
    entities_identified zod v = true.
Proof.
  intros zod v Hv.
  rewrite isValid_analysisData in Hv. unfold analysisDataSchema in Hv.
  destruct v as [| | | | | |ps]; try discriminate.
  pose proof (object_field _ _ "entity" _ Hv (or_introl eq_refl)) as He.
  cbn beta in He.
  unfold entities_identified.
  change (field (JObj ps) "entity") with (own "entity" ps). cbv zeta.
  destruct (own "entity" ps) as [| | | | | |es]; try discriminate.
  pose proof (object_field _ _ "id" _ He (or_introl eq_refl)) as Hid.
  assert (Hn : z.string (own "name_brand" es) = true)
    by (apply (object_field _ _ "name_brand" _ He); cbn; tauto).
  assert (Hps : z.optional (z.array (recursiveProductEntitySchema zod))
                  (own "products" es) = true)
    by (apply (object_field _ _ "products" _ He); cbn; tauto).
  change (field (JObj es) "products") with (own "products" es).
  apply andb_true_iff. split.
  - unfold identified, field. cbn [get].
    destruct (own "name_brand" es); try discriminate Hn.
    destruct (own "id" es); try discriminate Hid; reflexivity.
  - apply forallb_forall. intros p Hin.
    assert (Hp : recursiveProductEntitySchema zod p = true)
      by (eapply optional_array_elements; [exact Hps | exact Hin]).
    rewrite (product_identified zod p Hp). cbn [andb].
    apply forallb_forall. intros c Hc.
    apply (product_identified zod). eapply product_competitors; eauto.
Qed.

(** X18, witness. *)
Lemma validator_requires_ids_and_names_witness :
  entities_identified sampleZod sampleDocument = true.
Proof.
  apply (validator_requires_ids_and_names sampleZod sampleDocument).
  vm_compute. reflexivity.
Defined.

(** X19.  [processOpenRouterResponse] never changes what
    [extractJSONFromLLMResponse] extracts from a completion that has
    choices: it only sets [finish_reason].  A completion without choices is
    replaced by one whose only source is the apology text, so for it the
    extraction no longer fails with "No message found".  Processing twice is
    processing once. *)
Theorem processOpenRouterResponse_preserves_extraction :
  forall (JSON_parse : string -> result value) (response : ChatCompletion),
    match choices response with
    | None | Some [] =>
        extractJSONFromLLMResponse JSON_parse (processOpenRouterResponse response) =
        match parsed JSON_parse [apology] with
        | Some v => Ok v
        | None => Throw (Error "Could not extract valid JSON content from LLM response")
        end
    | Some _ =>
        extractJSONFromLLMResponse JSON_parse (processOpenRouterResponse response) =
        extractJSONFromLLMResponse JSON_parse response
    end /\
    processOpenRouterResponse (processOpenRouterResponse response) =
    processOpenRouterResponse response.
Proof.
  intros JSON_parse [[[|[m fr] rest]|]]; cbn [choices];
    try (split; [rewrite extractJSONFromLLMResponse_spec|]; reflexivity).
  unfold processOpenRouterResponse. cbn [choices message finish_reason].
  destruct m as [[c [tcs|] fc]|]; cbn [tool_calls]; try (split; reflexivity).
  destruct tcs as [|tc tcs]; cbn [List.length Nat.ltb Nat.leb]; try (split; reflexivity).
  destruct (String.eqb_spec fr "tool_calls") as [->|Hfr]; cbn [negb];
    [split; reflexivity|].
  split; [reflexivity|].
  cbn [choices message finish_reason tool_calls List.length Nat.ltb Nat.leb].
  change ("tool_calls" =? "tool_calls") with true. reflexivity.
Qed.
